(** * Listy importer: a shallow embedding of the import service

    The development embeds [src/services/ListyImportService.ts] (the revision
    with templates, note locking and the configurable title length) and
    [src/utils/templateUtils.ts], and states the properties of the
    marker-based merge, of the file-name derivation, of template substitution
    and of the consolidated task list.

    Strings.  A JavaScript string is a sequence of code units.  The model
    uses [string]: one [ascii] per code unit, which covers the code units
    below 256 (ASCII and Latin-1).  White space, line terminators and case
    conversion are those of the language on these code units: the no-break
    space (code 160) is white space, and the letters of Latin-1 have a case.
    Positions are [Z], because [indexOf] answers [-1] when nothing is found.

    Effects.  The vault (files and folders), and the source of fresh
    identifiers behind [uuidv4], form a [World] that is threaded through the
    service; a computation ends with a value, with a thrown error, or runs
    out of fuel (the only loop of the source that need not terminate is the
    [ATTR] loop of [applyTemplateTransformations]). *)

From Stdlib Require Import String Ascii List ZArith Lia Bool Arith.
Import ListNotations.
Local Open Scope Z_scope.
Local Open Scope string_scope.

(** ** Code units and character classes *)

Definition chr (c : ascii) : string := String c EmptyString.

Definition NL : string := chr "010".
Definition CR : string := chr "013".
Definition TAB : string := chr "009".
Definition NUL : string := chr "000".
Definition DQ : string := chr "034".
Definition BACKSLASH : string := chr "092".

Definition code (c : ascii) : nat := nat_of_ascii c.

Definition between (lo hi : nat) (c : ascii) : bool :=
  (lo <=? code c)%nat && (code c <=? hi)%nat.

Definition isDigit (c : ascii) : bool := between 48 57 c.
Definition isUpper (c : ascii) : bool := between 65 90 c.
Definition isLower (c : ascii) : bool := between 97 122 c.

(** The class [[0-9a-f-]] of the marker pattern. *)
Definition isHexDash (c : ascii) : bool :=
  isDigit c || between 97 102 c || Ascii.eqb c "-".

(** The class [[\w_]]. *)
Definition isWord (c : ascii) : bool :=
  isDigit c || isUpper c || isLower c || Ascii.eqb c "_".

(** [\s], and what [trim] removes: among the code units below 256, the
    codes 9 to 13, the space and the no-break space. *)
Definition isSpace (c : ascii) : bool :=
  between 9 13 c || Ascii.eqb c " " || Ascii.eqb c "160".

(** What [.] refuses and what [^] and [$] look at under the [m] flag. *)
Definition isLineTerminator (c : ascii) : bool :=
  Ascii.eqb c "010" || Ascii.eqb c "013".

(** The letters of Latin-1 beyond ASCII: capitals at 192 to 222 and small
    letters at 224 to 254, the signs at 215 and 247 apart. *)
Definition isUpperLatin1 (c : ascii) : bool :=
  between 192 214 c || between 216 222 c.
Definition isLowerLatin1 (c : ascii) : bool :=
  between 224 246 c || between 248 254 c.

Definition toLowerChar (c : ascii) : ascii :=
  if isUpper c || isUpperLatin1 c then ascii_of_nat (code c + 32) else c.

(** How the [i] flag of a pattern compares code units: by their capital
    when it is one code unit.  The sharp s (code 223) has a capital of two
    letters and stands for itself; so do the codes 181 and 255, whose
    capitals lie beyond code 255 and are the capital of no other code unit
    below 256. *)
Definition toUpperChar (c : ascii) : ascii :=
  if isLower c || isLowerLatin1 c then ascii_of_nat (code c - 32) else c.

Fixpoint mapChars (f : ascii -> ascii) (s : string) : string :=
  match s with
  | EmptyString => EmptyString
  | String c s' => String (f c) (mapChars f s')
  end.

(** [s.toLowerCase()]. *)
Definition toLowerCase : string -> string := mapChars toLowerChar.

(** [s.toUpperCase()]: the sharp s becomes the two letters [SS].  The
    capitals of the codes 181 and 255 lie beyond code 255; these two code
    units are left as they are, which the service cannot tell apart: it
    compares an upper-cased key with names made of ASCII letters only. *)
Fixpoint toUpperCase (s : string) : string :=
  match s with
  | EmptyString => EmptyString
  | String c s' =>
      if Ascii.eqb c "223" then String "S" (String "S" (toUpperCase s'))
      else String (toUpperChar c) (toUpperCase s')
  end.

(** ** String operations of the language *)

Definition len (s : string) : Z := Z.of_nat (String.length s).

Fixpoint drop (n : nat) (s : string) : string :=
  match n, s with
  | O, _ => s
  | S _, EmptyString => EmptyString
  | S n', String _ s' => drop n' s'
  end.

Fixpoint take (n : nat) (s : string) : string :=
  match n, s with
  | O, _ => EmptyString
  | S _, EmptyString => EmptyString
  | S n', String c s' => String c (take n' s')
  end.

(** [s.startsWith(p)]. *)
Fixpoint startsWith (s p : string) {struct p} : bool :=
  match p with
  | EmptyString => true
  | String a p' =>
      match s with
      | EmptyString => false
      | String b s' => Ascii.eqb a b && startsWith s' p'
      end
  end.

(** The same, letters compared without case (the [i] flag on a literal). *)
Fixpoint startsWithCI (s p : string) {struct p} : bool :=
  match p with
  | EmptyString => true
  | String a p' =>
      match s with
      | EmptyString => false
      | String b s' =>
          Ascii.eqb (toUpperChar a) (toUpperChar b) && startsWithCI s' p'
      end
  end.

Fixpoint indexOf_nat (s p : string) : option nat :=
  if startsWith s p then Some O
  else match s with
       | EmptyString => None
       | String _ s' => option_map S (indexOf_nat s' p)
       end.

(** [s.indexOf(p)]: the first position, or [-1]. *)
Definition indexOf (s p : string) : Z :=
  match indexOf_nat s p with
  | Some n => Z.of_nat n
  | None => -1
  end.

(** [s.includes(p)]. *)
Definition includes (s p : string) : bool :=
  match indexOf_nat s p with
  | Some _ => true
  | None => false
  end.

Definition clamp (s : string) (i : Z) : nat :=
  Z.to_nat (Z.min (Z.max i 0) (len s)).

(** [s.substring(a, b)]: both ends are clamped to the string and swapped
    when they come in the wrong order. *)
Definition substring (s : string) (a b : Z) : string :=
  let a' := clamp s a in
  let b' := clamp s b in
  take (Nat.max a' b' - Nat.min a' b') (drop (Nat.min a' b') s).

Fixpoint trimStart (s : string) : string :=
  match s with
  | EmptyString => EmptyString
  | String c s' => if isSpace c then trimStart s' else s
  end.

Fixpoint trimEnd (s : string) : string :=
  match s with
  | EmptyString => EmptyString
  | String c s' =>
      let t := trimEnd s' in
      if isSpace c && (t =? EmptyString)%string then EmptyString else String c t
  end.

Definition trim (s : string) : string := trimEnd (trimStart s).

(** A string is truthy when it is not empty. *)
Definition truthy (s : string) : bool :=
  negb (s =? EmptyString)%string.

(** [s.replace(/c/g, r)] for a one-character pattern [c] and a replacement [r]
    written in the source as a literal without [$]. *)
Fixpoint replaceChar (c : ascii) (r : string) (s : string) : string :=
  match s with
  | EmptyString => EmptyString
  | String d s' =>
      if Ascii.eqb d c then r ++ replaceChar c r s'
      else String d (replaceChar c r s')
  end.

(** [s.split(',')] on a one-character separator. *)
Fixpoint split (sep : ascii) (s : string) : list string :=
  match s with
  | EmptyString => [EmptyString]
  | String c s' =>
      if Ascii.eqb c sep then EmptyString :: split sep s'
      else match split sep s' with
           | [] => [chr c]
           | w :: ws => String c w :: ws
           end
  end.

(** ** Regular expressions of the source

    Each pattern of the source is embedded as a [matcher]: given the rest of
    the subject from some position, the length of the match that starts
    there.  None of the patterns can match the empty string. *)

Definition matcher : Type := string -> option nat.

Definition litCI (p : string) : matcher :=
  fun s => if startsWithCI s p then Some (String.length p) else None.

Definition oneChar (c : ascii) : matcher :=
  fun s => match s with
           | String d _ => if Ascii.eqb d c then Some 1%nat else None
           | EmptyString => None
           end.

(** The length of the longest run of characters of a class at the head. *)
Fixpoint run (cls : ascii -> bool) (s : string) : nat :=
  match s with
  | EmptyString => O
  | String c s' => if cls c then S (run cls s') else O
  end.

(** [\s+]. *)
Definition spaces : matcher :=
  fun s => match run isSpace s with O => None | n => Some n end.

(** A fixed prefix, a non-empty greedy run of a class, a fixed suffix whose
    first character is outside the class: the run is the longest one. *)
Definition bracketed (ci : bool) (pre : string) (cls : ascii -> bool)
    (post : string) : matcher :=
  fun s =>
    if (if ci then startsWithCI s pre else startsWith s pre) then
      let r := drop (String.length pre) s in
      match run cls r with
      | O => None
      | n =>
          if startsWith (drop n r) post
          then Some (String.length pre + n + String.length post)%nat
          else None
      end
    else None.

(** The first match at or after the head: its position and its length. *)
Fixpoint findFirst (m : matcher) (s : string) : option (nat * nat) :=
  match m s with
  | Some n => Some (O, n)
  | None =>
      match s with
      | EmptyString => None
      | String _ s' =>
          match findFirst m s' with
          | Some (i, n) => Some (S i, n)
          | None => None
          end
      end
  end.

(** [re.exec(s)] for a global pattern whose [lastIndex] is [from]. *)
Definition execFrom (m : matcher) (s : string) (from : nat)
    : option (nat * nat) :=
  if (String.length s <? from)%nat then None
  else match findFirst m (drop from s) with
       | Some (i, n) => Some ((from + i)%nat, n)
       | None => None
       end.

(** The replacement text of [String.prototype.replace] for a pattern without
    capture groups: [$$], [$&], [$`] and [$'] are expanded, every other [$]
    stands for itself. *)
Fixpoint getSubstitution (matched before after repl : string) : string :=
  match repl with
  | EmptyString => EmptyString
  | String c t =>
      if Ascii.eqb c "$" then
        match t with
        | String d t' =>
            if Ascii.eqb d "$" then
              String "$" (getSubstitution matched before after t')
            else if Ascii.eqb d "&" then
              matched ++ getSubstitution matched before after t'
            else if Ascii.eqb d "`" then
              before ++ getSubstitution matched before after t'
            else if Ascii.eqb d "'" then
              after ++ getSubstitution matched before after t'
            else String c (getSubstitution matched before after t)
        | EmptyString => chr c
        end
      else String c (getSubstitution matched before after t)
  end.

(** [s.replace(re, repl)] for a global pattern: matches are found from left
    to right without overlap; [skip] counts the characters of the current
    match still to pass, [pre] is the subject read so far. *)
Fixpoint replaceAll_go (m : matcher) (repl : string) (skip : nat)
    (pre : string) (s : string) : string :=
  match s with
  | EmptyString => EmptyString
  | String c s' =>
      match skip with
      | S k => replaceAll_go m repl k (pre ++ chr c) s'
      | O =>
          match m s with
          | Some (S n) =>
              getSubstitution (take (S n) s) pre (drop (S n) s) repl
              ++ replaceAll_go m repl n (pre ++ chr c) s'
          | _ => String c (replaceAll_go m repl O (pre ++ chr c) s')
          end
      end
  end.

Definition replaceAll (m : matcher) (repl : string) (s : string) : string :=
  replaceAll_go m repl O EmptyString s.

(** ** Maps of the language

    A [Map] keeps its keys in the order of their first insertion; [set] on a
    present key replaces the value in place. *)

Definition JsMap (V : Type) : Type := list (string * V).

Fixpoint map_set {V : Type} (k : string) (v : V) (m : JsMap V) : JsMap V :=
  match m with
  | [] => [(k, v)]
  | (k', v') :: m' =>
      if (k' =? k)%string then (k, v) :: m' else (k', v') :: map_set k v m'
  end.

Fixpoint map_get {V : Type} (k : string) (m : JsMap V) : option V :=
  match m with
  | [] => None
  | (k', v') :: m' => if (k' =? k)%string then Some v' else map_get k m'
  end.

Definition map_has {V : Type} (k : string) (m : JsMap V) : bool :=
  match map_get k m with
  | Some _ => true
  | None => false
  end.

Fixpoint map_delete {V : Type} (k : string) (m : JsMap V) : JsMap V :=
  match m with
  | [] => []
  | (k', v') :: m' =>
      if (k' =? k)%string then m' else (k', v') :: map_delete k m'
  end.

(** ** The data model ([ListyTypes.ts]) *)

Record ListyAttribute : Type := mkAttribute {
  attr_key : string;
  attr_value : string
}.

Record ListyItem : Type := mkItem {
  item_title : string;
  item_type : string;
  item_url : option string;
  item_dateAdded : string;
  item_marked : bool;
  item_attributes : option (list ListyAttribute)
}.

Record ListyList : Type := mkList {
  list_icon : string;
  list_title : string;
  list_type : string;
  list_create : string;
  list_update : string;
  list_items : option (list ListyItem);
  list_customOrderIndex : Z;
  list_needFetchAfterImport : bool
}.

(** The [lists] member of the parsed JSON before it is known to be an
    array: absent, some other value (of the given truthiness), or an array. *)
Inductive ListsField : Type :=
  | ListsMissing
  | ListsNotArray (isTruthy : bool)
  | ListsArray (ls : list ListyList).

Record ListyData : Type := mkData { lists : ListsField }.

(** ** Configuration ([Settings.ts]) *)

Record ListyImporterSettings : Type := mkSettings {
  mySetting : string;
  outputFolder : string;
  consolidateToDoLists : bool;
  includeTags : bool;
  tagReplacement : option string;
  enableNoteLocking : bool;
  templateFile : string;
  maxTitleLength : Z
}.

Definition DEFAULT_SETTINGS : ListyImporterSettings := {|
  mySetting := "default";
  outputFolder := "Listy";
  consolidateToDoLists := true;
  includeTags := false;
  tagReplacement := Some EmptyString;
  enableNoteLocking := false;
  templateFile := EmptyString;
  maxTitleLength := 105
|}.

(** ** The world: vault and identifier source *)

Record World : Type := mkWorld {
  files : list (string * string);
  folders : list string;
  entropy : nat -> string;
  minted : nat
}.

Inductive Outcome (A : Type) : Type :=
  | Ok (a : A)
  | Throw (msg : string)
  | OutOfFuel.
Arguments Ok {A} a.
Arguments Throw {A} msg.
Arguments OutOfFuel {A}.

Definition M (A : Type) : Type := World -> Outcome A * World.

Definition ret {A : Type} (a : A) : M A := fun w => (Ok a, w).

Definition bind {A B : Type} (c : M A) (k : A -> M B) : M B :=
  fun w =>
    match c w with
    | (Ok a, w') => k a w'
    | (Throw msg, w') => (Throw msg, w')
    | (OutOfFuel, w') => (OutOfFuel, w')
    end.

Definition throw {A : Type} (msg : string) : M A := fun w => (Throw msg, w).

Definition get_world : M World := fun w => (Ok w, w).

Notation "x <- c ;; k" := (bind c (fun x => k))
  (at level 61, c at next level, right associativity).
Notation "c ;;; k" := (bind c (fun _ => k))
  (at level 61, right associativity).

(** A [for ... of] loop that carries an accumulator. *)
Fixpoint forEach {A B : Type} (f : B -> A -> M B) (l : list A) (b : B)
    : M B :=
  match l with
  | [] => ret b
  | x :: l' => b' <- f b x ;; forEach f l' b'
  end.

(** The host interface the service is given: the settings object, and the
    two host functions whose code is not part of the plugin:
    [normalizePath], and [metadataCache.getFirstLinkpathDest], which resolves
    a link path among the files of the vault. *)
Record Env : Type := mkEnv {
  settings : ListyImporterSettings;
  normalizePath : string -> string;
  getFirstLinkpathDest : list (string * string) -> string -> option string
}.

Definition pathExists (w : World) (path : string) : bool :=
  existsb (String.eqb path) (folders w)
  || existsb (fun f => String.eqb path (fst f)) (files w).

(** [adapter.exists]. *)
Definition adapter_exists (path : string) : M bool :=
  fun w => (Ok (pathExists w path), w).

(** [vault.createFolder]: the host refuses a path that is already there. *)
Definition createFolder (path : string) : M unit :=
  fun w =>
    if pathExists w path then (Throw "Folder already exists.", w)
    else (Ok tt, {| files := files w; folders := path :: folders w;
                    entropy := entropy w; minted := minted w |}).

(** [adapter.read]: [None] stands for the rejection the callers catch. *)
Definition adapter_read (w : World) (path : string) : option string :=
  map_get path (files w).

(** [adapter.write]: creates the file or replaces its content. *)
Definition adapter_write (path content : string) : M unit :=
  fun w => (Ok tt, {| files := map_set path content (files w);
                      folders := folders w;
                      entropy := entropy w; minted := minted w |}).

(** [uuidv4()]: the next value of the identifier source. *)
Definition uuidv4 : M string :=
  fun w => (Ok (entropy w (minted w)),
            {| files := files w; folders := folders w;
               entropy := entropy w; minted := S (minted w) |}).

(** ** Templates ([templateUtils.ts]) *)

Definition DEFAULT_TEMPLATE : string :=
  "# {{Title}}" ++ NL ++ NL ++
  "[Visit Original Source]({{URL}})" ++ NL ++ NL ++
  "## Description" ++ NL ++ NL ++
  "{{Description}}" ++ NL ++ NL ++
  "![Cover Image]({{Cover}})" ++ NL ++ NL ++
  "## Notes" ++ NL ++ NL ++
  "{{UserNote}}".

Definition getTemplateContents (env : Env) (templatePath : string)
    (w : World) : string :=
  if negb (truthy templatePath) || (trim templatePath =? EmptyString)%string
  then DEFAULT_TEMPLATE
  else
    match getFirstLinkpathDest env (files w) (normalizePath env templatePath)
    with
    | Some templateFile' =>
        match adapter_read w templateFile' with
        | Some content => content
        | None => DEFAULT_TEMPLATE
        end
    | None => DEFAULT_TEMPLATE
    end.

(** [attributes.find(attr => attr.key.toUpperCase() === name)]. *)
Definition findAttr (name : string) (attrs : list ListyAttribute)
    : option ListyAttribute :=
  find (fun a => (toUpperCase (attr_key a) =? name)%string) attrs.

Definition valueOrEmpty (a : option ListyAttribute) : string :=
  match a with
  | Some a' => attr_value a'
  | None => EmptyString
  end.

Definition orEmpty (s : option string) : string :=
  match s with
  | Some s' => s'
  | None => EmptyString
  end.

(** The pattern [/{{ATTR:([\w_]+)}}/gi]. *)
Definition attrRegex : matcher := bracketed true "{{ATTR:" isWord "}}".

(** The [while ((match = attrRegex.exec(result)) !== null)] loop.  The
    pattern object keeps its [lastIndex] across the iterations while [result]
    is replaced under it. *)
Fixpoint attrLoop (fuel : nat) (attrs : list ListyAttribute)
    (result : string) (lastIndex : nat) : option string :=
  match fuel with
  | O => None
  | S fuel' =>
      match execFrom attrRegex result lastIndex with
      | None => Some result
      | Some (idx, n) =>
          let group1 := take (n - 9) (drop (idx + 7) result) in
          let attrKey := toUpperCase group1 in
          let attr := findAttr attrKey attrs in
          let result' :=
            replaceAll (litCI ("{{ATTR:" ++ group1 ++ "}}"))
                       (valueOrEmpty attr) result in
          attrLoop fuel' attrs result' (idx + n)
      end
  end.

Definition applyTemplateTransformations (fuel : nat) (rawTemplate : string)
    (item : ListyItem) (list : ListyList) : option string :=
  let result :=
    replaceAll (litCI "{{Update}}") (list_update list)
    (replaceAll (litCI "{{Create}}") (list_create list)
    (replaceAll (litCI "{{ListType}}") (list_type list)
    (replaceAll (litCI "{{ListTitle}}") (list_title list)
    (replaceAll (litCI "{{DateAdded}}") (item_dateAdded item)
    (replaceAll (litCI "{{Type}}") (item_type item)
    (replaceAll (litCI "{{URL}}") (orEmpty (item_url item))
    (replaceAll (litCI "{{Title}}") (item_title item) rawTemplate))))))) in
  match item_attributes item with
  | Some (a :: attrs') =>
      let attrs := a :: attrs' in
      let result :=
        replaceAll (litCI "{{Description}}")
                   (valueOrEmpty (findAttr "DESCRIPTION" attrs)) result in
      let result :=
        replaceAll (litCI "{{Cover}}")
                   (valueOrEmpty (findAttr "COVER" attrs)) result in
      let result :=
        replaceAll (litCI "{{UserNote}}")
                   (valueOrEmpty (findAttr "USER_NOTE" attrs)) result in
      let result :=
        replaceAll (litCI "{{Author}}")
                   (valueOrEmpty (findAttr "AUTHOR" attrs)) result in
      let result :=
        replaceAll (litCI "{{Genre}}")
                   (valueOrEmpty (findAttr "GENRE" attrs)) result in
      let result :=
        replaceAll (litCI "{{Rating}}")
                   (valueOrEmpty (findAttr "RATING" attrs)) result in
      let result :=
        replaceAll (litCI "{{Date}}")
                   (valueOrEmpty (findAttr "DATE" attrs)) result in
      let result :=
        replaceAll (litCI "{{Price}}")
                   (valueOrEmpty (findAttr "PRICE" attrs)) result in
      match attrLoop fuel attrs result O with
      | Some result => Some (trim result)
      | None => None
      end
  | _ =>
      let result :=
        replaceAll (litCI "{{Price}}") EmptyString
        (replaceAll (litCI "{{Date}}") EmptyString
        (replaceAll (litCI "{{Rating}}") EmptyString
        (replaceAll (litCI "{{Genre}}") EmptyString
        (replaceAll (litCI "{{Author}}") EmptyString
        (replaceAll (litCI "{{UserNote}}") EmptyString
        (replaceAll (litCI "{{Cover}}") EmptyString
        (replaceAll (litCI "{{Description}}") EmptyString result))))))) in
      let result := replaceAll attrRegex EmptyString result in
      Some (trim result)
  end.

(** ** The import service ([ListyImportService.ts]) *)

Notation "x |> f" := (f x) (at level 50, left associativity, only parsing).

Definition USER_COMMENT_PLACEHOLDER : string :=
  "%% Here you can type whatever you want, it will not be overwritten by the plugin. %%".

Definition boolText (b : bool) : string := if b then "true" else "false".

Definition outOfFuel {A : Type} : M A := fun w => (OutOfFuel, w).

(** [processDescription]: every [#] is replaced by the configured text. *)
Definition processDescription (env : Env) (description : string) : string :=
  match tagReplacement (settings env) with
  | Some replacement => replaceAll (oneChar "#") replacement description
  | None => description
  end.

Definition escapeYamlString (str : string) : string :=
  str
  |> replaceChar "\" (BACKSLASH ++ BACKSLASH)
  |> replaceChar "034" (BACKSLASH ++ DQ)
  |> replaceChar "010" (BACKSLASH ++ "n")
  |> replaceChar "013" (BACKSLASH ++ "r")
  |> replaceChar "009" (BACKSLASH ++ "t").

Definition sanitizeFileName (env : Env) (fileName : string) : string :=
  let sanitized :=
    fileName
    |> replaceChar "/" "-"
    |> replaceChar "\" "-"
    |> replaceChar ":" "-"
    |> replaceChar "*" "-"
    |> replaceChar "?" "-"
    |> replaceChar "034" "'"
    |> replaceChar "<" "-"
    |> replaceChar ">" "-"
    |> replaceChar "|" "-"
    |> replaceChar "=" "-"
    |> replaceChar "000" EmptyString
    |> replaceChar "#" EmptyString
    |> trim in
  let sanitized :=
    if startsWith sanitized "." then "_" ++ sanitized else sanitized in
  let maxLength := maxTitleLength (settings env) in
  if (maxLength <? len sanitized)%Z
  then substring sanitized 0 (maxLength - 3) ++ "..."
  else sanitized.

(** A value as a block literal: every line break is followed by two
    spaces. *)
Definition indentLines (value : string) : string :=
  replaceChar "010" (NL ++ "  ") value.

Definition quoted (value : string) : string :=
  DQ ++ escapeYamlString value ++ DQ.

(** The [tags] list of the front matter: pieces between commas, trimmed,
    inner white space joined by a hyphen, empty pieces dropped. *)
Definition tagList (tagsString : string) : list string :=
  filter (fun tag => (0 <? len tag)%Z)
    (map (fun tag => replaceAll spaces "-" tag)
      (map trim (split "," tagsString))).

Definition knownQuoted (name : string) (st : string * JsMap string)
    : string * JsMap string :=
  let '(frontmatter, attributesMap) := st in
  if map_has name attributesMap
  then (frontmatter ++ name ++ ": "
          ++ quoted (orEmpty (map_get name attributesMap)) ++ NL,
        map_delete name attributesMap)
  else st.

Definition generateFrontmatter (env : Env) (item : ListyItem)
    (list : ListyList) : string :=
  let frontmatter := "---" ++ NL in
  let frontmatter := frontmatter ++ "source: listy" ++ NL in
  let frontmatter :=
    frontmatter ++ "list: " ++ quoted (list_title list) ++ NL in
  let frontmatter :=
    frontmatter ++ "dateAdded: " ++ item_dateAdded item ++ NL in
  let frontmatter :=
    match item_url item with
    | Some u =>
        if truthy u then frontmatter ++ "url: " ++ quoted u ++ NL
        else frontmatter
    | None => frontmatter
    end in
  let frontmatter :=
    frontmatter ++ "type: " ++ toLowerCase (item_type item) ++ NL in
  let frontmatter :=
    match item_attributes item with
    | Some (a :: attrs') =>
        let attributesMap :=
          fold_left
            (fun m attr => map_set (toLowerCase (attr_key attr))
                                   (attr_value attr) m)
            (a :: attrs') [] in
        let '(frontmatter, attributesMap) :=
          if map_has "description" attributesMap then
            let processedDesc :=
              processDescription env
                (orEmpty (map_get "description" attributesMap)) in
            (frontmatter ++ "description: |" ++ NL ++ "  "
               ++ indentLines processedDesc ++ NL,
             map_delete "description" attributesMap)
          else (frontmatter, attributesMap) in
        let st := knownQuoted "author" (frontmatter, attributesMap) in
        let '(frontmatter, attributesMap) := knownQuoted "cover" st in
        let '(frontmatter, attributesMap) :=
          if map_has "tags" attributesMap then
            let frontmatter :=
              if includeTags (settings env) then
                let tagsString := orEmpty (map_get "tags" attributesMap) in
                match tagList tagsString with
                | [] => frontmatter
                | tags =>
                    fold_left
                      (fun fm tag => fm ++ "  - " ++ quoted tag ++ NL)
                      tags (frontmatter ++ "tags:" ++ NL)
                end
              else frontmatter in
            (frontmatter ++ "original_tags: "
               ++ quoted (orEmpty (map_get "tags" attributesMap)) ++ NL,
             map_delete "tags" attributesMap)
          else (frontmatter, attributesMap) in
        let '(frontmatter, attributesMap) :=
          knownQuoted "icon" (frontmatter, attributesMap) in
        fold_left
          (fun fm kv =>
             let '(key, value) := kv in
             if includes value NL || (80 <? len value)%Z
             then fm ++ key ++ ": |" ++ NL ++ "  " ++ indentLines value ++ NL
             else fm ++ key ++ ": " ++ quoted value ++ NL)
          attributesMap frontmatter
    | _ => frontmatter
    end in
  let frontmatter :=
    frontmatter ++ "marked: " ++ boolText (item_marked item) ++ NL in
  let frontmatter :=
    if enableNoteLocking (settings env)
    then frontmatter ++ "lock: false" ++ NL
    else frontmatter in
  frontmatter ++ "---" ++ NL ++ NL.

Definition withTitle (item : ListyItem) (t : string) : ListyItem :=
  {| item_title := t; item_type := item_type item; item_url := item_url item;
     item_dateAdded := item_dateAdded item; item_marked := item_marked item;
     item_attributes := item_attributes item |}.

Definition withAttributes (item : ListyItem)
    (attrs : option (list ListyAttribute)) : ListyItem :=
  {| item_title := item_title item; item_type := item_type item;
     item_url := item_url item; item_dateAdded := item_dateAdded item;
     item_marked := item_marked item; item_attributes := attrs |}.

(** The loop of [generateItemContent] that rewrites the [description]
    values.  The copy made with [{ ...item }] shares the attribute objects
    with the caller's item, so the caller's item is rewritten too. *)
Definition rewriteDescriptions (env : Env) (attrs : list ListyAttribute)
    : list ListyAttribute :=
  map (fun attr =>
         if (toLowerCase (attr_key attr) =? "description")%string
         then {| attr_key := attr_key attr;
                 attr_value := processDescription env (attr_value attr) |}
         else attr)
      attrs.

(** [generateItemContent]: the body, and the caller's item as the call
    leaves it. *)
Definition generateItemContent (env : Env) (fuel : nat) (item : ListyItem)
    (list : ListyList) : M (string * ListyItem) :=
  w <- get_world ;;
  let templateContent :=
    getTemplateContents env (templateFile (settings env)) w in
  let maxLength := maxTitleLength (settings env) in
  let sanitizedTitle :=
    substring (sanitizeFileName env (item_title item)) 0 maxLength in
  let sanitizedTitle :=
    if (len sanitizedTitle =? maxLength)%Z
    then substring sanitizedTitle 0 (maxLength - 3) ++ "..."
    else sanitizedTitle in
  let item' :=
    withAttributes item
      (option_map (rewriteDescriptions env) (item_attributes item)) in
  let sanitizedItem := withTitle item' sanitizedTitle in
  match applyTemplateTransformations fuel templateContent sanitizedItem list
  with
  | Some content => ret (content, item')
  | None => outOfFuel
  end.

Definition startBlockMarker (itemId : string) : string :=
  "%%START-" ++ itemId ++ "%%".
Definition endBlockMarker (itemId : string) : string :=
  "%%END-" ++ itemId ++ "%%".
Definition startContentMarker (itemId : string) : string :=
  "%%START-EXTRACTED-CONTENT-" ++ itemId ++ "%%".
Definition endContentMarker (itemId : string) : string :=
  "%%END-EXTRACTED-CONTENT-" ++ itemId ++ "%%".

(** The pattern [/%%START-([0-9a-f-]+)%%/]. *)
Definition startPattern : matcher := bracketed false "%%START-" isHexDash "%%".

Definition extractItemId (content : string) : option string :=
  match findFirst startPattern content with
  | Some (i, n) =>
      let group1 := take (n - 10) (drop (i + 8) content) in
      if truthy group1 then Some group1 else None
  | None => None
  end.

(** The part of [generateNoteContent] after its [if (existingContent)]
    block: what the function does when it is given [null], and what it falls
    through to when no identifier is found. *)
Definition generateNoteContent_new (env : Env) (fuel : nat)
    (item : ListyItem) (list : ListyList) : M (string * ListyItem) :=
  itemId <- uuidv4 ;;
  let frontmatter := generateFrontmatter env item list in
  r <- generateItemContent env fuel item list ;;
  let '(noteContent, item') := r in
  let result := frontmatter in
  let result := result ++ "%%START-" ++ itemId ++ "%%" ++ NL ++ NL in
  let result := result ++ USER_COMMENT_PLACEHOLDER ++ NL ++ NL in
  let result :=
    result ++ "%%START-EXTRACTED-CONTENT-" ++ itemId ++ "%%" ++ NL ++ NL in
  let result := result ++ noteContent in
  let result :=
    result ++ NL ++ NL ++ "%%END-EXTRACTED-CONTENT-" ++ itemId ++ "%%"
           ++ NL ++ NL in
  let result := result ++ USER_COMMENT_PLACEHOLDER ++ NL ++ NL in
  let result := result ++ "%%END-" ++ itemId ++ "%%" ++ NL in
  ret (result, item').

Definition updateExistingNote (env : Env) (fuel : nat) (item : ListyItem)
    (list : ListyList) (existingContent itemId : string)
    : M (string * ListyItem) :=
  let startBlockMarker := startBlockMarker itemId in
  let endBlockMarker := endBlockMarker itemId in
  let startContentMarker := startContentMarker itemId in
  let endContentMarker := endContentMarker itemId in
  if negb (includes existingContent startBlockMarker)
     || negb (includes existingContent endBlockMarker)
     || negb (includes existingContent startContentMarker)
     || negb (includes existingContent endContentMarker)
  then generateNoteContent_new env fuel item list
  else
    let frontmatter := generateFrontmatter env item list in
    r <- generateItemContent env fuel item list ;;
    let '(newItemContent, item') := r in
    let startContentIndex := indexOf existingContent startContentMarker in
    let endContentIndex := indexOf existingContent endContentMarker in
    if (startContentIndex =? -1)%Z || (endContentIndex =? -1)%Z
    then generateNoteContent_new env fuel item' list
    else
      let blockStartIndex := indexOf existingContent startBlockMarker in
      let blockEndIndex :=
        indexOf existingContent endBlockMarker + len endBlockMarker in
      let beforeContent :=
        substring existingContent
          (blockStartIndex + len startBlockMarker) startContentIndex in
      let afterContent :=
        substring existingContent
          (endContentIndex + len endContentMarker)
          (blockEndIndex - len endBlockMarker) in
      let result := frontmatter in
      let result :=
        result ++ startBlockMarker ++ beforeContent ++ startContentMarker
               ++ NL ++ NL in
      let result := result ++ newItemContent in
      let result :=
        result ++ NL ++ NL ++ endContentMarker ++ afterContent
               ++ endBlockMarker ++ NL in
      ret (result, item').

Definition generateNoteContent (env : Env) (fuel : nat) (item : ListyItem)
    (list : ListyList) (existingContent : option string)
    : M (string * ListyItem) :=
  match existingContent with
  | Some content =>
      if truthy content then
        match extractItemId content with
        | Some itemId => updateExistingNote env fuel item list content itemId
        | None => generateNoteContent_new env fuel item list
        end
      else generateNoteContent_new env fuel item list
  | None => generateNoteContent_new env fuel item list
  end.

(** The pattern [/^lock:\s*true/m], tried at the head of [s]. *)
Definition lockAt (s : string) : bool :=
  startsWith s "lock:"
  && let r := drop 5 s in startsWith (drop (run isSpace r) r) "true".

Fixpoint lockScan (lineStart : bool) (s : string) : bool :=
  (lineStart && lockAt s)
  || match s with
     | EmptyString => false
     | String c s' => lockScan (isLineTerminator c) s'
     end.

(** [existingContent.match(/^lock:\s*true/m)] as a truth value. *)
Definition lockMatch (content : string) : bool := lockScan true content.

(** The pattern [/- \[([ x])\] (.*?)$/gm] tried at the head of [s]: the
    check mark and the title, which runs to the end of the line. *)
Definition taskAt (s : string) : option (bool * string) :=
  if startsWith s "- [" then
    match drop 3 s with
    | String c r =>
        if (Ascii.eqb c " " || Ascii.eqb c "x") && startsWith r "] " then
          let rest := drop 2 r in
          Some (Ascii.eqb c "x",
                take (run (fun d => negb (isLineTerminator d)) rest) rest)
        else None
    | EmptyString => None
    end
  else None.

(** The successive results of [taskRegex.exec]; [skip] counts what is left
    of the current match. *)
Fixpoint taskScan (skip : nat) (s : string) : list (string * bool) :=
  match s with
  | EmptyString => []
  | String _ s' =>
      match skip with
      | S k => taskScan k s'
      | O =>
          match taskAt s with
          | Some (isChecked, taskName) =>
              (taskName, isChecked)
                :: taskScan (5 + String.length taskName) s'
          | None => taskScan O s'
          end
      end
  end.

Definition parseExistingTasks (existingContent : string) : JsMap bool :=
  fold_left (fun m t => map_set (fst t) (snd t) m)
            (taskScan O existingContent) [].

Definition isCompleted (existingTasks : JsMap bool) (item : ListyItem)
    : bool :=
  item_marked item
  || (map_has (item_title item) existingTasks
      && match map_get (item_title item) existingTasks with
         | Some b => b
         | None => false
         end).

Definition taskLine (existingTasks : JsMap bool) (item : ListyItem)
    : string :=
  "- [" ++ (if isCompleted existingTasks item then "x" else " ") ++ "] "
        ++ item_title item ++ NL.

(** How a template literal prints an identifier that may be [null]. *)
Definition idText (listId : option string) : string :=
  match listId with
  | Some s => s
  | None => "null"
  end.

Definition consolidatedContent (list : ListyList)
    (items : Datatypes.list ListyItem)
    (existingTasks : JsMap bool) (listId : option string) : string :=
  let content := "---" ++ NL in
  let content := content ++ "source: listy" ++ NL in
  let content := content ++ "type: todo" ++ NL in
  let content := content ++ "list: " ++ quoted (list_title list) ++ NL in
  let content := content ++ "create: " ++ list_create list ++ NL in
  let content := content ++ "update: " ++ list_update list ++ NL in
  let content := content ++ "---" ++ NL ++ NL in
  let content := content ++ "# " ++ list_title list ++ NL ++ NL in
  let content :=
    content ++ "%%START-" ++ idText listId ++ "%%" ++ NL ++ NL in
  let content := content ++ USER_COMMENT_PLACEHOLDER ++ NL ++ NL in
  let content :=
    content ++ "%%START-EXTRACTED-CONTENT-" ++ idText listId ++ "%%"
            ++ NL ++ NL in
  let content :=
    fold_left (fun content item => content ++ taskLine existingTasks item)
              items content in
  let content :=
    content ++ NL ++ "%%END-EXTRACTED-CONTENT-" ++ idText listId ++ "%%"
            ++ NL ++ NL in
  let content := content ++ USER_COMMENT_PLACEHOLDER ++ NL ++ NL in
  content ++ "%%END-" ++ idText listId ++ "%%" ++ NL.

Definition createConsolidatedToDoList (env : Env) (list : ListyList)
    (folderPath : string) : M unit :=
  let listPath :=
    normalizePath env
      (folderPath ++ "/" ++ sanitizeFileName env (list_title list) ++ ".md") in
  w <- get_world ;;
  let existingContent := adapter_read w listPath in
  let locked :=
    match existingContent with
    | Some content =>
        enableNoteLocking (settings env) && truthy content
        && lockMatch content
    | None => false
    end in
  if locked then ret tt
  else
    let existingTasks :=
      match existingContent with
      | Some content => parseExistingTasks content
      | None => []
      end in
    listId <-
      match existingContent with
      | Some content =>
          if truthy content then ret (extractItemId content)
          else (u <- uuidv4 ;; ret (Some u))
      | None => u <- uuidv4 ;; ret (Some u)
      end ;;
    match list_items list with
    | Some items =>
        adapter_write listPath
          (consolidatedContent list items existingTasks listId)
    | None => throw "TypeError: list.items is not iterable"
    end.

(** The body of the loop over the items of a list. *)
Definition processItem (env : Env) (fuel : nat) (list : ListyList)
    (listFolderPath : string) (totalNotesCreated : Z) (item : ListyItem)
    : M Z :=
  let sanitizedItemTitle := sanitizeFileName env (item_title item) in
  let notePath :=
    normalizePath env
      (listFolderPath ++ "/" ++ sanitizedItemTitle ++ ".md") in
  w <- get_world ;;
  let existingContent := adapter_read w notePath in
  let locked :=
    match existingContent with
    | Some content =>
        enableNoteLocking (settings env) && truthy content
        && lockMatch content
    | None => false
    end in
  if locked then ret totalNotesCreated
  else
    r <- generateNoteContent env fuel item list existingContent ;;
    adapter_write notePath (fst r) ;;;
    ret (totalNotesCreated + 1).

(** The body of the loop over the lists. *)
Definition processList (env : Env) (fuel : nat) (totalNotesCreated : Z)
    (list : ListyList) : M Z :=
  match list_items list with
  | None => ret totalNotesCreated
  | Some [] => ret totalNotesCreated
  | Some items =>
      let isToDoList := (list_type list =? "Tasks")%string in
      let shouldConsolidate :=
        isToDoList && consolidateToDoLists (settings env) in
      if shouldConsolidate then
        createConsolidatedToDoList env list (outputFolder (settings env)) ;;;
        ret (totalNotesCreated + 1)
      else
        let sanitizedListTitle := sanitizeFileName env (list_title list) in
        let listFolderPath :=
          normalizePath env
            (outputFolder (settings env) ++ "/" ++ sanitizedListTitle) in
        present <- adapter_exists listFolderPath ;;
        (if negb present then createFolder listFolderPath else ret tt) ;;;
        forEach (processItem env fuel list listFolderPath)
                items totalNotesCreated
  end.

Definition processListyData (env : Env) (fuel : nat) (listyData : ListyData)
    : M Z :=
  let notAnArray :=
    match lists listyData with
    | ListsMissing => true
    | ListsNotArray isTruthy => negb isTruthy || true
    | ListsArray _ => false
    end in
  if notAnArray
  then throw "Invalid Listy JSON format: missing lists array"
  else
    let ls :=
      match lists listyData with
      | ListsArray ls => ls
      | _ => []
      end in
    (if truthy (outputFolder (settings env))
        && (0 <? len (outputFolder (settings env)))%Z
     then
       folderExists <- adapter_exists (outputFolder (settings env)) ;;
       if negb folderExists
       then createFolder (outputFolder (settings env))
       else ret tt
     else ret tt) ;;;
    forEach (processList env fuel) ls 0.

(** ** Vocabulary of the statements *)

(** The character [c] occurs in [s]. *)
Fixpoint hasChar (c : ascii) (s : string) : bool :=
  match s with
  | EmptyString => false
  | String d s' => Ascii.eqb d c || hasChar c s'
  end.

(** The characters a file name must not contain. *)
Definition forbiddenChars : list ascii :=
  ["/"; "\"; ":"; "*"; "?"; "034"; "<"; ">"; "|"; "="; "000"; "#"]%char.

(** The first stage of [sanitizeFileName]: the replacements, one character
    at a time. *)
Definition replaceForbidden (fileName : string) : string :=
  fileName
  |> replaceChar "/" "-"
  |> replaceChar "\" "-"
  |> replaceChar ":" "-"
  |> replaceChar "*" "-"
  |> replaceChar "?" "-"
  |> replaceChar "034" "'"
  |> replaceChar "<" "-"
  |> replaceChar ">" "-"
  |> replaceChar "|" "-"
  |> replaceChar "=" "-"
  |> replaceChar "000" EmptyString
  |> replaceChar "#" EmptyString.

(** The second stage: trimmed, and kept from starting with a dot. *)
Definition dotGuarded (fileName : string) : string :=
  let sanitized := trim (replaceForbidden fileName) in
  if startsWith sanitized "." then "_" ++ sanitized else sanitized.

(** No occurrence of [p] in [s] starts before position [n]. *)
Definition noneBefore (s p : string) (n : nat) : Prop :=
  forall i, (i < n)%nat -> startsWith (drop i s) p = false.

Fixpoint countChar (c : ascii) (s : string) : nat :=
  match s with
  | EmptyString => O
  | String d s' => (if Ascii.eqb d c then 1 else 0) + countChar c s'
  end.

(** An attribute value that is copied as it stands when it replaces a
    placeholder, and brings no brace with it. *)
Definition plainValue (v : string) : bool :=
  negb (hasChar "{" v) && negb (hasChar "$" v).

(** Every character of [s] is of the class. *)
Fixpoint allChars (cls : ascii -> bool) (s : string) : bool :=
  match s with
  | EmptyString => true
  | String c s' => cls c && allChars cls s'
  end.

(** The text [pre] ends a line: it is empty or its last character is a line
    terminator, so that what follows it starts a line. *)
Fixpoint endsLine (dflt : bool) (pre : string) : bool :=
  match pre with
  | EmptyString => dflt
  | String c pre' => endsLine (isLineTerminator c) pre'
  end.

(** A computation that does not end with a thrown error, whatever the
    world. *)
Definition neverThrows {A : Type} (c : M A) : Prop :=
  forall w msg, fst (c w) <> Throw msg.

(** The shape of a generated document: a header, the four markers of one
    token, the two user-comment zones, the machine content between the
    content markers, and what follows the last marker. *)
Definition skeleton (header token zoneA machine zoneB rest : string)
    : string :=
  header ++ startBlockMarker token ++ zoneA ++ startContentMarker token
         ++ machine ++ endContentMarker token ++ zoneB
         ++ endBlockMarker token ++ rest.

(** A user-comment zone as the engine first writes it. *)
Definition placeholderZone : string :=
  NL ++ NL ++ USER_COMMENT_PLACEHOLDER ++ NL ++ NL.

(** The body as it stands between the content markers. *)
Definition framed (body : string) : string := NL ++ NL ++ body ++ NL ++ NL.

(** What comes before the first marker of a consolidated document. *)
Definition consolidatedHeader (list : ListyList) : string :=
  "---" ++ NL ++ "source: listy" ++ NL ++ "type: todo" ++ NL
        ++ "list: " ++ quoted (list_title list) ++ NL
        ++ "create: " ++ list_create list ++ NL
        ++ "update: " ++ list_update list ++ NL
        ++ "---" ++ NL ++ NL ++ "# " ++ list_title list ++ NL ++ NL.

Fixpoint concatAll (ls : list string) : string :=
  match ls with
  | [] => EmptyString
  | s :: ls' => s ++ concatAll ls'
  end.

(** The check mark of the last checklist line with the title [t] among the
    lines read back from a stored document, [false] when there is none. *)
Definition lastChecked (lines : list (string * bool)) (t : string) : bool :=
  match find (fun l => (fst l =? t)%string) (rev lines) with
  | Some l => snd l
  | None => false
  end.

Definition checkBox (checked : bool) : string :=
  if checked then "- [x] " else "- [ ] ".

(** A token as the marker pattern reads it back: not empty, made of the
    characters [0-9a-f-]. *)
Definition tokenOk (u : string) : bool := allChars isHexDash u && truthy u.

(** The text holds no opening of a marker. *)
Definition markerFree (s : string) : bool :=
  negb (includes s "%%START-") && negb (includes s "%%END-").

Definition endMarkerFree (s : string) : bool := negb (includes s "%%END-").

(** A zone stands right after a marker, and a marker ends with two percent
    signs: the zone is safe when, read together with them, it holds no
    opening of a marker. *)
Definition zoneSafe (z : string) : bool := markerFree ("%%" ++ z).
Definition zoneEndSafe (z : string) : bool := endMarkerFree ("%%" ++ z).




(** What [bind] does with the result of a first computation. *)
Definition andThen {A B : Type} (r : Outcome A * World)
    (k : A -> World -> Outcome B * World) : Outcome B * World :=
  match r with
  | (Ok a, w') => k a w'
  | (Throw msg, w') => (Throw msg, w')
  | (OutOfFuel, w') => (OutOfFuel, w')
  end.

(** The result of an update that keeps the token [u] and the zones [A] and
    [B] around the header and the body rendered anew. *)
Definition respliced (env : Env) (item : ListyItem) (list : ListyList)
    (u A B : string) (r : string * ListyItem) (w : World)
    : Outcome (string * ListyItem) * World :=
  (Ok (skeleton (generateFrontmatter env item list) u A (framed (fst r))
                B NL, snd r), w).

Definition afterMint (w : World) : World :=
  {| files := files w; folders := folders w; entropy := entropy w;
     minted := S (minted w) |}.

Definition afterWrite (w : World) (path content : string) : World :=
  {| files := map_set path content (files w); folders := folders w;
     entropy := entropy w; minted := minted w |}.

(** The patterns of the templates start with an opening brace: a pattern
    of that kind finds nothing at a place that does not start with one. *)
Definition startsAtBrace (m : matcher) : Prop :=
  forall t, startsWith t "{" = false -> m t = None.

(** ** Inputs used in the examples *)

Definition sampleEnv : Env := {|
  settings := DEFAULT_SETTINGS;
  normalizePath := fun p => p;
  getFirstLinkpathDest := fun _ _ => None
|}.

Definition withLocking (s : ListyImporterSettings) : ListyImporterSettings :=
  {| mySetting := mySetting s; outputFolder := outputFolder s;
     consolidateToDoLists := consolidateToDoLists s;
     includeTags := includeTags s; tagReplacement := tagReplacement s;
     enableNoteLocking := true; templateFile := templateFile s;
     maxTitleLength := maxTitleLength s |}.

Definition lockingEnv : Env := {|
  settings := withLocking DEFAULT_SETTINGS;
  normalizePath := fun p => p;
  getFirstLinkpathDest := fun _ _ => None
|}.

Definition withMaxTitleLength (n : Z) (s : ListyImporterSettings)
    : ListyImporterSettings :=
  {| mySetting := mySetting s; outputFolder := outputFolder s;
     consolidateToDoLists := consolidateToDoLists s;
     includeTags := includeTags s; tagReplacement := tagReplacement s;
     enableNoteLocking := enableNoteLocking s;
     templateFile := templateFile s; maxTitleLength := n |}.

(** Settings as a hand-edited settings file can give them: a maximum title
    length of 2, below what the settings tab offers. *)
Definition shortNamesEnv : Env := {|
  settings := withMaxTitleLength 2 DEFAULT_SETTINGS;
  normalizePath := fun p => p;
  getFirstLinkpathDest := fun _ _ => None
|}.

Definition sampleEntropy (n : nat) : string :=
  match n with
  | O => "3f2a-01"
  | S O => "3f2a-02"
  | _ => "3f2a-03"
  end.

Definition worldWith (fs : list (string * string)) : World :=
  {| files := fs; folders := ["Listy"]; entropy := sampleEntropy;
     minted := O |}.

Definition book (t : string) : ListyItem := {|
  item_title := t; item_type := "Books"; item_url := Some "http://x";
  item_dateAdded := "2024-01-01"; item_marked := false;
  item_attributes := Some [ {| attr_key := "AUTHOR";
                              attr_value := "Orwell" |} ]
|}.

Definition task (t : string) (done : bool) : ListyItem := {|
  item_title := t; item_type := "Tasks"; item_url := None;
  item_dateAdded := "2024-01-01"; item_marked := done;
  item_attributes := None
|}.

(** An entry whose attribute [a] holds ten characters followed by its own
    placeholder. *)
Definition selfFeeding : ListyItem := {|
  item_title := "loop"; item_type := "Books"; item_url := None;
  item_dateAdded := "2024-01-01"; item_marked := false;
  item_attributes := Some [ {| attr_key := "a";
                              attr_value := "xxxxxxxxxx{{ATTR:a}}" |} ]
|}.

Fixpoint xs (n : nat) : string :=
  match n with
  | O => EmptyString
  | S n' => String "x" (xs n')
  end.

Definition collection (t kind : string) (items : option (list ListyItem))
    : ListyList := {|
  list_icon := EmptyString; list_title := t; list_type := kind;
  list_create := "2024-01-01"; list_update := "2024-01-02";
  list_items := items; list_customOrderIndex := 0;
  list_needFetchAfterImport := false
|}.


(** ** Vocabulary of the further properties *)

(** What a reader of double-quoted scalars makes of the character that
    follows a backslash. *)
Definition unescapeChar (d : ascii) : ascii :=
  if Ascii.eqb d "n" then "010"%char
  else if Ascii.eqb d "r" then "013"%char
  else if Ascii.eqb d "t" then "009"%char
  else d.

(** A reader of double-quoted scalars, from the character after the opening
    quote: the text the scalar stands for, and what follows the closing
    quote. *)
Fixpoint readScalar (s : string) : option (string * string) :=
  match s with
  | EmptyString => None
  | String c s' =>
      if Ascii.eqb c "034" then Some (EmptyString, s')
      else if Ascii.eqb c "\" then
        match s' with
        | String d s'' =>
            match readScalar s'' with
            | Some (v, rest) => Some (String (unescapeChar d) v, rest)
            | None => None
            end
        | EmptyString => None
        end
      else
        match readScalar s' with
        | Some (v, rest) => Some (String c v, rest)
        | None => None
        end
  end.

Definition readQuoted (s : string) : option (string * string) :=
  match s with
  | String c s' => if Ascii.eqb c "034" then readScalar s' else None
  | EmptyString => None
  end.

(** The text does not start with white space. *)
Definition startsClean (s : string) : bool :=
  match s with
  | String c _ => negb (isSpace c)
  | EmptyString => true
  end.

(** The text does not end with white space. *)
Fixpoint endsClean (s : string) : bool :=
  match s with
  | EmptyString => true
  | String c s' =>
      match s' with
      | EmptyString => negb (isSpace c)
      | String _ _ => endsClean s'
      end
  end.

Definition notSpace (c : ascii) : bool := negb (isSpace c).

(** The world after a folder has been created. *)
Definition afterFolder (w : World) (path : string) : World :=
  {| files := files w; folders := path :: folders w; entropy := entropy w;
     minted := minted w |}.

(** A path the service lets itself write: there is no file, or the file is
    not one the lock test holds back. *)
Definition writable (env : Env) (w : World) (path : string) : bool :=
  match adapter_read w path with
  | Some content =>
      negb (enableNoteLocking (settings env) && truthy content
            && lockMatch content)
  | None => true
  end.

(** Whatever the world, the computation leaves one that [R] relates to
    it. *)
Definition respects (R : World -> World -> Prop) {A : Type} (c : M A)
    : Prop :=
  forall w, R w (snd (c w)).

(** Every path of the first world is a path of the second. *)
Definition keepsPaths (w w' : World) : Prop :=
  forall path, pathExists w path = true -> pathExists w' path = true.

(** Every file of the first world that the lock pattern finds is in the
    second with the same content. *)
Definition keepsLocked (w w' : World) : Prop :=
  forall path content,
    adapter_read w path = Some content -> lockMatch content = true ->
    adapter_read w' path = Some content.

(** The documents an import makes of a collection: none without entries,
    one for a consolidated task list, one for each entry otherwise. *)
Definition documentsOf (env : Env) (list : ListyList) : Z :=
  match list_items list with
  | None => 0
  | Some [] => 0
  | Some items =>
      if (list_type list =? "Tasks")%string
         && consolidateToDoLists (settings env)
      then 1
      else Z.of_nat (List.length items)
  end.

Definition documentsOfAll (env : Env) (ls : list ListyList) : Z :=
  fold_right (fun list n => documentsOf env list + n) 0 ls.

Definition notLineTerminator (c : ascii) : bool := negb (isLineTerminator c).

(** No text occurs twice in the list. *)
Fixpoint distinct (l : list string) : bool :=
  match l with
  | [] => true
  | x :: l' => negb (existsb (String.eqb x) l') && distinct l'
  end.

(** The titles of the entries are distinct and each stands on one line. *)
Definition plainTitles (items : list ListyItem) : bool :=
  distinct (map item_title items)
  && forallb (fun item => allChars notLineTerminator (item_title item)) items.

(** What the check list of a consolidated document says of an entry: its
    title and whether it is checked. *)
Definition checkLine (existingTasks : JsMap bool) (item : ListyItem)
    : string * bool :=
  (item_title item, isCompleted existingTasks item).

(** The title that [generateItemContent] hands to the template. *)
Definition templateTitle (env : Env) (title : string) : string :=
  let maxLength := maxTitleLength (settings env) in
  let sanitizedTitle := substring (sanitizeFileName env title) 0 maxLength in
  if (len sanitizedTitle =? maxLength)%Z
  then substring sanitizedTitle 0 (maxLength - 3) ++ "..."
  else sanitizedTitle.

(** The attributes of an entry, none when the member is missing. *)
Definition attributesOf (item : ListyItem) : list ListyAttribute :=
  match item_attributes item with
  | Some attrs => attrs
  | None => []
  end.

(** ** Further inputs used in the examples *)

(** The document of a first import of the entry [book "1984"]. *)
Definition sampleNote : string :=
  match generateNoteContent sampleEnv 1 (book "1984")
          (collection "Reading" "Books" None) None (worldWith [])
  with
  | (Ok (doc, _), _) => doc
  | _ => EmptyString
  end.


Definition reading : ListyData :=
  {| lists := ListsArray
                [collection "Reading" "Books" (Some [book "1984"])] |}.

(** * Properties *)

(** ** Concatenation, [take] and [drop] *)

Lemma append_assoc (a b c : string) : (a ++ b) ++ c = a ++ b ++ c.
Proof. induction a as [|x a IH]; simpl; [reflexivity | now rewrite IH]. Qed.

Lemma append_empty_r (a : string) : a ++ EmptyString = a.
Proof. induction a as [|x a IH]; simpl; [reflexivity | now rewrite IH]. Qed.

Lemma length_append (a b : string) :
  String.length (a ++ b) = (String.length a + String.length b)%nat.
Proof. induction a as [|x a IH]; simpl; [reflexivity | now rewrite IH]. Qed.

Lemma len_append (a b : string) : len (a ++ b) = len a + len b.
Proof. unfold len. rewrite length_append. lia. Qed.

Lemma len_nonneg (a : string) : 0 <= len a.
Proof. unfold len. lia. Qed.

Lemma drop_append (a b : string) : drop (String.length a) (a ++ b) = b.
Proof. induction a as [|x a IH]; simpl; [now destruct b | exact IH]. Qed.

Lemma drop_append_plus (a b : string) (n : nat) :
  drop (String.length a + n) (a ++ b) = drop n b.
Proof. induction a as [|x a IH]; simpl; [reflexivity | exact IH]. Qed.

Lemma drop_append_le (n : nat) (a b : string) :
  (n <= String.length a)%nat -> drop n (a ++ b) = drop n a ++ b.
Proof.
  revert a. induction n as [|n IH]; intros a Hn.
  - now destruct a.
  - destruct a as [|x a]; simpl in *; [lia | apply IH; lia].
Qed.

Lemma drop_empty (n : nat) : drop n EmptyString = EmptyString.
Proof. now destruct n. Qed.

Lemma take_append (a b : string) : take (String.length a) (a ++ b) = a.
Proof.
  induction a as [|x a IH]; simpl; [now destruct b | now rewrite IH].
Qed.

Lemma take_append_plus (a b : string) (n : nat) :
  take (String.length a + n) (a ++ b) = a ++ take n b.
Proof. induction a as [|x a IH]; simpl; [reflexivity | now rewrite IH]. Qed.

Lemma take_drop (n : nat) (s : string) : take n s ++ drop n s = s.
Proof.
  revert s. induction n as [|n IH]; intros [|c s]; simpl; try reflexivity.
  now rewrite IH.
Qed.

Lemma length_take (n : nat) (s : string) :
  String.length (take n s) = Nat.min n (String.length s).
Proof.
  revert s. induction n as [|n IH]; intros [|c s]; simpl; try reflexivity.
  now rewrite IH.
Qed.

(** ** Prefixes *)

Lemma ascii_eqb_true (a b : ascii) : Ascii.eqb a b = true -> a = b.
Proof. apply Ascii.eqb_eq. Qed.

Lemma startsWith_append (p s : string) : startsWith (p ++ s) p = true.
Proof.
  induction p as [|x p IH]; simpl; [reflexivity|].
  now rewrite Ascii.eqb_refl, IH.
Qed.

Lemma startsWith_cons (b a : ascii) (s p : string) :
  startsWith (String b s) (String a p) = Ascii.eqb a b && startsWith s p.
Proof. reflexivity. Qed.

Lemma startsWith_cancel (a s p : string) :
  startsWith (a ++ s) (a ++ p) = startsWith s p.
Proof.
  induction a as [|x a IH]; simpl; [reflexivity|].
  now rewrite Ascii.eqb_refl, IH.
Qed.

Lemma startsWith_refl (p : string) : startsWith p p = true.
Proof. rewrite <- (append_empty_r p) at 1. apply startsWith_append. Qed.

Lemma startsWith_inv (s p : string) :
  startsWith s p = true -> s = p ++ drop (String.length p) s.
Proof.
  revert s. induction p as [|x p IH]; intros s H; simpl in *.
  - now destruct s.
  - destruct s as [|y s]; [discriminate|].
    apply andb_true_iff in H. destruct H as [Hxy Hp].
    apply ascii_eqb_true in Hxy. subst y. simpl.
    now rewrite <- (IH s Hp).
Qed.

(** A subject that starts with a pattern starts with each prefix of it. *)
Lemma startsWith_key (s k p : string) :
  startsWith p k = true -> startsWith s p = true -> startsWith s k = true.
Proof.
  intros Hk Hp. apply startsWith_inv in Hk. apply startsWith_inv in Hp.
  rewrite Hp, Hk, append_assoc. apply startsWith_append.
Qed.

Lemma startsWith_key_false (s k p : string) :
  startsWith p k = true -> startsWith s k = false -> startsWith s p = false.
Proof.
  intros Hk Hs. destruct (startsWith s p) eqn:E; [|reflexivity].
  now rewrite (startsWith_key s k p Hk E) in Hs.
Qed.

(** Only the first [length p] characters of the subject count. *)
Lemma startsWith_take (n : nat) (s p : string) :
  (String.length p <= n)%nat -> startsWith (take n s) p = startsWith s p.
Proof.
  revert n s. induction p as [|x p IH]; intros n s Hn; simpl in *.
  - reflexivity.
  - destruct n as [|n]; [lia|]. destruct s as [|y s]; simpl; [reflexivity|].
    rewrite IH by lia. reflexivity.
Qed.

(** ** First occurrences *)

Lemma indexOf_nat_first (s p : string) (n : nat) :
  noneBefore s p n -> startsWith (drop n s) p = true ->
  indexOf_nat s p = Some n.
Proof.
  revert s. induction n as [|n IH]; intros s Hnone Hat.
  - simpl in Hat. destruct s; simpl; now rewrite Hat.
  - assert (H0 : startsWith s p = false) by (apply (Hnone O); lia).
    destruct s as [|c s].
    + simpl in Hat. congruence.
    + simpl. rewrite H0. rewrite (IH s); [reflexivity| |exact Hat].
      intros i Hi. apply (Hnone (S i)). lia.
Qed.

Lemma indexOf_nat_some (s p : string) (n : nat) :
  indexOf_nat s p = Some n ->
  noneBefore s p n /\ startsWith (drop n s) p = true.
Proof.
  revert n. induction s as [|c s IH]; intros n H; simpl in H.
  - destruct (startsWith EmptyString p) eqn:E; [|discriminate].
    injection H as <-. split; [intros i Hi; lia | exact E].
  - destruct (startsWith (String c s) p) eqn:E.
    + injection H as <-. split; [intros i Hi; lia | exact E].
    + destruct (indexOf_nat s p) as [m|] eqn:Em; [|discriminate].
      injection H as <-. destruct (IH m eq_refl) as [Hn Hat].
      split; [|exact Hat].
      intros [|i] Hi; [exact E | apply Hn; lia].
Qed.

Lemma indexOf_nat_none (s p : string) :
  indexOf_nat s p = None -> forall i, startsWith (drop i s) p = false.
Proof.
  induction s as [|c s IH]; intros H i; simpl in H.
  - destruct (startsWith EmptyString p) eqn:E; [discriminate|].
    now rewrite drop_empty.
  - destruct (startsWith (String c s) p) eqn:E; [discriminate|].
    destruct (indexOf_nat s p) eqn:Em; [discriminate|].
    destruct i as [|i]; [exact E | apply IH; reflexivity].
Qed.

Lemma includes_cons (c : ascii) (s p : string) :
  includes (String c s) p = startsWith (String c s) p || includes s p.
Proof.
  unfold includes. simpl indexOf_nat.
  destruct (startsWith (String c s) p); [reflexivity|].
  now destruct (indexOf_nat s p).
Qed.

Lemma includes_false_at (s p : string) (i : nat) :
  includes s p = false -> startsWith (drop i s) p = false.
Proof.
  unfold includes. destruct (indexOf_nat s p) eqn:E; [discriminate|].
  intros _. now apply indexOf_nat_none.
Qed.

Lemma includes_none (s p : string) :
  (forall i, startsWith (drop i s) p = false) -> includes s p = false.
Proof.
  intros H. unfold includes. destruct (indexOf_nat s p) as [n|] eqn:E.
  - apply indexOf_nat_some in E. destruct E as [_ E]. now rewrite H in E.
  - reflexivity.
Qed.

Lemma includes_indexOf (s p : string) (n : nat) :
  indexOf_nat s p = Some n -> includes s p = true.
Proof. unfold includes. now intros ->. Qed.

Lemma indexOf_of_nat (s p : string) (n : nat) :
  indexOf_nat s p = Some n -> indexOf s p = Z.of_nat n.
Proof. unfold indexOf. now intros ->. Qed.

(** ** Characters of a string *)

Lemma hasChar_append (c : ascii) (a b : string) :
  hasChar c (a ++ b) = hasChar c a || hasChar c b.
Proof.
  induction a as [|x a IH]; simpl; [reflexivity|].
  now rewrite IH, orb_assoc.
Qed.

Lemma hasChar_replaceChar (c d : ascii) (r s : string) :
  hasChar c r = false ->
  Ascii.eqb d c = true \/ hasChar c s = false ->
  hasChar c (replaceChar d r s) = false.
Proof.
  intros Hr Hs. induction s as [|x s IH]; simpl; [reflexivity|].
  destruct (Ascii.eqb x d) eqn:Exd.
  - rewrite hasChar_append, Hr. simpl. apply IH.
    destruct Hs as [Hs|Hs]; [now left|right].
    simpl in Hs. now apply orb_false_iff in Hs.
  - simpl. destruct Hs as [Hs|Hs].
    + apply ascii_eqb_true in Hs. subst d. rewrite Exd. simpl.
      apply IH. left. apply Ascii.eqb_refl.
    + simpl in Hs. apply orb_false_iff in Hs. destruct Hs as [Hx Hs].
      rewrite Hx. simpl. apply IH. now right.
Qed.

Lemma hasChar_trimStart (c : ascii) (s : string) :
  hasChar c s = false -> hasChar c (trimStart s) = false.
Proof.
  induction s as [|x s IH]; simpl; [reflexivity|].
  intros H. apply orb_false_iff in H. destruct H as [Hx Hs].
  destruct (isSpace x); [now apply IH | simpl; now rewrite Hx, Hs].
Qed.

Lemma hasChar_trimEnd (c : ascii) (s : string) :
  hasChar c s = false -> hasChar c (trimEnd s) = false.
Proof.
  induction s as [|x s IH]; simpl; [reflexivity|].
  intros H. apply orb_false_iff in H. destruct H as [Hx Hs].
  destruct (isSpace x && (trimEnd s =? EmptyString)%string);
    [reflexivity | simpl; now rewrite Hx, IH].
Qed.

Lemma hasChar_trim (c : ascii) (s : string) :
  hasChar c s = false -> hasChar c (trim s) = false.
Proof. intros H. now apply hasChar_trimEnd, hasChar_trimStart. Qed.

Lemma hasChar_take (c : ascii) (n : nat) (s : string) :
  hasChar c s = false -> hasChar c (take n s) = false.
Proof.
  revert s. induction n as [|n IH]; intros [|x s] H; simpl; try reflexivity.
  simpl in H. apply orb_false_iff in H. destruct H as [Hx Hs].
  now rewrite Hx, IH.
Qed.

Lemma hasChar_drop (c : ascii) (n : nat) (s : string) :
  hasChar c s = false -> hasChar c (drop n s) = false.
Proof.
  revert s. induction n as [|n IH]; intros [|x s] H; simpl; try reflexivity.
  - exact H.
  - simpl in H. apply orb_false_iff in H. now apply IH.
Qed.

Lemma hasChar_substring (c : ascii) (s : string) (a b : Z) :
  hasChar c s = false -> hasChar c (substring s a b) = false.
Proof. intros H. unfold substring. now apply hasChar_take, hasChar_drop. Qed.

(** ** [substring] on a prefix *)

Lemma substring_prefix (s : string) (b : Z) :
  0 <= b <= len s -> substring s 0 b = take (Z.to_nat b) s.
Proof.
  intros Hb. unfold substring, clamp.
  rewrite Z.max_id, (Z.min_l 0) by apply len_nonneg.
  rewrite Z.max_l, Z.min_l by lia. simpl.
  now rewrite Nat.sub_0_r.
Qed.

Lemma replaceChar_append (c : ascii) (r a b : string) :
  replaceChar c r (a ++ b) = replaceChar c r a ++ replaceChar c r b.
Proof.
  induction a as [|x a IH]; simpl; [reflexivity|].
  destruct (Ascii.eqb x c); rewrite IH;
    [now rewrite append_assoc | reflexivity].
Qed.

Lemma replaceChar_absent (c : ascii) (r s : string) :
  hasChar c s = false -> replaceChar c r s = s.
Proof.
  induction s as [|x s IH]; simpl; [reflexivity|].
  intros H. apply orb_false_iff in H. destruct H as [Hx Hs].
  now rewrite Hx, IH.
Qed.

(** ** White space at the ends of a text *)

Lemma startsClean_trimStart (s : string) : startsClean (trimStart s) = true.
Proof.
  induction s as [|c s IH]; simpl; [reflexivity|].
  destruct (isSpace c) eqn:E; [exact IH | simpl; now rewrite E].
Qed.

Lemma trimStart_clean (s : string) :
  startsClean s = true -> trimStart s = s.
Proof.
  destruct s as [|c s]; simpl; [reflexivity|].
  intros H. apply negb_true_iff in H. now rewrite H.
Qed.

Lemma endsClean_trimEnd (s : string) : endsClean (trimEnd s) = true.
Proof.
  induction s as [|c s IH]; simpl; [reflexivity|].
  destruct (trimEnd s) as [|d t] eqn:Et.
  - simpl. rewrite andb_true_r.
    destruct (isSpace c) eqn:E; [reflexivity | simpl; now rewrite E].
  - rewrite andb_false_r. exact IH.
Qed.

Lemma trimEnd_clean (s : string) : endsClean s = true -> trimEnd s = s.
Proof.
  induction s as [|c s IH]; [reflexivity|].
  intros H. simpl. destruct s as [|d s].
  - simpl in *. apply negb_true_iff in H. now rewrite H.
  - rewrite IH by exact H. now rewrite andb_false_r.
Qed.

Lemma startsClean_trimEnd (s : string) :
  startsClean s = true -> startsClean (trimEnd s) = true.
Proof.
  destruct s as [|c s]; [reflexivity|]. simpl.
  intros H. apply negb_true_iff in H. rewrite H. simpl. now rewrite H.
Qed.

Lemma startsClean_trim (s : string) : startsClean (trim s) = true.
Proof. apply startsClean_trimEnd, startsClean_trimStart. Qed.

Lemma endsClean_trim (s : string) : endsClean (trim s) = true.
Proof. apply endsClean_trimEnd. Qed.

Lemma trim_clean (s : string) :
  startsClean s = true -> endsClean s = true -> trim s = s.
Proof.
  intros Hs He. unfold trim. rewrite (trimStart_clean s Hs).
  now apply trimEnd_clean.
Qed.

Lemma endsClean_append (a b : string) :
  b <> EmptyString -> endsClean (a ++ b) = endsClean b.
Proof.
  intros Hb. induction a as [|c a IH]; [reflexivity|].
  simpl. destruct (a ++ b) as [|d t] eqn:E; [|exact IH].
  destruct a; [simpl in E; contradiction | discriminate].
Qed.

Lemma trim_blank (s : string) :
  allChars isSpace s = true -> trim s = EmptyString.
Proof.
  intros H. unfold trim.
  assert (Hs : trimStart s = EmptyString).
  { induction s as [|c s IH]; [reflexivity|]. simpl in *.
    apply andb_true_iff in H. destruct H as [Hc Hs]. rewrite Hc.
    now apply IH. }
  now rewrite Hs.
Qed.

(** ** The file name derivation *)

Section FileName.

Variable env : Env.

Lemma replaceForbidden_clean (fileName : string) (c : ascii) :
  In c forbiddenChars -> hasChar c (replaceForbidden fileName) = false.
Proof.
  unfold forbiddenChars, replaceForbidden. simpl.
  intros H; repeat (destruct H as [<-|H]); try contradiction;
    repeat (apply hasChar_replaceChar;
            [reflexivity | first [left; reflexivity | right]]).
Qed.

Lemma dotGuarded_clean (fileName : string) (c : ascii) :
  In c forbiddenChars -> hasChar c (dotGuarded fileName) = false.
Proof.
  intros Hc. unfold dotGuarded.
  pose proof (hasChar_trim c _ (replaceForbidden_clean fileName c Hc)) as H.
  destruct (startsWith (trim (replaceForbidden fileName)) "."); [|exact H].
  simpl. rewrite H, orb_false_r.
  unfold forbiddenChars in Hc. simpl in Hc.
  repeat (destruct Hc as [<-|Hc]); try contradiction; reflexivity.
Qed.

Lemma dotGuarded_no_dot (fileName : string) :
  startsWith (dotGuarded fileName) "." = false.
Proof.
  unfold dotGuarded.
  destruct (startsWith (trim (replaceForbidden fileName)) ".") eqn:E;
    [reflexivity | exact E].
Qed.

Lemma sanitizeFileName_unfold (fileName : string) :
  sanitizeFileName env fileName =
  if (maxTitleLength (settings env) <? len (dotGuarded fileName))%Z
  then substring (dotGuarded fileName) 0 (maxTitleLength (settings env) - 3)
       ++ "..."
  else dotGuarded fileName.
Proof. reflexivity. Qed.

Lemma replaceForbidden_fixed (s : string) :
  (forall c, In c forbiddenChars -> hasChar c s = false) ->
  replaceForbidden s = s.
Proof.
  intros H. unfold replaceForbidden.
  repeat match goal with
         | |- context [replaceChar ?c ?r s] =>
             rewrite (replaceChar_absent c r s)
               by (apply H; unfold forbiddenChars; simpl; tauto)
         end.
  reflexivity.
Qed.

Lemma dotGuarded_fixed (s : string) :
  (forall c, In c forbiddenChars -> hasChar c s = false) ->
  startsClean s = true -> endsClean s = true ->
  startsWith s "." = false ->
  dotGuarded s = s.
Proof.
  intros Hc Hs He Hd. unfold dotGuarded.
  rewrite (replaceForbidden_fixed s Hc), (trim_clean s Hs He).
  now rewrite Hd.
Qed.

Lemma dotGuarded_startsClean (t : string) :
  startsClean (dotGuarded t) = true.
Proof.
  unfold dotGuarded.
  destruct (startsWith (trim (replaceForbidden t)) ".");
    [reflexivity | apply startsClean_trim].
Qed.

Lemma dotGuarded_endsClean (t : string) : endsClean (dotGuarded t) = true.
Proof.
  unfold dotGuarded.
  destruct (startsWith (trim (replaceForbidden t)) ".") eqn:E;
    [|apply endsClean_trim].
  pose proof (endsClean_trim (replaceForbidden t)) as H.
  destruct (trim (replaceForbidden t)) as [|d s]; [discriminate E|].
  exact H.
Qed.

(** C4, as the code has it.  The maximum title length is at least 4.  The
    derived file name holds none of the characters of [forbiddenChars]
    (slash, backslash, colon, star, question mark, double quote, angle
    brackets, bar, equals sign, NUL and hash), does not start with a dot and
    is no longer than the maximum; the function is total by construction.
    When the name, after the replacements and the trimming, starts with a
    dot, the file name starts with an underscore and that dot; when it does
    not and is no longer than the maximum, it is the file name. *)
Theorem sanitizeFileName_safe (fileName : string) :
  4 <= maxTitleLength (settings env) ->
  (forall c, In c forbiddenChars ->
             hasChar c (sanitizeFileName env fileName) = false)
  /\ startsWith (sanitizeFileName env fileName) "." = false
  /\ len (sanitizeFileName env fileName) <= maxTitleLength (settings env)
  /\ (startsWith (trim (replaceForbidden fileName)) "." = true ->
      startsWith (sanitizeFileName env fileName) "_." = true)
  /\ (startsWith (trim (replaceForbidden fileName)) "." = false ->
      len (trim (replaceForbidden fileName))
      <= maxTitleLength (settings env) ->
      sanitizeFileName env fileName = trim (replaceForbidden fileName)).
Proof.
  intros Hmax. rewrite sanitizeFileName_unfold.
  set (m := maxTitleLength (settings env)) in *.
  assert (Hn : exists n, Z.to_nat (m - 3) = S n).
  { exists (Z.to_nat (m - 4)). clearbody m. clear - Hmax. lia. }
  destruct Hn as [n Hn].
  destruct (m <? len (dotGuarded fileName))%Z eqn:Elong.
  - apply Z.ltb_lt in Elong.
    rewrite substring_prefix by lia. rewrite Hn.
    split; [|split; [|split; [|split]]].
    + intros c Hc. rewrite hasChar_append.
      rewrite (hasChar_take c _ _ (dotGuarded_clean fileName c Hc)).
      unfold forbiddenChars in Hc. simpl in Hc.
      repeat (destruct Hc as [<-|Hc]); try contradiction; reflexivity.
    + pose proof (dotGuarded_no_dot fileName) as Hdot.
      destruct (dotGuarded fileName) as [|x s] eqn:Ed.
      * unfold len in Elong. simpl in Elong. lia.
      * simpl in *. exact Hdot.
    + rewrite len_append. unfold len at 1. rewrite length_take.
      unfold len in *. simpl String.length.
      clearbody m. clear - Hmax Elong Hn. lia.
    + intros Hdot. unfold dotGuarded. rewrite Hdot.
      apply startsWith_inv in Hdot.
      change (String.length ".") with 1%nat in Hdot. rewrite Hdot.
      destruct n as [|n]; reflexivity.
    + intros Hdot Hshort. exfalso. unfold dotGuarded in Elong.
      rewrite Hdot in Elong. lia.
  - apply Z.ltb_ge in Elong.
    split; [|split; [|split; [|split]]].
    + intros c Hc. now apply dotGuarded_clean.
    + apply dotGuarded_no_dot.
    + exact Elong.
    + intros Hdot. unfold dotGuarded. rewrite Hdot.
      apply startsWith_inv in Hdot.
      change (String.length ".") with 1%nat in Hdot. now rewrite Hdot.
    + intros Hdot _. unfold dotGuarded. now rewrite Hdot.
Qed.

End FileName.

(** C4 as it is worded fails below a maximum of 4.  With a maximum title
    length of 2 the name [notes] is cut to nothing and the ellipsis is put
    after it: the file name is three dots, which starts with a dot and is
    longer than the maximum. *)
Lemma maximum_below_four_breaks_file_name :
  sanitizeFileName shortNamesEnv "notes" = "..."
  /\ startsWith (sanitizeFileName shortNamesEnv "notes") "." = true
  /\ maxTitleLength (settings shortNamesEnv)
     < len (sanitizeFileName shortNamesEnv "notes").
Proof. repeat split. Qed.

(** ** The lock pattern *)

Lemma run_all (cls : ascii -> bool) (ws rest : string) :
  allChars cls ws = true -> run cls rest = O ->
  run cls (ws ++ rest) = String.length ws.
Proof.
  intros Hws Hrest. induction ws as [|c ws IH]; simpl in *; [exact Hrest|].
  apply andb_true_iff in Hws. destruct Hws as [Hc Hws].
  now rewrite Hc, IH.
Qed.

Lemma lockAt_intro (ws post : string) :
  allChars isSpace ws = true ->
  lockAt ("lock:" ++ ws ++ "true" ++ post) = true.
Proof.
  intros Hws.
  change (startsWith (drop (run isSpace (ws ++ "true" ++ post))
                           (ws ++ "true" ++ post)) "true" = true).
  rewrite (run_all isSpace ws ("true" ++ post) Hws eq_refl).
  rewrite drop_append. apply startsWith_append.
Qed.

Lemma lockScan_intro (pre rest : string) (b : bool) :
  endsLine b pre = true -> lockAt rest = true ->
  lockScan b (pre ++ rest) = true.
Proof.
  revert b. induction pre as [|c pre IH]; intros b Hb Hrest.
  - simpl in Hb. subst b.
    destruct rest as [|c r];
      [ change ((true && lockAt EmptyString) || false = true)
      | change ((true && lockAt (String c r))
                || lockScan (isLineTerminator c) r = true) ];
      now rewrite Hrest.
  - change ((b && lockAt (String c (pre ++ rest)))
            || lockScan (isLineTerminator c) (pre ++ rest) = true).
    simpl in Hb. rewrite (IH _ Hb Hrest). apply orb_true_r.
Qed.

(** A line that starts with [lock:], white space and [true] is what the
    lock pattern finds. *)
Lemma lockMatch_intro (pre ws post : string) :
  endsLine true pre = true -> allChars isSpace ws = true ->
  lockMatch (pre ++ "lock:" ++ ws ++ "true" ++ post) = true.
Proof.
  intros Hpre Hws. apply lockScan_intro; [exact Hpre|].
  now apply lockAt_intro.
Qed.

Lemma lockMatch_truthy (content : string) :
  lockMatch content = true -> truthy content = true.
Proof. now destruct content. Qed.

(** ** Lock skip *)

(** With note locking enabled, an entry whose stored document has a line
    that starts with [lock:], optional white space and [true] is passed
    over: the world (every file of the vault included) is left as it was and
    the running total is not incremented. *)
Lemma locked_entry_is_skipped (env : Env) (fuel : nat) (list : ListyList)
    (listFolderPath : string) (total : Z) (item : ListyItem) (w : World)
    (pre ws post : string) :
  enableNoteLocking (settings env) = true ->
  endsLine true pre = true ->
  allChars isSpace ws = true ->
  adapter_read w
    (normalizePath env
       (listFolderPath ++ "/" ++ sanitizeFileName env (item_title item)
                       ++ ".md"))
  = Some (pre ++ "lock:" ++ ws ++ "true" ++ post) ->
  processItem env fuel list listFolderPath total item w = (Ok total, w).
Proof.
  intros Hlock Hpre Hws Hread.
  pose proof (lockMatch_intro pre ws post Hpre Hws) as Hm.
  unfold processItem, bind, get_world. rewrite Hread, Hlock, Hm.
  now rewrite (lockMatch_truthy _ Hm).
Qed.

(** The consolidated writer passes over a locked document as well, and
    leaves the world as it was; its caller adds one to the total all the
    same. *)
Lemma locked_task_list_is_counted (env : Env) (fuel : nat) (total : Z)
    (list : ListyList) (item : ListyItem)
    (items : Datatypes.list ListyItem) (w : World) (pre ws post : string) :
  enableNoteLocking (settings env) = true ->
  endsLine true pre = true ->
  allChars isSpace ws = true ->
  list_items list = Some (item :: items) ->
  (list_type list =? "Tasks")%string && consolidateToDoLists (settings env)
  = true ->
  adapter_read w
    (normalizePath env
       (outputFolder (settings env) ++ "/"
        ++ sanitizeFileName env (list_title list) ++ ".md"))
  = Some (pre ++ "lock:" ++ ws ++ "true" ++ post) ->
  processList env fuel total list w = (Ok (total + 1), w).
Proof.
  intros Hlock Hpre Hws Hitems Hmode Hread.
  pose proof (lockMatch_intro pre ws post Hpre Hws) as Hm.
  unfold processList. rewrite Hitems, Hmode.
  unfold createConsolidatedToDoList, bind, get_world.
  rewrite Hread, Hlock, Hm. now rewrite (lockMatch_truthy _ Hm).
Qed.

(** C5 holds for an entry written as its own document and fails for a
    consolidated task list.  With note locking enabled and a stored document
    that has a line starting with [lock:], optional white space and [true]:
    the loop body of an entry leaves the world as it was and does not count
    the entry; the consolidated writer leaves the world as it was too, but
    its caller counts the list all the same. *)
Theorem locked_task_list_is_skipped_but_counted (env : Env) (fuel : nat)
    (total : Z) (w : World) (pre ws post : string) :
  enableNoteLocking (settings env) = true ->
  endsLine true pre = true ->
  allChars isSpace ws = true ->
  (forall (list : ListyList) (listFolderPath : string) (item : ListyItem),
     adapter_read w
       (normalizePath env
          (listFolderPath ++ "/" ++ sanitizeFileName env (item_title item)
                          ++ ".md"))
     = Some (pre ++ "lock:" ++ ws ++ "true" ++ post) ->
     processItem env fuel list listFolderPath total item w = (Ok total, w))
  /\ (forall (list : ListyList) (item : ListyItem)
             (items : Datatypes.list ListyItem),
        list_items list = Some (item :: items) ->
        (list_type list =? "Tasks")%string
        && consolidateToDoLists (settings env) = true ->
        adapter_read w
          (normalizePath env
             (outputFolder (settings env) ++ "/"
              ++ sanitizeFileName env (list_title list) ++ ".md"))
        = Some (pre ++ "lock:" ++ ws ++ "true" ++ post) ->
        processList env fuel total list w = (Ok (total + 1), w)).
Proof.
  intros Hlock Hpre Hws. split.
  - intros list listFolderPath item Hread.
    now apply (locked_entry_is_skipped env fuel list listFolderPath total
                 item w pre ws post).
  - intros list item items Hitems Hmode Hread.
    now apply (locked_task_list_is_counted env fuel total list item items w
                 pre ws post).
Qed.

(** ** Errors of the batch *)

Lemma neverThrows_ret {A : Type} (a : A) : neverThrows (ret a).
Proof. intros w msg. discriminate. Qed.

Lemma neverThrows_bind {A B : Type} (c : M A) (k : A -> M B) :
  neverThrows c -> (forall a, neverThrows (k a)) -> neverThrows (bind c k).
Proof.
  intros Hc Hk w msg. unfold bind.
  destruct (c w) as [[a|m|] w'] eqn:E.
  - apply Hk.
  - exfalso. apply (Hc w m). now rewrite E.
  - discriminate.
Qed.

Lemma neverThrows_outOfFuel {A : Type} : neverThrows (@outOfFuel A).
Proof. intros w msg. discriminate. Qed.

Lemma neverThrows_uuidv4 : neverThrows uuidv4.
Proof. intros w msg. discriminate. Qed.

Lemma neverThrows_write (path content : string) :
  neverThrows (adapter_write path content).
Proof. intros w msg. discriminate. Qed.

Lemma neverThrows_get_world : neverThrows get_world.
Proof. intros w msg. discriminate. Qed.

(** A folder is created only after [exists] has answered no. *)
Lemma neverThrows_ensureFolder (path : string) :
  neverThrows (present <- adapter_exists path ;;
               if negb present then createFolder path else ret tt).
Proof.
  intros w msg. unfold bind, adapter_exists, createFolder, ret.
  destruct (pathExists w path) eqn:E; simpl; [discriminate|].
  rewrite E. discriminate.
Qed.

Lemma neverThrows_ensureFolder_then {B : Type} (path : string) (k : M B) :
  neverThrows k ->
  neverThrows (present <- adapter_exists path ;;
               (if negb present then createFolder path else ret tt) ;;; k).
Proof.
  intros Hk w msg. unfold bind, adapter_exists, createFolder, ret.
  destruct (pathExists w path) eqn:E; simpl; [apply Hk|].
  rewrite E. apply Hk.
Qed.

Lemma neverThrows_forEach {A B : Type} (f : B -> A -> M B) (l : list A) :
  (forall b x, In x l -> neverThrows (f b x)) ->
  forall b, neverThrows (forEach f l b).
Proof.
  induction l as [|x l IH]; intros Hf b; simpl.
  - apply neverThrows_ret.
  - apply neverThrows_bind; [apply Hf; now left|].
    intros b'. apply IH. intros b0 y Hy. apply Hf. now right.
Qed.

Create HintDb throws.

#[local] Hint Resolve neverThrows_ret neverThrows_bind neverThrows_outOfFuel
  neverThrows_uuidv4 neverThrows_write neverThrows_get_world
  neverThrows_ensureFolder : throws.

Section NeverThrows.

Variables (env : Env) (fuel : nat).

Lemma neverThrows_generateItemContent (item : ListyItem)
    (list : ListyList) :
  neverThrows (generateItemContent env fuel item list).
Proof.
  unfold generateItemContent. apply neverThrows_bind; auto with throws.
  intros w.
  destruct (applyTemplateTransformations _ _ _ _); auto with throws.
Qed.

Lemma neverThrows_generateNoteContent_new (item : ListyItem)
    (list : ListyList) :
  neverThrows (generateNoteContent_new env fuel item list).
Proof.
  unfold generateNoteContent_new.
  apply neverThrows_bind; auto with throws. intros itemId.
  apply neverThrows_bind; [apply neverThrows_generateItemContent|].
  intros [noteContent item']. apply neverThrows_ret.
Qed.

Lemma neverThrows_updateExistingNote (item : ListyItem) (list : ListyList)
    (existingContent itemId : string) :
  neverThrows (updateExistingNote env fuel item list existingContent itemId).
Proof.
  unfold updateExistingNote.
  destruct (_ || _); [apply neverThrows_generateNoteContent_new|].
  apply neverThrows_bind; [apply neverThrows_generateItemContent|].
  intros [newItemContent item'].
  destruct (_ || _);
    [apply neverThrows_generateNoteContent_new | apply neverThrows_ret].
Qed.

Lemma neverThrows_generateNoteContent (item : ListyItem)
    (list : ListyList) (existingContent : option string) :
  neverThrows (generateNoteContent env fuel item list existingContent).
Proof.
  unfold generateNoteContent.
  destruct existingContent as [content|];
    [|apply neverThrows_generateNoteContent_new].
  destruct (truthy content); [|apply neverThrows_generateNoteContent_new].
  destruct (extractItemId content);
    [apply neverThrows_updateExistingNote
    |apply neverThrows_generateNoteContent_new].
Qed.

Lemma neverThrows_processItem (list : ListyList) (folder : string)
    (total : Z) (item : ListyItem) :
  neverThrows (processItem env fuel list folder total item).
Proof.
  unfold processItem. apply neverThrows_bind; auto with throws.
  intros w. match goal with |- neverThrows (if ?b then _ else _) =>
    destruct b end; auto with throws.
  apply neverThrows_bind; [apply neverThrows_generateNoteContent|].
  intros r. auto with throws.
Qed.

(** The consolidated writer iterates over the items, which its caller has
    checked to be there. *)
Lemma neverThrows_createConsolidatedToDoList (list : ListyList)
    (folderPath : string) :
  list_items list <> None ->
  neverThrows (createConsolidatedToDoList env list folderPath).
Proof.
  intros Hitems. unfold createConsolidatedToDoList.
  apply neverThrows_bind; auto with throws. intros w.
  match goal with |- neverThrows (if ?b then _ else _) =>
    destruct b end; auto with throws.
  apply neverThrows_bind.
  - destruct (adapter_read w _) as [content|]; auto with throws.
    destruct (truthy content); auto with throws.
  - intros listId. destruct (list_items list); [auto with throws|].
    congruence.
Qed.

Lemma neverThrows_processList (total : Z) (list : ListyList) :
  neverThrows (processList env fuel total list).
Proof.
  unfold processList.
  destruct (list_items list) as [[|item items]|] eqn:Eitems;
    auto with throws.
  destruct (_ && _).
  - apply neverThrows_bind; auto with throws.
    apply neverThrows_createConsolidatedToDoList. congruence.
  - apply neverThrows_ensureFolder_then.
    apply neverThrows_forEach. intros b x Hx.
    apply neverThrows_processItem.
Qed.

End NeverThrows.

Lemma forEach_skip {A B : Type} (f : B -> A -> M B) (l1 l2 : list A)
    (x : A) :
  (forall b, f b x = ret b) ->
  forall b w, forEach f (l1 ++ x :: l2) b w = forEach f (l1 ++ l2) b w.
Proof.
  intros Hx. induction l1 as [|y l1 IH]; intros b w; simpl.
  - unfold bind. now rewrite Hx.
  - unfold bind. destruct (f b y w) as [[b'|m|] w']; [apply IH| |];
      reflexivity.
Qed.

Lemma processList_skip (env : Env) (fuel : nat) (total : Z)
    (list : ListyList) :
  list_items list = None \/ list_items list = Some [] ->
  processList env fuel total list = ret total.
Proof. unfold processList. now intros [-> | ->]. Qed.

(** C6.  The batch throws exactly when the [lists] member is not an array,
    and then the world is the one it started from; a list whose [items] are
    missing or empty changes neither the outcome nor the world, wherever it
    stands among the lists. *)
Theorem processListyData_validation (env : Env) (fuel : nat)
    (listyData : ListyData) (w : World) :
  ((exists msg, fst (processListyData env fuel listyData w) = Throw msg)
   <-> (forall ls, lists listyData <> ListsArray ls))
  /\ (forall msg,
        fst (processListyData env fuel listyData w) = Throw msg ->
        snd (processListyData env fuel listyData w) = w)
  /\ (forall l1 l2 lst,
        list_items lst = None \/ list_items lst = Some [] ->
        processListyData env fuel {| lists := ListsArray (l1 ++ lst :: l2) |} w
        = processListyData env fuel {| lists := ListsArray (l1 ++ l2) |} w).
Proof.
  assert (Harr : forall ls msg,
            fst (processListyData env fuel {| lists := ListsArray ls |} w)
            <> Throw msg).
  { intros ls msg. unfold processListyData. simpl.
    apply neverThrows_bind.
    - destruct (_ && _); auto with throws.
    - intros u. apply neverThrows_forEach. intros b x Hx.
      apply neverThrows_processList. }
  split; [|split].
  - split.
    + intros [msg Hmsg] ls Hls. destruct listyData as [l]. simpl in Hls.
      subst l. exact (Harr ls msg Hmsg).
    + intros Hnot. destruct listyData as [[| t | ls]]; simpl in *.
      * eexists. reflexivity.
      * eexists. unfold processListyData. simpl.
        rewrite orb_true_r. reflexivity.
      * now destruct (Hnot ls).
  - intros msg Hmsg. destruct listyData as [[| t | ls]].
    + reflexivity.
    + unfold processListyData. simpl. now rewrite orb_true_r.
    + now destruct (Harr ls msg).
  - intros l1 l2 lst Hlst. unfold processListyData. simpl.
    unfold bind at 1. unfold bind at 2.
    match goal with |- context [match ?c w with _ => _ end] =>
      destruct (c w) as [[u|m|] w'] end; try reflexivity.
    apply forEach_skip. intros b. now apply processList_skip.
Qed.

(** ** Template placeholders *)

(** C7 fails on the code.  With the template [{{ATTR:a}}{{ATTR:b}}] and an
    entry that has attributes but neither [a] nor [b], the first placeholder
    is removed and the second one stays in the output as it was written: the
    loop searches on from the end of the first match in a text that has
    become shorter. *)
Theorem attr_placeholder_survives (fuel : nat) :
  applyTemplateTransformations (S (S fuel)) "{{ATTR:a}}{{ATTR:b}}"
    (book "1984") (collection "Reading" "Books" None)
  = Some "{{ATTR:b}}".
Proof. vm_compute. reflexivity. Qed.

(** The branch for an entry without attributes removes both. *)
Lemma attr_placeholders_removed_without_attributes (fuel : nat) :
  applyTemplateTransformations fuel "{{ATTR:a}}{{ATTR:b}}"
    (task "1984" false) (collection "Reading" "Books" None)
  = Some EmptyString.
Proof. vm_compute. reflexivity. Qed.

(** An entry without attributes never runs the loop: its body is there
    whatever the fuel. *)
Lemma applyTemplateTransformations_no_attributes (fuel : nat)
    (rawTemplate : string) (item : ListyItem) (list : ListyList) :
  item_attributes item = None \/ item_attributes item = Some [] ->
  exists body,
    applyTemplateTransformations fuel rawTemplate item list = Some body.
Proof.
  intros H. unfold applyTemplateTransformations.
  destruct H as [-> | ->]; eexists; reflexivity.
Qed.

(** ** The shape of generated documents *)

Lemma fold_left_append {A : Type} (f : A -> string) (l : list A)
    (acc : string) :
  fold_left (fun content x => content ++ f x) l acc
  = acc ++ concatAll (map f l).
Proof.
  revert acc. induction l as [|x l IH]; intros acc; simpl.
  - now rewrite append_empty_r.
  - now rewrite IH, append_assoc.
Qed.

Lemma consolidatedContent_skeleton (list : ListyList)
    (items : Datatypes.list ListyItem) (existingTasks : JsMap bool)
    (listId : option string) :
  consolidatedContent list items existingTasks listId
  = skeleton (consolidatedHeader list) (idText listId) placeholderZone
      (NL ++ NL ++ concatAll (map (taskLine existingTasks) items) ++ NL)
      placeholderZone NL.
Proof.
  unfold consolidatedContent, skeleton, consolidatedHeader, placeholderZone,
    startBlockMarker, endBlockMarker, startContentMarker, endContentMarker.
  rewrite fold_left_append.
  repeat rewrite append_assoc. reflexivity.
Qed.

(** ** The consolidated check list *)

Lemma map_get_set {V : Type} (k k' : string) (v : V) (m : JsMap V) :
  map_get k (map_set k' v m)
  = if (k' =? k)%string then Some v else map_get k m.
Proof.
  induction m as [|[k0 v0] m IH]; simpl.
  - reflexivity.
  - destruct (k0 =? k')%string eqn:E0; simpl.
    + apply String.eqb_eq in E0. subst k0.
      now destruct (k' =? k)%string.
    + destruct (k0 =? k)%string eqn:E1.
      * apply String.eqb_eq in E1. subst k0.
        rewrite String.eqb_sym in E0. now rewrite E0.
      * exact IH.
Qed.

Lemma find_append {A : Type} (f : A -> bool) (a b : list A) :
  find f (a ++ b)%list
  = match find f a with Some x => Some x | None => find f b end.
Proof.
  induction a as [|x a IH]; simpl; [reflexivity|].
  now destruct (f x).
Qed.

Lemma map_get_tasks (t : string) (lines : list (string * bool))
    (m : JsMap bool) :
  map_get t (fold_left (fun m l => map_set (fst l) (snd l) m) lines m)
  = match find (fun l => (fst l =? t)%string) (rev lines) with
    | Some l => Some (snd l)
    | None => map_get t m
    end.
Proof.
  revert m. induction lines as [|l lines IH]; intros m; simpl.
  - reflexivity.
  - rewrite IH, find_append.
    destruct (find _ (rev lines)); [reflexivity|].
    simpl. rewrite map_get_set. now destruct (fst l =? t)%string.
Qed.

Lemma isCompleted_lastChecked (content : string) (item : ListyItem) :
  isCompleted (parseExistingTasks content) item
  = item_marked item || lastChecked (taskScan O content) (item_title item).
Proof.
  unfold isCompleted, parseExistingTasks, lastChecked, map_has.
  rewrite map_get_tasks. simpl map_get.
  destruct (find _ (rev (taskScan O content))); reflexivity.
Qed.

(** C9, as the code has it.  Without a stored document the line of an
    entry is checked exactly when the entry is marked done.  With one, it is
    checked exactly when the entry is marked done or the last check-list line
    of the stored document with the very same title was checked; the check
    list of the regenerated document is made of these lines, in the order of
    the entries. *)
Theorem checklist_follows_last_line (list : ListyList)
    (items : Datatypes.list ListyItem) (content : string)
    (listId : option string) :
  (forall item,
     taskLine [] item = checkBox (item_marked item) ++ item_title item ++ NL)
  /\ (forall item,
     taskLine (parseExistingTasks content) item
     = checkBox (item_marked item
                 || lastChecked (taskScan O content) (item_title item))
       ++ item_title item ++ NL)
  /\ consolidatedContent list items (parseExistingTasks content) listId
     = skeleton (consolidatedHeader list) (idText listId) placeholderZone
         (NL ++ NL
          ++ concatAll
               (map (fun item =>
                       checkBox (item_marked item
                                 || lastChecked (taskScan O content)
                                                (item_title item))
                       ++ item_title item ++ NL)
                    items)
          ++ NL)
         placeholderZone NL.
Proof.
  assert (Hline : forall item,
     taskLine (parseExistingTasks content) item
     = checkBox (item_marked item
                 || lastChecked (taskScan O content) (item_title item))
       ++ item_title item ++ NL).
  { intros item. unfold taskLine, checkBox.
    rewrite isCompleted_lastChecked.
    now destruct (item_marked item || lastChecked _ _). }
  split; [|split; [exact Hline|]].
  { intros item. unfold taskLine, isCompleted, checkBox. simpl.
    rewrite orb_false_r. now destruct (item_marked item). }
  rewrite consolidatedContent_skeleton.
  now rewrite (map_ext _ _ Hline).
Qed.

(** C9 as it is worded fails: a stored document with the title checked on
    one line and unchecked on a later line holds a checked line with that
    exact title, and the regenerated line is unchecked. *)
Lemma checked_line_is_not_enough :
  let content := "- [x] milk" ++ NL ++ "- [ ] milk" ++ NL in
  let item := task "milk" false in
  ~ (isCompleted (parseExistingTasks content) item = true
     <-> (item_marked item = true
          \/ In (item_title item, true) (taskScan O content))).
Proof.
  intros content item [_ H].
  assert (Hc : isCompleted (parseExistingTasks content) item = false)
    by (vm_compute; reflexivity).
  rewrite H in Hc; [discriminate|].
  right. vm_compute. now left.
Qed.

(** ** Where a pattern cannot occur *)

Lemma startsWith_hasChar (c : ascii) (s p : string) :
  startsWith s p = true -> hasChar c p = true -> hasChar c s = true.
Proof.
  intros Hp Hc. apply startsWith_inv in Hp. rewrite Hp, hasChar_append, Hc.
  reflexivity.
Qed.

Lemma hasChar_drop_true (c : ascii) (n : nat) (s : string) :
  hasChar c (drop n s) = true -> hasChar c s = true.
Proof.
  intros H. destruct (hasChar c s) eqn:E; [reflexivity|].
  now rewrite (hasChar_drop c n s E) in H.
Qed.

(** A pattern that holds a character the subject lacks does not occur. *)
Lemma includes_lacking (c : ascii) (s p : string) :
  hasChar c p = true -> hasChar c s = false -> includes s p = false.
Proof.
  intros Hp Hs. apply includes_none. intros i.
  destruct (startsWith (drop i s) p) eqn:E; [|reflexivity].
  pose proof (startsWith_hasChar c _ _ E Hp) as H.
  apply hasChar_drop_true in H. congruence.
Qed.

(** Occurrences of a longer pattern are occurrences of its prefixes. *)
Lemma includes_key (s k p : string) :
  startsWith p k = true -> includes s k = false -> includes s p = false.
Proof.
  intros Hk Hs. apply includes_none. intros i.
  apply (startsWith_key_false _ k p Hk). now apply includes_false_at.
Qed.

Lemma noneBefore_key (s k p : string) (n : nat) :
  startsWith p k = true -> noneBefore s k n -> noneBefore s p n.
Proof.
  intros Hk Hn i Hi. apply (startsWith_key_false _ k p Hk). now apply Hn.
Qed.

(** The last character of the pattern is not in what follows [x]: an
    occurrence in [x ++ y] lies within [x]. *)
Lemma startsWith_within (c : ascii) (k0 a y : string) :
  hasChar c y = false ->
  startsWith (a ++ y) (k0 ++ chr c) = true ->
  startsWith a (k0 ++ chr c) = true.
Proof.
  intros Hy. revert a. induction k0 as [|z k0 IH]; intros a H.
  - destruct a as [|x a]; simpl in *.
    + destruct y as [|d y]; [discriminate|]. simpl in *.
      apply andb_true_iff in H. destruct H as [H _].
      rewrite Ascii.eqb_sym in H. now rewrite H in Hy.
    + apply andb_true_iff in H. destruct H as [H _]. now rewrite H.
  - destruct a as [|x a].
    + simpl append in H.
      assert (Hc : hasChar c (String z k0 ++ chr c) = true).
      { rewrite hasChar_append. simpl. rewrite Ascii.eqb_refl.
        apply orb_true_r. }
      pose proof (startsWith_hasChar c _ _ H Hc). congruence.
    + simpl in *. apply andb_true_iff in H. destruct H as [Hx H].
      now rewrite Hx, (IH a H).
Qed.

Lemma includes_append_last (c : ascii) (k0 x y : string) :
  hasChar c y = false ->
  includes x (k0 ++ chr c) = false ->
  includes (x ++ y) (k0 ++ chr c) = false.
Proof.
  intros Hy. induction x as [|d x IH]; intros Hx.
  - simpl. apply (includes_lacking c); [|exact Hy].
    rewrite hasChar_append. simpl. rewrite Ascii.eqb_refl.
    apply orb_true_r.
  - rewrite includes_cons in Hx. apply orb_false_iff in Hx.
    destruct Hx as [Hhead Hx].
    change (String d x ++ y) with (String d (x ++ y)).
    rewrite includes_cons, (IH Hx), orb_false_r.
    destruct (startsWith (String d (x ++ y)) (k0 ++ chr c)) eqn:E;
      [|reflexivity].
    change (String d (x ++ y)) with (String d x ++ y) in E.
    apply (startsWith_within c k0 _ y Hy) in E. congruence.
Qed.

(** The first character of the pattern is not in [x]: no occurrence starts
    within [x]. *)
Lemma includes_skip (c : ascii) (k x y : string) :
  hasChar c x = false ->
  includes (x ++ y) (String c k) = includes y (String c k).
Proof.
  intros Hx. induction x as [|d x IH]; [reflexivity|].
  simpl in Hx. apply orb_false_iff in Hx. destruct Hx as [Hd Hx].
  change (String d x ++ y) with (String d (x ++ y)).
  rewrite includes_cons, (IH Hx). simpl startsWith.
  rewrite Ascii.eqb_sym, Hd. reflexivity.
Qed.

(** An occurrence that starts within [x] ends within the first
    [length k - 1] characters of what follows. *)
Lemma noneBefore_window (x y win k p : string) :
  startsWith p k = true ->
  take (String.length k - 1) y = win ->
  includes (x ++ win) k = false ->
  noneBefore (x ++ y) p (String.length x).
Proof.
  intros Hk Hwin Hinc. apply (noneBefore_key _ k p _ Hk).
  intros i Hi.
  pose proof (includes_false_at _ _ i Hinc) as H.
  rewrite drop_append_le in * by lia.
  destruct (startsWith (drop i x ++ y) k) eqn:E; [|reflexivity].
  rewrite <- H. symmetry.
  rewrite <- (startsWith_take (String.length (drop i x)
                               + (String.length k - 1))) in E.
  - rewrite take_append_plus, Hwin in E. exact E.
  - assert (String.length (drop i x) <> O).
    { intros H0. pose proof (take_drop i x) as Htd.
      apply (f_equal String.length) in Htd.
      rewrite length_append, length_take, H0 in Htd. lia. }
    lia.
Qed.

Lemma noneBefore_append (x y p : string) (m : nat) :
  noneBefore (x ++ y) p (String.length x) ->
  noneBefore y p m ->
  noneBefore (x ++ y) p (String.length x + m).
Proof.
  intros Hx Hy i Hi.
  destruct (Nat.lt_ge_cases i (String.length x)) as [Hlt|Hge].
  - now apply Hx.
  - replace i with (String.length x + (i - String.length x))%nat by lia.
    rewrite drop_append_plus. apply Hy. lia.
Qed.

Lemma noneBefore_cons (c : ascii) (s p : string) (m : nat) :
  startsWith (String c s) p = false ->
  noneBefore s p m ->
  noneBefore (String c s) p (S m).
Proof.
  intros H0 Hs [|i] Hi; [exact H0|]. apply Hs. lia.
Qed.

Lemma includes_append_false (a b win k : string) :
  take (String.length k - 1) b = win ->
  includes (a ++ win) k = false ->
  includes b k = false ->
  includes (a ++ b) k = false.
Proof.
  intros Hwin Ha Hb. apply includes_none. intros i.
  destruct (Nat.lt_ge_cases i (String.length a)) as [Hlt|Hge].
  - apply (noneBefore_window a b win k k (startsWith_refl k) Hwin Ha).
    exact Hlt.
  - replace i with (String.length a + (i - String.length a))%nat by lia.
    rewrite drop_append_plus. now apply includes_false_at.
Qed.

(** The first occurrence of [p] in [x ++ p ++ y] when none starts within
    [x]. *)
Lemma indexOf_nat_located (x p y : string) :
  noneBefore (x ++ p ++ y) p (String.length x) ->
  indexOf_nat (x ++ p ++ y) p = Some (String.length x).
Proof.
  intros H. apply indexOf_nat_first; [exact H|].
  rewrite drop_append. apply startsWith_append.
Qed.

Lemma findFirst_first (m : matcher) (s : string) (n l : nat) :
  (forall i, (i < n)%nat -> m (drop i s) = None) ->
  m (drop n s) = Some l ->
  findFirst m s = Some (n, l).
Proof.
  revert s. induction n as [|n IH]; intros s Hnone Hat.
  - simpl in Hat. destruct s; simpl; now rewrite Hat.
  - assert (H0 : m s = None) by (apply (Hnone O); lia).
    destruct s as [|c s]; simpl in *.
    + congruence.
    + rewrite H0, (IH s); [reflexivity| |exact Hat].
      intros i Hi. apply (Hnone (S i)). lia.
Qed.

Lemma substring_middle (x m y : string) (a b : Z) :
  a = len x -> b = len x + len m -> substring (x ++ m ++ y) a b = m.
Proof.
  intros -> ->. unfold substring, clamp.
  pose proof (len_nonneg x). pose proof (len_nonneg m).
  pose proof (len_nonneg y).
  rewrite !len_append.
  rewrite (Z.max_l (len x)), (Z.max_l (len x + len m)) by lia.
  rewrite !Z.min_l by lia.
  unfold len. rewrite <- Nat2Z.inj_add, !Nat2Z.id.
  rewrite Nat.max_r, Nat.min_l by lia.
  replace (String.length x + String.length m - String.length x)%nat
    with (String.length m) by lia.
  now rewrite drop_append, take_append.
Qed.

(** ** Markers and tokens *)

Lemma hexDash_not_percent (c : ascii) :
  isHexDash c = true -> Ascii.eqb c "%" = false.
Proof.
  destruct c as [[] [] [] [] [] [] [] []]; intros H;
    solve [reflexivity | discriminate H].
Qed.

Lemma hexDash_not_E (c : ascii) :
  isHexDash c = true -> Ascii.eqb "E" c = false.
Proof.
  destruct c as [[] [] [] [] [] [] [] []]; intros H;
    solve [reflexivity | discriminate H].
Qed.

Lemma hexDash_no_percent (u : string) :
  allChars isHexDash u = true -> hasChar "%" u = false.
Proof.
  induction u as [|c u IH]; simpl; [reflexivity|].
  intros H. apply andb_true_iff in H. destruct H as [Hc Hu].
  now rewrite (hexDash_not_percent c Hc), IH.
Qed.

Lemma tokenOk_inv (u : string) :
  tokenOk u = true ->
  allChars isHexDash u = true
  /\ exists c u', u = String c u' /\ isHexDash c = true.
Proof.
  unfold tokenOk. intros H. apply andb_true_iff in H.
  destruct H as [Hall Hne]. split; [exact Hall|].
  destruct u as [|c u']; [discriminate|].
  exists c, u'. split; [reflexivity|].
  simpl in Hall. now apply andb_true_iff in Hall.
Qed.

(** A marker body between its percent signs: no occurrence of a pattern that
    opens with two percent signs starts within it. *)
Lemma includes_bracket (k' w Z : string) :
  hasChar "%" w = false -> w <> EmptyString ->
  startsWith (w ++ Z) k' = false ->
  includes Z ("%%" ++ k') = false ->
  includes ("%%" ++ w ++ Z) ("%%" ++ k') = false.
Proof.
  intros Hw Hne Hhead HZ.
  change ("%%" ++ w ++ Z) with (String "%" (String "%" (w ++ Z))).
  change ("%%" ++ k') with (String "%" (String "%" k')) in *.
  rewrite includes_cons, !startsWith_cons, Hhead.
  rewrite includes_cons, (includes_skip "%" _ w Z Hw), HZ.
  destruct w as [|d w]; [congruence|].
  simpl in Hw. apply orb_false_iff in Hw. destruct Hw as [Hd _].
  change (String d w ++ Z) with (String d (w ++ Z)).
  rewrite !startsWith_cons, (Ascii.eqb_sym "%" d), Hd. reflexivity.
Qed.

(** The same for a marker whose first percent sign has been passed. *)
Lemma includes_bracket_tail (k' w Z : string) :
  hasChar "%" w = false -> w <> EmptyString ->
  includes Z ("%%" ++ k') = false ->
  includes ("%" ++ w ++ Z) ("%%" ++ k') = false.
Proof.
  intros Hw Hne HZ.
  change ("%" ++ w ++ Z) with (String "%" (w ++ Z)).
  change ("%%" ++ k') with (String "%" (String "%" k')) in *.
  rewrite includes_cons, (includes_skip "%" _ w Z Hw), HZ.
  destruct w as [|d w]; [congruence|].
  simpl in Hw. apply orb_false_iff in Hw. destruct Hw as [Hd _].
  change (String d w ++ Z) with (String d (w ++ Z)).
  rewrite !startsWith_cons, (Ascii.eqb_sym "%" d), Hd. reflexivity.
Qed.

Lemma startPattern_key (s : string) (n : nat) :
  startPattern s = Some n -> startsWith s "%%START-" = true.
Proof.
  unfold startPattern, bracketed.
  destruct (startsWith s "%%START-"); [reflexivity | discriminate].
Qed.

Lemma startPattern_marker (u rest : string) :
  tokenOk u = true ->
  startPattern (startBlockMarker u ++ rest)
  = Some (8 + String.length u + 2)%nat.
Proof.
  intros Hu. destruct (tokenOk_inv u Hu) as [Hall [c [u' [-> Hc]]]].
  unfold startPattern, bracketed, startBlockMarker.
  rewrite !append_assoc, startsWith_append.
  change (drop (String.length "%%START-")
               ("%%START-" ++ String c u' ++ "%%" ++ rest))
    with (String c u' ++ "%%" ++ rest).
  rewrite (run_all isHexDash (String c u') ("%%" ++ rest) Hall eq_refl).
  change (String.length (String c u')) with (S (String.length u')).
  cbv iota beta.
  change (drop (S (String.length u')) (String c u' ++ "%%" ++ rest))
    with (drop (String.length u') (u' ++ "%%" ++ rest)).
  rewrite drop_append. reflexivity.
Qed.

Lemma drop_startBlockMarker (u rest : string) :
  drop 8 (startBlockMarker u ++ rest) = u ++ "%%" ++ rest.
Proof. unfold startBlockMarker. now rewrite !append_assoc. Qed.

Lemma endContent_is_not_end (u rest : string) :
  tokenOk u = true ->
  startsWith (endContentMarker u ++ rest) (endBlockMarker u) = false.
Proof.
  intros Hu. destruct (tokenOk_inv u Hu) as [_ [c [u' [-> Hc]]]].
  unfold endContentMarker, endBlockMarker. rewrite !append_assoc.
  change ("%%END-EXTRACTED-CONTENT-" ++ String c u' ++ "%%" ++ rest)
    with ("%%END-" ++ String "E" ("XTRACTED-CONTENT-" ++ String c u'
                                   ++ "%%" ++ rest)).
  change ("%%END-" ++ String c u' ++ "%%")
    with ("%%END-" ++ String c (u' ++ "%%")).
  rewrite startsWith_cancel, startsWith_cons, Ascii.eqb_sym.
  now rewrite (hexDash_not_E c Hc).
Qed.

(** ** Locating the markers of a well-formed document *)

Section Located.

Variables (P u A M B T : string).

Hypothesis token_ok : tokenOk u = true.
Hypothesis header_free : markerFree P = true.
Hypothesis zoneA_safe : zoneSafe A = true.
Hypothesis machine_safe : zoneEndSafe M = true.
Hypothesis zoneB_safe : zoneEndSafe B = true.

Local Abbreviation mS := (startBlockMarker u).
Local Abbreviation mSC := (startContentMarker u).
Local Abbreviation mEC := (endContentMarker u).
Local Abbreviation mE := (endBlockMarker u).
Local Abbreviation doc := (skeleton P u A M B T).

Lemma header_no_start_key : includes P "%%START-" = false.
Proof.
  unfold markerFree in header_free.
  apply andb_true_iff in header_free. destruct header_free as [H _].
  now apply negb_true_iff in H.
Qed.

Lemma header_no_end_key : includes P "%%END-" = false.
Proof.
  unfold markerFree in header_free.
  apply andb_true_iff in header_free. destruct header_free as [_ H].
  now apply negb_true_iff in H.
Qed.

Lemma zoneA_no_start_key : includes ("%%" ++ A) "%%START-" = false.
Proof.
  unfold zoneSafe, markerFree in zoneA_safe.
  apply andb_true_iff in zoneA_safe. destruct zoneA_safe as [H _].
  now apply negb_true_iff in H.
Qed.

Lemma zoneA_no_end_key : includes ("%%" ++ A) "%%END-" = false.
Proof.
  unfold zoneSafe, markerFree in zoneA_safe.
  apply andb_true_iff in zoneA_safe. destruct zoneA_safe as [_ H].
  now apply negb_true_iff in H.
Qed.

Lemma machine_no_end_key : includes ("%%" ++ M) "%%END-" = false.
Proof. now apply negb_true_iff in machine_safe. Qed.

Lemma zoneB_no_end_key : includes ("%%" ++ B) "%%END-" = false.
Proof. now apply negb_true_iff in zoneB_safe. Qed.

Lemma token_no_percent : hasChar "%" u = false.
Proof. apply hexDash_no_percent. now destruct (tokenOk_inv u token_ok). Qed.

Local Ltac keys :=
  pose proof header_no_start_key; pose proof header_no_end_key;
  pose proof zoneA_no_start_key; pose proof zoneA_no_end_key;
  pose proof machine_no_end_key; pose proof zoneB_no_end_key;
  pose proof token_no_percent.

(** No marker opening starts within the header. *)
Lemma header_no_start : noneBefore doc "%%START-" (String.length P).
Proof.
  keys.
  apply (noneBefore_window P _ "%%START" "%%START-" "%%START-");
    [reflexivity | reflexivity |].
  now apply (includes_append_last "-" "%%START").
Qed.

Lemma located_id : extractItemId doc = Some u.
Proof.
  keys.
  unfold extractItemId.
  rewrite (findFirst_first startPattern doc (String.length P)
             (8 + String.length u + 2)).
  - replace (8 + String.length u + 2 - 10)%nat with (String.length u)
      by lia.
    unfold skeleton.
    rewrite drop_append_plus, drop_startBlockMarker, take_append.
    unfold tokenOk in token_ok. apply andb_true_iff in token_ok.
    destruct token_ok as [_ Hne]. now rewrite Hne.
  - intros i Hi. destruct (startPattern (drop i doc)) as [n|] eqn:En;
      [|reflexivity].
    apply startPattern_key in En.
    now rewrite (header_no_start i Hi) in En.
  - unfold skeleton. rewrite drop_append.
    now apply startPattern_marker.
Qed.

Lemma located_start : indexOf_nat doc mS = Some (String.length P).
Proof.
  keys.
  apply indexOf_nat_located.
  apply (noneBefore_key _ "%%START-" mS); [reflexivity|].
  apply header_no_start.
Qed.

Lemma skeleton_at_startContent :
  doc = (P ++ mS ++ A) ++ mSC ++ M ++ mEC ++ B ++ mE ++ T.
Proof. unfold skeleton. now rewrite !append_assoc. Qed.

Lemma skeleton_at_endContent :
  doc = (P ++ mS ++ A ++ mSC ++ M) ++ mEC ++ B ++ mE ++ T.
Proof. unfold skeleton. now rewrite !append_assoc. Qed.

Lemma skeleton_at_end :
  doc = (P ++ mS ++ A ++ mSC ++ M ++ mEC ++ B) ++ mE ++ T.
Proof. unfold skeleton. now rewrite !append_assoc. Qed.

Lemma startBlock_shape (X : string) : mS ++ X = "%%" ++ ("START-" ++ u) ++ "%%" ++ X.
Proof. unfold startBlockMarker. now rewrite !append_assoc. Qed.

Lemma startContent_shape (X : string) :
  mSC ++ X = "%%" ++ ("START-EXTRACTED-CONTENT-" ++ u) ++ "%%" ++ X.
Proof. unfold startContentMarker. now rewrite !append_assoc. Qed.

Lemma endContent_shape (X : string) :
  mEC ++ X = "%%" ++ ("END-EXTRACTED-CONTENT-" ++ u) ++ "%%" ++ X.
Proof. unfold endContentMarker. now rewrite !append_assoc. Qed.

Lemma marker_body_free (w : string) :
  hasChar "%" w = false -> hasChar "%" (w ++ u) = false.
Proof. intros H. now rewrite hasChar_append, H, token_no_percent. Qed.

Lemma located_startContent :
  indexOf_nat doc mSC = Some (String.length (P ++ mS ++ A)).
Proof.
  keys.
  rewrite skeleton_at_startContent. apply indexOf_nat_located.
  apply (noneBefore_window _ _ "%%START-" "%%START-E" mSC);
    [reflexivity | reflexivity |].
  rewrite append_assoc.
  apply (includes_append_false P _ "%%START-"); [reflexivity | |].
  - apply (includes_append_last "E" "%%START-"); [reflexivity|].
    now apply (includes_key P "%%START-").
  - rewrite append_assoc, startBlock_shape. rewrite <- (append_assoc "%%" A).
    destruct (tokenOk_inv u token_ok) as [_ [c [u' [Eu Hc]]]].
    apply (includes_bracket "START-E").
    + now apply marker_body_free.
    + discriminate.
    + rewrite Eu, append_assoc.
      change "START-E" with ("START-" ++ "E").
      rewrite startsWith_cancel.
      change (String c u' ++ ("%%" ++ A) ++ "%%START-")
        with (String c (u' ++ ("%%" ++ A) ++ "%%START-")).
      now rewrite startsWith_cons, (hexDash_not_E c Hc).
    + apply (includes_append_last "E" "%%START-"); [reflexivity|].
      now apply (includes_key _ "%%START-").
Qed.

(** No opening of an end marker starts before the content-end marker. *)
Lemma no_end_key_before_endContent :
  includes ((P ++ mS ++ A ++ mSC ++ M) ++ "%%END") "%%END-" = false.
Proof.
  keys.
  rewrite !append_assoc.
  apply (includes_append_false P _ "%%STA"); [reflexivity | |].
  - now apply (includes_append_last "-" "%%END").
  - rewrite startBlock_shape. rewrite <- (append_assoc "%%" A).
    apply (includes_bracket "END-"); [now apply marker_body_free
      | discriminate | reflexivity |].
    apply (includes_append_false _ _ "%%STA"); [reflexivity | |].
    + now apply (includes_append_last "-" "%%END").
    + rewrite startContent_shape. rewrite <- (append_assoc "%%" M).
      apply (includes_bracket "END-"); [now apply marker_body_free
        | discriminate | reflexivity |].
      now apply (includes_append_last "-" "%%END").
Qed.

Lemma located_endContent :
  indexOf_nat doc mEC = Some (String.length (P ++ mS ++ A ++ mSC ++ M)).
Proof.
  keys.
  rewrite skeleton_at_endContent. apply indexOf_nat_located.
  apply (noneBefore_window _ _ "%%END" "%%END-" mEC);
    [reflexivity | reflexivity |].
  exact no_end_key_before_endContent.
Qed.

Lemma located_end :
  indexOf_nat doc mE
  = Some (String.length (P ++ mS ++ A ++ mSC ++ M ++ mEC ++ B)).
Proof.
  keys.
  rewrite skeleton_at_end. apply indexOf_nat_located.
  replace ((P ++ mS ++ A ++ mSC ++ M ++ mEC ++ B) ++ mE ++ T)
    with ((P ++ mS ++ A ++ mSC ++ M) ++ mEC ++ B ++ mE ++ T)
    by now rewrite !append_assoc.
  replace (String.length (P ++ mS ++ A ++ mSC ++ M ++ mEC ++ B))
    with (String.length (P ++ mS ++ A ++ mSC ++ M)
          + S (String.length ("%" ++ ("END-EXTRACTED-CONTENT-" ++ u)
                                  ++ "%%" ++ B)))%nat.
  2:{ unfold endContentMarker. rewrite !length_append.
      simpl String.length. lia. }
  destruct (tokenOk_inv u token_ok) as [_ [c [u' [Eu Hc]]]].
  apply noneBefore_append.
  - apply (noneBefore_window _ _ "%%END" "%%END-" mE);
      [reflexivity | reflexivity | exact no_end_key_before_endContent].
  - rewrite endContent_shape.
    change ("%%" ++ ("END-EXTRACTED-CONTENT-" ++ u) ++ "%%" ++ B ++ mE
                 ++ T)
      with (String "%" ("%" ++ ("END-EXTRACTED-CONTENT-" ++ u)
                            ++ "%%" ++ B ++ mE ++ T)).
    apply noneBefore_cons.
    + change (String "%" ("%" ++ ("END-EXTRACTED-CONTENT-" ++ u) ++ "%%"
                              ++ B ++ mE ++ T))
        with ("%%" ++ ("END-EXTRACTED-CONTENT-" ++ u) ++ "%%"
                   ++ B ++ mE ++ T).
      rewrite <- endContent_shape. now apply endContent_is_not_end.
    + replace ("%" ++ ("END-EXTRACTED-CONTENT-" ++ u) ++ "%%" ++ B ++ mE
                   ++ T)
        with (("%" ++ ("END-EXTRACTED-CONTENT-" ++ u) ++ "%%" ++ B)
              ++ mE ++ T) by now rewrite !append_assoc.
      apply (noneBefore_window _ _ "%%END" "%%END-" mE);
        [reflexivity | reflexivity |].
      replace (("%" ++ ("END-EXTRACTED-CONTENT-" ++ u) ++ "%%" ++ B)
               ++ "%%END")
        with ("%" ++ ("END-EXTRACTED-CONTENT-" ++ u) ++ ("%%" ++ B)
                  ++ "%%END") by now rewrite !append_assoc.
      apply (includes_bracket_tail "END-");
        [now apply marker_body_free | discriminate |].
      now apply (includes_append_last "-" "%%END").
Qed.

End Located.

(** ** Updating a well-formed document *)

Lemma of_nat_not_minus_one (n : nat) : (Z.of_nat n =? -1)%Z = false.
Proof. apply Z.eqb_neq. lia. Qed.

Ltac discharge H :=
  repeat match type of H with
         | ?X -> _ => specialize (H ltac:(assumption))
         end.

Section Splice.

Variables (env : Env) (fuel : nat) (item : ListyItem) (list : ListyList).
Variables (P u A M B T : string).

Hypothesis token_ok : tokenOk u = true.
Hypothesis header_free : markerFree P = true.
Hypothesis zoneA_safe : zoneSafe A = true.
Hypothesis machine_safe : zoneEndSafe M = true.
Hypothesis zoneB_safe : zoneEndSafe B = true.

Local Abbreviation doc := (skeleton P u A M B T).

Lemma updateExistingNote_intact (w : World) :
  updateExistingNote env fuel item list doc u w
  = andThen (generateItemContent env fuel item list w)
            (respliced env item list u A B).
Proof.
  pose proof (located_start P u A M B T) as HS.
  pose proof (located_startContent P u A M B T) as HSC.
  pose proof (located_endContent P u A M B T) as HEC.
  pose proof (located_end P u A M B T) as HE.
  discharge HS. discharge HSC. discharge HEC. discharge HE.
  unfold updateExistingNote.
  rewrite (includes_indexOf _ _ _ HS), (includes_indexOf _ _ _ HSC),
    (includes_indexOf _ _ _ HEC), (includes_indexOf _ _ _ HE).
  cbn [negb orb]. unfold bind, andThen.
  destruct (generateItemContent env fuel item list w)
    as [[[body item']|msg|] w']; try reflexivity.
  rewrite (indexOf_of_nat _ _ _ HS), (indexOf_of_nat _ _ _ HSC),
    (indexOf_of_nat _ _ _ HEC), (indexOf_of_nat _ _ _ HE).
  rewrite !of_nat_not_minus_one. cbn [orb].
  unfold ret, respliced. f_equal. f_equal.
  set (mS := startBlockMarker u). set (mSC := startContentMarker u).
  set (mEC := endContentMarker u). set (mE := endBlockMarker u).
  assert (HA : substring doc (Z.of_nat (String.length P) + len mS)
                 (Z.of_nat (String.length (P ++ mS ++ A))) = A).
  { replace doc with ((P ++ mS) ++ A ++ mSC ++ M ++ mEC ++ B ++ mE ++ T)
      by (unfold skeleton; now rewrite !append_assoc).
    apply substring_middle; unfold len; rewrite !length_append; lia. }
  assert (HB : substring doc
                 (Z.of_nat (String.length (P ++ mS ++ A ++ mSC ++ M))
                  + len mEC)
                 (Z.of_nat (String.length
                              (P ++ mS ++ A ++ mSC ++ M ++ mEC ++ B))
                  + len mE - len mE) = B).
  { replace doc with ((P ++ mS ++ A ++ mSC ++ M ++ mEC) ++ B ++ mE ++ T)
      by (unfold skeleton; now rewrite !append_assoc).
    apply substring_middle; unfold len; rewrite !length_append; lia. }
  rewrite HA, HB. unfold skeleton, framed. cbn [fst].
  now rewrite !append_assoc.
Qed.

(** A well-formed stored document is taken apart at its markers and put
    together again around the new header and the new body: token and both
    zones are the stored ones. *)
Lemma generateNoteContent_intact (w : World) :
  generateNoteContent env fuel item list (Some doc) w
  = andThen (generateItemContent env fuel item list w)
            (respliced env item list u A B).
Proof.
  pose proof (located_id P u A M B T) as Hid. discharge Hid.
  unfold generateNoteContent. rewrite Hid.
  destruct (skeleton P u A M B T) eqn:Ed; [discriminate Hid|].
  cbn [truthy String.eqb negb]. rewrite <- Ed.
  apply updateExistingNote_intact.
Qed.

End Splice.

(** ** Termination of the placeholder loop

    The loop of [applyTemplateTransformations] ends when the values it
    inserts are plain: every round removes at least the two opening braces of
    the placeholder it found. *)

Lemma countChar_append (c : ascii) (a b : string) :
  countChar c (a ++ b) = (countChar c a + countChar c b)%nat.
Proof.
  induction a as [|x a IH]; simpl; [reflexivity | rewrite IH; lia].
Qed.

Lemma countChar_take_drop (c : ascii) (n : nat) (s : string) :
  (countChar c (take n s) + countChar c (drop n s))%nat = countChar c s.
Proof. rewrite <- countChar_append. now rewrite take_drop. Qed.

Lemma countChar_drop_le (c : ascii) (n : nat) (s : string) :
  (countChar c (drop n s) <= countChar c s)%nat.
Proof. pose proof (countChar_take_drop c n s). lia. Qed.

Lemma countChar_absent (c : ascii) (s : string) :
  hasChar c s = false -> countChar c s = O.
Proof.
  induction s as [|x s IH]; simpl; [reflexivity|].
  intros H. apply orb_false_iff in H. destruct H as [Hx Hs].
  now rewrite Hx, IH.
Qed.

Lemma getSubstitution_plain (matched before after repl : string) :
  hasChar "$" repl = false ->
  getSubstitution matched before after repl = repl.
Proof.
  induction repl as [|c t IH]; simpl; [reflexivity|].
  intros H. apply orb_false_iff in H. destruct H as [Hc Ht].
  now rewrite Hc, IH.
Qed.

Section ReplaceCount.

Variables (m : matcher) (c : ascii) (v : string).

Hypothesis v_plain : hasChar "$" v = false.
Hypothesis v_free : hasChar c v = false.

Lemma replaceAll_go_count (s : string) :
  forall skip pre,
    (countChar c (replaceAll_go m v skip pre s)
     <= countChar c (drop skip s))%nat.
Proof.
  induction s as [|d s IH]; intros skip pre.
  - simpl. lia.
  - destruct skip as [|k].
    + change (drop 0 (String d s)) with (String d s).
      unfold replaceAll_go; fold replaceAll_go.
      destruct (m (String d s)) as [[|n]|].
      * simpl. specialize (IH O (pre ++ chr d)). simpl in IH. lia.
      * rewrite countChar_append, getSubstitution_plain by exact v_plain.
        rewrite (countChar_absent c v v_free).
        specialize (IH n (pre ++ chr d)).
        pose proof (countChar_drop_le c n s). simpl. lia.
      * simpl. specialize (IH O (pre ++ chr d)). simpl in IH. lia.
    + simpl. apply IH.
Qed.

(** Every match of the pattern holds the character at least twice. *)
Hypothesis heavy :
  forall s n, m s = Some n -> (2 <= countChar c (take n s))%nat.

Lemma replaceAll_go_decreases (s : string) :
  forall i n pre,
    m (drop i s) = Some n ->
    (countChar c (replaceAll_go m v O pre s) + 2 <= countChar c s)%nat.
Proof.
  induction s as [|d s IH]; intros i n pre Hi.
  - rewrite drop_empty in Hi. apply heavy in Hi.
    destruct n; simpl in Hi; lia.
  - unfold replaceAll_go; fold replaceAll_go.
    destruct (m (String d s)) as [[|n0]|] eqn:Em.
    + apply heavy in Em. simpl in Em. lia.
    + rewrite countChar_append, getSubstitution_plain by exact v_plain.
      rewrite (countChar_absent c v v_free).
      pose proof (replaceAll_go_count s n0 (pre ++ chr d)) as Hgo.
      pose proof (heavy _ _ Em) as Hheavy.
      pose proof (countChar_take_drop c (S n0) (String d s)) as Htd.
      change (drop (S n0) (String d s)) with (drop n0 s) in Htd.
      lia.
    + destruct i as [|i]; [simpl in Hi; congruence|].
      change (drop (S i) (String d s)) with (drop i s) in Hi.
      specialize (IH i n (pre ++ chr d) Hi). simpl. lia.
Qed.

End ReplaceCount.

Lemma toUpperChar_brace (a : ascii) :
  toUpperChar a = "{"%char -> a = "{"%char.
Proof.
  destruct a as [[] [] [] [] [] [] [] []]; intros H;
    solve [reflexivity | discriminate H].
Qed.

Lemma sameUpper_brace (a b : ascii) :
  Ascii.eqb (toUpperChar a) (toUpperChar b) = true ->
  Ascii.eqb b "{" = Ascii.eqb a "{".
Proof.
  intros H. apply ascii_eqb_true in H.
  destruct (Ascii.eqb a "{") eqn:Ea.
  - apply ascii_eqb_true in Ea. subst a.
    change (toUpperChar "{") with "{"%char in H. symmetry in H.
    apply toUpperChar_brace in H. subst b. reflexivity.
  - destruct (Ascii.eqb b "{") eqn:Eb; [|reflexivity].
    apply ascii_eqb_true in Eb. subst b.
    change (toUpperChar "{") with "{"%char in H.
    apply toUpperChar_brace in H. subst a. discriminate Ea.
Qed.

Lemma startsWithCI_braces (s p : string) :
  startsWithCI s p = true ->
  countChar "{" (take (String.length p) s) = countChar "{" p.
Proof.
  revert s. induction p as [|a p IH]; intros s H; [reflexivity|].
  destruct s as [|b s]; [discriminate|]. simpl in H.
  apply andb_true_iff in H. destruct H as [Hab Hp].
  simpl. now rewrite (IH s Hp), (sameUpper_brace a b Hab).
Qed.

Lemma litCI_heavy (g : string) (s : string) (n : nat) :
  litCI ("{{ATTR:" ++ g ++ "}}") s = Some n ->
  (2 <= countChar "{" (take n s))%nat.
Proof.
  unfold litCI.
  destruct (startsWithCI s ("{{ATTR:" ++ g ++ "}}")) eqn:E; [|discriminate].
  intros H. injection H as Hn.
  assert (Hb : countChar "{" (take n s)
               = countChar "{" ("{{ATTR:" ++ g ++ "}}")).
  { rewrite <- Hn. exact (startsWithCI_braces _ _ E). }
  rewrite Hb. simpl. lia.
Qed.

Lemma startsWithCI_exact (s p : string) :
  startsWith s p = true -> startsWithCI s p = true.
Proof.
  revert s. induction p as [|a p IH]; intros s H; [reflexivity|].
  destruct s as [|b s]; [discriminate|]. simpl in *.
  apply andb_true_iff in H. destruct H as [Hab Hp].
  apply ascii_eqb_true in Hab. subst b.
  now rewrite Ascii.eqb_refl, (IH s Hp).
Qed.

Lemma startsWithCI_append (s p q : string) :
  startsWithCI s p = true ->
  startsWithCI (drop (String.length p) s) q = true ->
  startsWithCI s (p ++ q) = true.
Proof.
  revert s. induction p as [|a p IH]; intros s Hp Hq.
  - simpl in *. now destruct s.
  - destruct s as [|b s]; [discriminate|]. simpl in *.
    apply andb_true_iff in Hp. destruct Hp as [Hab Hp].
    now rewrite Hab, (IH s Hp Hq).
Qed.

Lemma startsWith_take_then (k : nat) (r post : string) :
  startsWith (drop k r) post = true ->
  startsWith r (take k r ++ post) = true.
Proof.
  revert r. induction k as [|k IH]; intros r H.
  - now destruct r.
  - destruct r as [|x r]; [exact H|]. simpl in *.
    now rewrite Ascii.eqb_refl, (IH r H).
Qed.

Lemma drop_drop (n k : nat) (s : string) :
  drop k (drop n s) = drop (n + k) s.
Proof.
  revert s. induction n as [|n IH]; intros s; [reflexivity|].
  destruct s as [|x s]; [now rewrite !drop_empty | apply IH].
Qed.

Lemma findFirst_some (m : matcher) (s : string) (i n : nat) :
  findFirst m s = Some (i, n) -> m (drop i s) = Some n.
Proof.
  revert i. induction s as [|x s IH]; intros i H; simpl in H.
  - destruct (m EmptyString) eqn:E; [|discriminate].
    injection H as <- <-. exact E.
  - destruct (m (String x s)) eqn:E.
    + injection H as <- <-. exact E.
    + destruct (findFirst m s) as [[j k]|] eqn:Ef; [|discriminate].
      injection H as <- <-. now apply IH.
Qed.

(** What [attrRegex] matched is the placeholder written with the name it
    captured. *)
Lemma attrRegex_placeholder (t : string) (n : nat) :
  attrRegex t = Some n ->
  litCI ("{{ATTR:" ++ take (n - 9) (drop 7 t) ++ "}}") t
  = Some (String.length ("{{ATTR:" ++ take (n - 9) (drop 7 t) ++ "}}")).
Proof.
  unfold attrRegex, bracketed, litCI.
  destruct (startsWithCI t "{{ATTR:") eqn:Epre; [|discriminate].
  change (String.length "{{ATTR:") with 7%nat.
  destruct (run isWord (drop 7 t)) as [|k] eqn:Erun; [discriminate|].
  destruct (startsWith (drop (S k) (drop 7 t)) "}}") eqn:Epost;
    [|discriminate].
  intros H. injection H as Hn.
  replace (n - 9)%nat with (S k) by (simpl in Hn; lia).
  rewrite (startsWithCI_append t "{{ATTR:" _ Epre); [reflexivity|].
  apply startsWithCI_exact.
  exact (startsWith_take_then (S k) (drop 7 t) "}}" Epost).
Qed.

Lemma valueOrEmpty_plain (name : string) (attrs : list ListyAttribute) :
  (forall a, In a attrs -> plainValue (attr_value a) = true) ->
  plainValue (valueOrEmpty (findAttr name attrs)) = true.
Proof.
  intros H. unfold findAttr.
  destruct (find _ attrs) as [a|] eqn:E; [|reflexivity].
  apply find_some in E. apply H. exact (proj1 E).
Qed.

Lemma attrLoop_terminates (attrs : list ListyAttribute) :
  (forall a, In a attrs -> plainValue (attr_value a) = true) ->
  forall fuel result lastIndex,
    (countChar "{" result < 2 * fuel)%nat ->
    exists r, attrLoop fuel attrs result lastIndex = Some r.
Proof.
  intros Hplain. induction fuel as [|fuel IH]; intros result lastIndex Hc.
  - lia.
  - simpl. destruct (execFrom attrRegex result lastIndex) as [[idx n]|] eqn:E;
      [|eexists; reflexivity].
    apply IH.
    unfold execFrom in E.
    destruct (String.length result <? lastIndex)%nat; [discriminate|].
    destruct (findFirst attrRegex (drop lastIndex result)) as [[i k]|] eqn:Ef;
      [|discriminate].
    injection E as <- <-. apply findFirst_some in Ef.
    rewrite drop_drop in Ef. apply attrRegex_placeholder in Ef.
    rewrite drop_drop in Ef.
    set (group1 := take (k - 9) (drop (lastIndex + i + 7) result)) in *.
    pose proof (valueOrEmpty_plain (toUpperCase group1) attrs Hplain) as Hv.
    unfold plainValue in Hv. apply andb_true_iff in Hv.
    destruct Hv as [Hbrace Hdollar].
    apply negb_true_iff in Hbrace. apply negb_true_iff in Hdollar.
    pose proof (replaceAll_go_decreases
                  (litCI ("{{ATTR:" ++ group1 ++ "}}")) "{"
                  (valueOrEmpty (findAttr (toUpperCase group1) attrs))
                  Hdollar Hbrace (litCI_heavy group1)
                  result (lastIndex + i) _ EmptyString Ef) as Hdec.
    unfold replaceAll. simpl append in Hdec. lia.
Qed.

(** With plain attribute values the body is rendered as soon as the fuel
    covers the braces of the template after its fixed placeholders have been
    replaced. *)
Lemma applyTemplateTransformations_returns (rawTemplate : string)
    (item : ListyItem) (list : ListyList) :
  (forall attrs a,
     item_attributes item = Some attrs -> In a attrs ->
     plainValue (attr_value a) = true) ->
  exists fuel0,
    forall fuel, (fuel0 <= fuel)%nat ->
      exists body,
        applyTemplateTransformations fuel rawTemplate item list = Some body.
Proof.
  intros Hplain. unfold applyTemplateTransformations.
  destruct (item_attributes item) as [[|a attrs]|] eqn:Eattrs;
    try (exists O; intros fuel _; eexists; reflexivity).
  match goal with
  | |- context [attrLoop _ _ ?r _] =>
      exists (S (countChar "{" r)); intros fuel Hfuel;
      destruct (attrLoop_terminates (a :: attrs)
                  (fun x Hx => Hplain _ x eq_refl Hx) fuel r O) as [res Hres];
      [lia | rewrite Hres; eexists; reflexivity]
  end.
Qed.

(** ** A template and an entry for which the loop does not end

    The value of the attribute brings its own placeholder back, ten
    characters further on: each round finds it again. *)

Lemma xs_append (n k : nat) : xs n ++ xs k = xs (n + k).
Proof. induction n as [|n IH]; simpl; [reflexivity | now rewrite IH]. Qed.

Lemma length_xs (n : nat) : String.length (xs n) = n.
Proof. induction n as [|n IH]; simpl; [reflexivity | now rewrite IH]. Qed.

Lemma drop_xs (l n : nat) (s : string) :
  (l <= n)%nat -> drop l (xs n ++ s) = xs (n - l) ++ s.
Proof.
  revert n. induction l as [|l IH]; intros n Hl.
  - now rewrite Nat.sub_0_r.
  - destruct n as [|n]; [lia|]. simpl. apply IH. lia.
Qed.

Lemma findFirst_after_xs (j : nat) :
  findFirst attrRegex (xs j ++ "{{ATTR:a}}") = Some (j, 10%nat).
Proof.
  induction j as [|j IH]; [reflexivity|].
  change (xs (S j) ++ "{{ATTR:a}}") with (String "x" (xs j ++ "{{ATTR:a}}")).
  unfold findFirst; fold findFirst. now rewrite IH.
Qed.

Lemma replaceAll_after_xs (v : string) (n : nat) :
  hasChar "$" v = false ->
  forall pre,
    replaceAll_go (litCI "{{ATTR:a}}") v O pre (xs n ++ "{{ATTR:a}}")
    = xs n ++ v.
Proof.
  intros Hv. induction n as [|n IH]; intros pre.
  - simpl. rewrite getSubstitution_plain by exact Hv.
    now rewrite append_empty_r.
  - change (xs (S n) ++ "{{ATTR:a}}")
      with (String "x" (xs n ++ "{{ATTR:a}}")).
    unfold replaceAll_go; fold replaceAll_go.
    change (litCI "{{ATTR:a}}" (String "x" (xs n ++ "{{ATTR:a}}")))
      with (@None nat).
    now rewrite IH.
Qed.

Lemma attrLoop_runs_on (fuel : nat) :
  forall n l, (l <= n)%nat ->
    attrLoop fuel [ {| attr_key := "a";
                       attr_value := "xxxxxxxxxx{{ATTR:a}}" |} ]
             (xs n ++ "{{ATTR:a}}") l = None.
Proof.
  induction fuel as [|fuel IH]; intros n l Hl; [reflexivity|].
  unfold attrLoop; fold attrLoop. unfold execFrom.
  rewrite length_append, length_xs.
  replace (n + String.length "{{ATTR:a}}" <? l)%nat with false
    by (symmetry; apply Nat.ltb_ge; lia).
  rewrite (drop_xs l n _ Hl), findFirst_after_xs.
  replace (l + (n - l))%nat with n by lia.
  replace (drop (n + 7) (xs n ++ "{{ATTR:a}}")) with "a}}".
  2:{ rewrite <- (length_xs n) at 1. now rewrite drop_append_plus. }
  change (take (10 - 9) "a}}") with "a".
  change (valueOrEmpty (findAttr (toUpperCase "a") _))
    with "xxxxxxxxxx{{ATTR:a}}".
  unfold replaceAll.
  change ("{{ATTR:" ++ "a" ++ "}}") with "{{ATTR:a}}".
  rewrite (replaceAll_after_xs "xxxxxxxxxx{{ATTR:a}}" n eq_refl).
  change "xxxxxxxxxx{{ATTR:a}}" with (xs 10 ++ "{{ATTR:a}}").
  rewrite <- append_assoc, xs_append.
  apply IH. lia.
Qed.

(** Whatever the fuel, the body of this entry is not rendered. *)
Lemma applyTemplateTransformations_may_not_return (fuel : nat) :
  applyTemplateTransformations fuel "{{ATTR:a}}" selfFeeding
    (collection "Reading" "Books" None) = None.
Proof.
  change (applyTemplateTransformations fuel "{{ATTR:a}}" selfFeeding
            (collection "Reading" "Books" None))
    with (match attrLoop fuel
                  [ {| attr_key := "a";
                       attr_value := "xxxxxxxxxx{{ATTR:a}}" |} ]
                  (xs 0 ++ "{{ATTR:a}}") 0
          with
          | Some result => Some (trim result)
          | None => None
          end).
  now rewrite attrLoop_runs_on.
Qed.

(** ** The body renderer and the world *)

Lemma generateItemContent_transfer (env : Env) (fuel : nat)
    (item : ListyItem) (list : ListyList) (w1 w2 : World)
    (r : Outcome (string * ListyItem)) :
  getTemplateContents env (templateFile (settings env)) w2
  = getTemplateContents env (templateFile (settings env)) w1 ->
  generateItemContent env fuel item list w1 = (r, w1) ->
  generateItemContent env fuel item list w2 = (r, w2).
Proof.
  unfold generateItemContent, bind, get_world. intros ->.
  destruct (applyTemplateTransformations _ _ _ _);
    unfold ret, outOfFuel; intros H; injection H as <-; reflexivity.
Qed.

Lemma generateNoteContent_new_run (env : Env) (fuel : nat)
    (item : ListyItem) (list : ListyList) (w : World) (body : string)
    (item' : ListyItem) :
  generateItemContent env fuel item list w = (Ok (body, item'), w) ->
  generateNoteContent_new env fuel item list w
  = (Ok (skeleton (generateFrontmatter env item list)
                  (entropy w (minted w)) placeholderZone (framed body)
                  placeholderZone NL, item'),
     afterMint w).
Proof.
  intros Hbody. unfold generateNoteContent_new, bind, uuidv4.
  fold (afterMint w).
  rewrite (generateItemContent_transfer env fuel item list w (afterMint w)
             _ eq_refl Hbody).
  unfold ret, skeleton, placeholderZone, framed, startBlockMarker,
    endBlockMarker, startContentMarker, endContentMarker.
  now rewrite !append_assoc.
Qed.

Lemma framed_safe (body : string) :
  endMarkerFree body = true -> zoneEndSafe (framed body) = true.
Proof.
  unfold endMarkerFree, zoneEndSafe. intros H. apply negb_true_iff in H.
  apply negb_true_iff. unfold framed, NL, chr.
  change ("%%" ++ String "010" "" ++ String "010" ""
               ++ body ++ String "010" "" ++ String "010" "")
    with (String "%" (String "%" (String "010" (String "010"
            (body ++ String "010" (String "010" "")))))).
  rewrite !includes_cons.
  pose proof (includes_append_last "-" "%%END" body
                (String "010" (String "010" "")) eq_refl H) as Hend.
  change ("%%END" ++ chr "-") with "%%END-" in Hend.
  rewrite Hend. reflexivity.
Qed.


(** ** Idempotence of the merge *)



(** ** Text before the first brace of a template *)

Lemma litCI_brace (p : string) : startsWith p "{" = true ->
  startsAtBrace (litCI p).
Proof.
  intros Hp t Ht. unfold litCI.
  destruct p as [|a p]; [discriminate|].
  change (Ascii.eqb "{" a && true = true) in Hp.
  apply andb_true_iff in Hp. destruct Hp as [Ha _].
  apply ascii_eqb_true in Ha. subst a.
  destruct t as [|b t]; [reflexivity|].
  change (startsWithCI (String b t) (String "{" p))
    with (Ascii.eqb (toUpperChar "{") (toUpperChar b) && startsWithCI t p).
  destruct (Ascii.eqb (toUpperChar "{") (toUpperChar b)) eqn:E;
    [|reflexivity].
  apply sameUpper_brace in E.
  change (Ascii.eqb "{" b && true = false) in Ht.
  rewrite Ascii.eqb_sym, E in Ht. discriminate.
Qed.

Lemma attrRegex_brace : startsAtBrace attrRegex.
Proof.
  intros t Ht. unfold attrRegex, bracketed.
  pose proof (litCI_brace "{{ATTR:" eq_refl t Ht) as H.
  unfold litCI in H. now destruct (startsWithCI t "{{ATTR:").
Qed.

Lemma replaceAll_go_skip (m : matcher) (r a : string) :
  forall pre y,
    replaceAll_go m r (String.length a) pre (a ++ y)
    = replaceAll_go m r O (pre ++ a) y.
Proof.
  induction a as [|c a IH]; intros pre y.
  - now rewrite append_empty_r.
  - change (replaceAll_go m r (String.length a) (pre ++ chr c) (a ++ y)
            = replaceAll_go m r O (pre ++ String c a) y).
    rewrite IH, append_assoc. reflexivity.
Qed.

Lemma replaceAll_go_prefix (m : matcher) (r x : string) :
  startsAtBrace m -> hasChar "{" x = false ->
  forall pre y,
    replaceAll_go m r O pre (x ++ y)
    = x ++ replaceAll_go m r O (pre ++ x) y.
Proof.
  intros Hm. induction x as [|c x IH]; intros Hx pre y.
  - now rewrite append_empty_r.
  - simpl in Hx. apply orb_false_iff in Hx. destruct Hx as [Hc Hx].
    change (String c x ++ y) with (String c (x ++ y)).
    unfold replaceAll_go; fold replaceAll_go.
    rewrite (Hm (String c (x ++ y))).
    + rewrite (IH Hx), append_assoc. reflexivity.
    + change (Ascii.eqb "{" c && true = false).
      now rewrite Ascii.eqb_sym, Hc.
Qed.

Lemma replaceAll_go_match (m : matcher) (r pre : string) (c : ascii)
    (y : string) (n : nat) :
  m (String c y) = Some (S n) ->
  replaceAll_go m r O pre (String c y)
  = getSubstitution (take (S n) (String c y)) pre (drop (S n) (String c y)) r
    ++ replaceAll_go m r n (pre ++ chr c) y.
Proof.
  intros H. unfold replaceAll_go; fold replaceAll_go. now rewrite H.
Qed.

(** A replacement keeps what stands before the first brace. *)
Lemma startsWith_replaceAll (m : matcher) (r x s : string) :
  startsAtBrace m -> hasChar "{" x = false ->
  startsWith s x = true -> startsWith (replaceAll m r s) x = true.
Proof.
  intros Hm Hx Hs. apply startsWith_inv in Hs. rewrite Hs.
  unfold replaceAll. rewrite (replaceAll_go_prefix m r x Hm Hx).
  apply startsWith_append.
Qed.

Lemma startsWith_attrLoop (attrs : list ListyAttribute) (x : string) :
  hasChar "{" x = false ->
  forall fuel result lastIndex r,
    attrLoop fuel attrs result lastIndex = Some r ->
    startsWith result x = true -> startsWith r x = true.
Proof.
  intros Hx. induction fuel as [|fuel IH]; intros result lastIndex r H Hs;
    [discriminate|].
  simpl in H.
  destruct (execFrom attrRegex result lastIndex) as [[idx n]|].
  - apply IH in H; [exact H|].
    apply startsWith_replaceAll; [|exact Hx|exact Hs].
    now apply litCI_brace.
  - now injection H as <-.
Qed.

Lemma trimEnd_prefix (a b : string) :
  endsClean a = true -> a <> EmptyString ->
  exists z, trimEnd (a ++ b) = a ++ z.
Proof.
  induction a as [|c a IH]; intros He Hne; [contradiction|].
  destruct a as [|d a].
  - simpl in He. apply negb_true_iff in He.
    exists (trimEnd b). simpl. now rewrite He.
  - destruct IH as [z Hz]; [exact He | discriminate|].
    exists z.
    change (trimEnd (String c (String d a ++ b)) = String c (String d a ++ z)).
    unfold trimEnd; fold trimEnd. rewrite Hz.
    now rewrite andb_false_r.
Qed.

Lemma startsWith_trim (x s : string) :
  startsClean x = true -> endsClean x = true -> x <> EmptyString ->
  startsWith s x = true -> startsWith (trim s) x = true.
Proof.
  intros Hc He Hne Hs. apply startsWith_inv in Hs. rewrite Hs.
  unfold trim. rewrite trimStart_clean.
  - destruct (trimEnd_prefix x (drop (String.length x) s) He Hne) as [z Hz].
    rewrite Hz. apply startsWith_append.
  - destruct x as [|c x]; [contradiction | exact Hc].
Qed.

(** The first lines of a body rendered from the built-in template. *)
Lemma title_replaced (title : string) :
  hasChar "$" title = false ->
  startsWith (replaceAll (litCI "{{Title}}") title DEFAULT_TEMPLATE)
             ("# " ++ title ++ NL ++ NL ++ "[Visit Original Source](")
  = true.
Proof.
  intros Hd.
  set (tail := "{{URL}})" ++ NL ++ NL ++ "## Description" ++ NL ++ NL
               ++ "{{Description}}" ++ NL ++ NL
               ++ "![Cover Image]({{Cover}})" ++ NL ++ NL ++ "## Notes"
               ++ NL ++ NL ++ "{{UserNote}}").
  change DEFAULT_TEMPLATE
    with ("# " ++ String "{" ("{Title}}"
            ++ (NL ++ NL ++ "[Visit Original Source](") ++ tail)).
  unfold replaceAll.
  rewrite (replaceAll_go_prefix _ _ "# " (litCI_brace "{{Title}}" eq_refl)
             eq_refl).
  assert (Hm : litCI "{{Title}}"
                 (String "{" ("{Title}}"
                    ++ (NL ++ NL ++ "[Visit Original Source](") ++ tail))
               = Some 9%nat) by reflexivity.
  rewrite (replaceAll_go_match _ title _ _ _ _ Hm).
  rewrite getSubstitution_plain by exact Hd.
  change 8%nat with (String.length "{Title}}") at 1.
  rewrite replaceAll_go_skip.
  rewrite (replaceAll_go_prefix _ _ (NL ++ NL ++ "[Visit Original Source](")
             (litCI_brace "{{Title}}" eq_refl) eq_refl).
  rewrite !startsWith_cancel. rewrite <- !append_assoc.
  apply startsWith_append.
Qed.

Lemma applyTemplateTransformations_heading (fuel : nat) (item : ListyItem)
    (list : ListyList) (body : string) :
  plainValue (item_title item) = true ->
  applyTemplateTransformations fuel DEFAULT_TEMPLATE item list = Some body ->
  startsWith body ("# " ++ item_title item ++ NL) = true.
Proof.
  intros Hplain. unfold plainValue in Hplain.
  apply andb_true_iff in Hplain. destruct Hplain as [Hb Hd].
  apply negb_true_iff in Hb. apply negb_true_iff in Hd.
  set (x := "# " ++ item_title item ++ NL ++ NL
            ++ "[Visit Original Source](").
  assert (Hx : hasChar "{" x = false).
  { unfold x. rewrite !hasChar_append, Hb. reflexivity. }
  assert (Hkeep : forall s, startsWith s x = true ->
                    startsWith (trim s) x = true).
  { intros s. apply startsWith_trim; [reflexivity| |discriminate].
    unfold x. rewrite <- !append_assoc.
    rewrite endsClean_append by discriminate. reflexivity. }
  intros H.
  assert (Hbody : startsWith body x = true).
  { unfold applyTemplateTransformations in H.
    pose proof (title_replaced (item_title item) Hd) as H0. fold x in H0.
    destruct (item_attributes item) as [[|a attrs]|].
    - injection H as <-. apply Hkeep.
      repeat first
        [ exact H0
        | apply startsWith_replaceAll;
          [first [apply attrRegex_brace | now apply litCI_brace]
          |exact Hx|] ].
    - destruct (attrLoop _ _ _ _) as [result|] eqn:Eloop; [|discriminate].
      injection H as <-. apply Hkeep.
      apply (startsWith_attrLoop _ x Hx _ _ _ _ Eloop).
      repeat first
        [ exact H0
        | apply startsWith_replaceAll;
          [now apply litCI_brace|exact Hx|] ].
    - injection H as <-. apply Hkeep.
      repeat first
        [ exact H0
        | apply startsWith_replaceAll;
          [first [apply attrRegex_brace | now apply litCI_brace]
          |exact Hx|] ]. }
  apply (startsWith_key body ("# " ++ item_title item ++ NL) x);
    [|exact Hbody].
  unfold x. rewrite <- !append_assoc.
  rewrite (append_assoc _ NL). apply startsWith_append.
Qed.

(** ** User comments across a re-import *)

(** C2, as the code has it.  The stored document is one the engine wrote
    for an earlier state of the entry: its header and its body hold no
    opening of a marker that would be found first, and the texts [A] and [B]
    stand in its two zones; neither text, read after the marker that precedes
    it, opens a marker.  When the body of the changed entry is rendered, the
    merge returns the header and the body rendered for the changed entry
    around the stored token and the two texts, unchanged.  The header does
    not depend on the title of the entry.  With the built-in template the
    body begins with the title as [generateItemContent] sanitizes and cuts
    it, when that title holds neither a brace nor a dollar sign. *)
Theorem comments_survive_reimport (env : Env) (fuel : nat)
    (oldItem item : ListyItem) (list : ListyList)
    (u A B oldBody body : string) (item1 : ListyItem) (w : World) :
  tokenOk u = true ->
  markerFree (generateFrontmatter env oldItem list) = true ->
  endMarkerFree oldBody = true ->
  zoneSafe A = true ->
  zoneEndSafe B = true ->
  generateItemContent env fuel item list w = (Ok (body, item1), w) ->
  generateNoteContent env fuel item list
    (Some (skeleton (generateFrontmatter env oldItem list) u A
                    (framed oldBody) B NL)) w
  = (Ok (skeleton (generateFrontmatter env item list) u A (framed body) B NL,
         item1), w)
  /\ (forall t, generateFrontmatter env (withTitle item t) list
                = generateFrontmatter env item list)
  /\ (getTemplateContents env (templateFile (settings env)) w
      = DEFAULT_TEMPLATE ->
      plainValue (templateTitle env (item_title item)) = true ->
      startsWith body ("# " ++ templateTitle env (item_title item) ++ NL)
      = true).
Proof.
  intros Hu Hfm Hold HA HB Hbody. split; [|split; [reflexivity|]].
  - rewrite generateNoteContent_intact; try assumption.
    + now rewrite Hbody.
    + now apply framed_safe.
  - intros Htpl Hplain.
    unfold generateItemContent, bind, get_world in Hbody.
    rewrite Htpl in Hbody. fold (templateTitle env (item_title item)) in Hbody.
    destruct (applyTemplateTransformations fuel DEFAULT_TEMPLATE _ list)
      as [content|] eqn:E; [|discriminate Hbody].
    injection Hbody as <- _.
    exact (applyTemplateTransformations_heading fuel
             (withTitle
                (withAttributes item
                   (option_map (rewriteDescriptions env)
                               (item_attributes item)))
                (templateTitle env (item_title item)))
             list content Hplain E).
Qed.

(** C2 as it is worded fails three times.  The header of the result does
    not hold the new title.  A text that holds the content-start marker is
    not kept: what stood after that marker in the zone is gone.  And a new
    title that reads as a replacement pattern is in the body neither: the
    title is the replacement text of the title placeholder, where a dollar
    sign followed by an ampersand stands for the placeholder itself. *)
Lemma new_title_not_in_header_and_marker_text_lost :
  let list := collection "Reading" "Books" None in
  let w := worldWith [] in
  let prior (A : string) :=
    skeleton (generateFrontmatter sampleEnv (book "1984") list) "3f2a-01"
      A (framed "# 1984") (NL ++ "second note" ++ NL) NL in
  (exists header rest item',
     generateNoteContent sampleEnv 1 (book "Animal Farm") list
       (Some (prior (NL ++ "first note" ++ NL))) w
     = (Ok (header ++ "%%START-3f2a-01%%" ++ rest, item'), w)
     /\ includes rest "# Animal Farm" = true
     /\ includes header "Animal Farm" = false)
  /\ (exists doc item',
        generateNoteContent sampleEnv 1 (book "Animal Farm") list
          (Some (prior (NL ++ "%%START-EXTRACTED-CONTENT-3f2a-01%%"
                           ++ "first note" ++ NL))) w
        = (Ok (doc, item'), w)
        /\ includes doc "first note" = false)
  /\ (exists doc item',
        generateNoteContent sampleEnv 1 (book "$&") list
          (Some (prior (NL ++ "first note" ++ NL))) w
        = (Ok (doc, item'), w)
        /\ includes doc "# {{Title}}" = true
        /\ includes doc "$&" = false).
Proof.
  split; [|split].
  - exists (generateFrontmatter sampleEnv (book "Animal Farm")
              (collection "Reading" "Books" None)).
    do 2 eexists. split; [|split].
    + vm_compute. reflexivity.
    + vm_compute. reflexivity.
    + vm_compute. reflexivity.
  - do 2 eexists. split; [vm_compute; reflexivity|].
    vm_compute. reflexivity.
  - do 2 eexists. split; [vm_compute; reflexivity|].
    split; vm_compute; reflexivity.
Qed.

(** ** Fallback to regeneration *)

(** The body of an entry with plain attribute values is rendered as soon as
    the fuel suffices; the values are read after the [description] has been
    rewritten. *)
Lemma generateItemContent_returns (env : Env) (item : ListyItem)
    (list : ListyList) (w : World) :
  (forall attrs a,
     item_attributes item = Some attrs ->
     In a (rewriteDescriptions env attrs) ->
     plainValue (attr_value a) = true) ->
  exists fuel0,
    forall fuel, (fuel0 <= fuel)%nat ->
      exists body,
        generateItemContent env fuel item list w
        = (Ok (body,
               withAttributes item
                 (option_map (rewriteDescriptions env)
                             (item_attributes item))), w).
Proof.
  intros Hplain. unfold generateItemContent, bind, get_world.
  match goal with
  | |- context [applyTemplateTransformations _ ?tpl ?it list] =>
      destruct (applyTemplateTransformations_returns tpl it list)
        as [fuel0 Hfuel]
  end.
  - intros attrs a Hattrs Ha. simpl in Hattrs.
    destruct (item_attributes item) as [attrs0|] eqn:E; [|discriminate].
    simpl in Hattrs. injection Hattrs as <-.
    exact (Hplain attrs0 a eq_refl Ha).
  - exists fuel0. intros fuel Hge. destruct (Hfuel fuel Hge) as [body Hbody].
    exists body. now rewrite Hbody.
Qed.

Lemma extractItemId_truthy (content token : string) :
  extractItemId content = Some token -> truthy content = true.
Proof. destruct content; [discriminate | reflexivity]. Qed.

(** C3.  When the first outer-start marker of the stored document carries
    the token [token] and one of the two content markers of that token is
    missing, the merge does what it does without a stored document: it mints
    a token and, the body once rendered, returns the header, the new markers
    and the placeholder in both zones.  No error is thrown on the way, and
    with plain attribute values the document is returned as soon as the fuel
    suffices. *)
Theorem missing_content_marker_regenerates (env : Env) (item : ListyItem)
    (list : ListyList) (content token : string) (w : World) :
  extractItemId content = Some token ->
  includes content (startContentMarker token) = false
  \/ includes content (endContentMarker token) = false ->
  (forall fuel,
     generateNoteContent env fuel item list (Some content) w
     = generateNoteContent env fuel item list None w)
  /\ (forall fuel msg,
        fst (generateNoteContent env fuel item list (Some content) w)
        <> Throw msg)
  /\ (forall fuel body item',
        generateItemContent env fuel item list w = (Ok (body, item'), w) ->
        generateNoteContent env fuel item list (Some content) w
        = (Ok (skeleton (generateFrontmatter env item list)
                        (entropy w (minted w)) placeholderZone
                        (framed body) placeholderZone NL, item'),
           afterMint w))
  /\ ((forall attrs a,
         item_attributes item = Some attrs ->
         In a (rewriteDescriptions env attrs) ->
         plainValue (attr_value a) = true) ->
      exists fuel0,
        forall fuel, (fuel0 <= fuel)%nat ->
          exists body item',
            generateNoteContent env fuel item list (Some content) w
            = (Ok (skeleton (generateFrontmatter env item list)
                            (entropy w (minted w)) placeholderZone
                            (framed body) placeholderZone NL, item'),
               afterMint w)).
Proof.
  intros Hid Hmissing.
  assert (Hnew : forall fuel,
            generateNoteContent env fuel item list (Some content) w
            = generateNoteContent_new env fuel item list w).
  { intros fuel. unfold generateNoteContent.
    rewrite (extractItemId_truthy _ _ Hid), Hid.
    unfold updateExistingNote.
    destruct Hmissing as [-> | ->]; cbn [negb]; now rewrite !orb_true_r. }
  assert (Hdoc : forall fuel body item',
            generateItemContent env fuel item list w = (Ok (body, item'), w) ->
            generateNoteContent env fuel item list (Some content) w
            = (Ok (skeleton (generateFrontmatter env item list)
                            (entropy w (minted w)) placeholderZone
                            (framed body) placeholderZone NL, item'),
               afterMint w)).
  { intros fuel body item' Hbody. rewrite Hnew.
    now apply generateNoteContent_new_run. }
  split; [exact Hnew|split; [|split; [exact Hdoc|]]].
  - intros fuel msg. apply neverThrows_generateNoteContent.
  - intros Hplain.
    destruct (generateItemContent_returns env item list w Hplain)
      as [fuel0 Hfuel].
    exists fuel0. intros fuel Hge. destruct (Hfuel fuel Hge) as [body Hbody].
    eexists. eexists. apply Hdoc. exact Hbody.
Qed.

(** ** The consolidated document *)

Lemma createConsolidatedToDoList_existing (env : Env) (list : ListyList)
    (folderPath : string) (w : World) (content : string)
    (items : Datatypes.list ListyItem) :
  adapter_read w
    (normalizePath env
       (folderPath ++ "/" ++ sanitizeFileName env (list_title list)
                   ++ ".md"))
  = Some content ->
  truthy content = true ->
  enableNoteLocking (settings env) && lockMatch content = false ->
  list_items list = Some items ->
  createConsolidatedToDoList env list folderPath w
  = (Ok tt,
     afterWrite w
       (normalizePath env
          (folderPath ++ "/" ++ sanitizeFileName env (list_title list)
                      ++ ".md"))
       (consolidatedContent list items (parseExistingTasks content)
                            (extractItemId content))).
Proof.
  intros Hread Htruthy Hlock Hitems.
  unfold createConsolidatedToDoList, bind, get_world.
  rewrite Hread, Htruthy, Hitems.
  destruct (enableNoteLocking (settings env)); simpl in Hlock;
    [rewrite Hlock|]; reflexivity.
Qed.

(** C8 fails on the code.  The stored consolidated document carries the
    token [3f2a-01] and a note of the user in each zone; after the list is
    imported again the token is the same and both notes are gone, the
    placeholder standing in their place. *)
Theorem consolidated_zones_are_overwritten :
  let list := collection "Chores" "Tasks" (Some [task "milk" false]) in
  let stored :=
    skeleton (consolidatedHeader list) "3f2a-01"
      (NL ++ NL ++ "my own note" ++ NL ++ NL)
      (NL ++ NL ++ "- [ ] milk" ++ NL ++ NL)
      (NL ++ NL ++ "another note" ++ NL ++ NL) NL in
  exists w',
    createConsolidatedToDoList sampleEnv list "Listy"
      (worldWith [("Listy/Chores.md", stored)]) = (Ok tt, w')
    /\ exists doc,
         adapter_read w' "Listy/Chores.md" = Some doc
         /\ extractItemId doc = Some "3f2a-01"
         /\ includes doc "my own note" = false
         /\ includes doc "another note" = false
         /\ doc = skeleton (consolidatedHeader list) "3f2a-01"
                    placeholderZone
                    (NL ++ NL ++ "- [ ] milk" ++ NL ++ NL)
                    placeholderZone NL.
Proof.
  eexists. split; [vm_compute; reflexivity|].
  eexists. split; [vm_compute; reflexivity|].
  repeat split; vm_compute; reflexivity.
Qed.

(** C10, as the code has it.  When the stored consolidated document is not
    empty, holds no match of the outer-start pattern and is not passed over
    by the lock rule, the document is written and its four markers carry
    [null] where the token goes. *)
Theorem consolidated_null_token (env : Env) (list : ListyList)
    (folderPath : string) (w : World) (content : string)
    (items : Datatypes.list ListyItem) :
  adapter_read w
    (normalizePath env
       (folderPath ++ "/" ++ sanitizeFileName env (list_title list)
                   ++ ".md"))
  = Some content ->
  truthy content = true ->
  extractItemId content = None ->
  enableNoteLocking (settings env) && lockMatch content = false ->
  list_items list = Some items ->
  createConsolidatedToDoList env list folderPath w
  = (Ok tt,
     afterWrite w
       (normalizePath env
          (folderPath ++ "/" ++ sanitizeFileName env (list_title list)
                      ++ ".md"))
       (consolidatedHeader list
        ++ "%%START-null%%" ++ placeholderZone
        ++ "%%START-EXTRACTED-CONTENT-null%%"
        ++ NL ++ NL
        ++ concatAll (map (taskLine (parseExistingTasks content)) items)
        ++ NL
        ++ "%%END-EXTRACTED-CONTENT-null%%" ++ placeholderZone
        ++ "%%END-null%%" ++ NL)).
Proof.
  intros Hread Htruthy Hid Hlock Hitems.
  rewrite (createConsolidatedToDoList_existing env list folderPath w content
             items Hread Htruthy Hlock Hitems).
  rewrite Hid, consolidatedContent_skeleton.
  unfold skeleton, idText, startBlockMarker, endBlockMarker,
    startContentMarker, endContentMarker.
  now rewrite !append_assoc.
Qed.

(** C10 as it is worded fails: an empty stored document exists and holds no
    match of the pattern, and the document written over it carries a freshly
    minted token, not [null]. *)
Lemma empty_document_gets_fresh_token :
  let list := collection "Chores" "Tasks" (Some [task "milk" false]) in
  let w := worldWith [("Listy/Chores.md", EmptyString)] in
  adapter_read w "Listy/Chores.md" = Some EmptyString
  /\ extractItemId EmptyString = None
  /\ exists w' doc,
       createConsolidatedToDoList sampleEnv list "Listy" w = (Ok tt, w')
       /\ adapter_read w' "Listy/Chores.md" = Some doc
       /\ includes doc "%%START-null%%" = false
       /\ includes doc "%%START-3f2a-01%%" = true.
Proof.
  split; [reflexivity|]. split; [reflexivity|].
  do 2 eexists. split; [vm_compute; reflexivity|].
  split; [vm_compute; reflexivity|].
  split; vm_compute; reflexivity.
Qed.

(** ** The statements at concrete inputs *)

Lemma sanitizeFileName_safe_witness :
  (forall c, In c forbiddenChars ->
             hasChar c (sanitizeFileName sampleEnv " .a/b:c ") = false)
  /\ startsWith (sanitizeFileName sampleEnv " .a/b:c ") "." = false
  /\ len (sanitizeFileName sampleEnv " .a/b:c ")
     <= maxTitleLength (settings sampleEnv)
  /\ (startsWith (trim (replaceForbidden " .a/b:c ")) "." = true ->
      startsWith (sanitizeFileName sampleEnv " .a/b:c ") "_." = true)
  /\ (startsWith (trim (replaceForbidden " .a/b:c ")) "." = false ->
      len (trim (replaceForbidden " .a/b:c "))
      <= maxTitleLength (settings sampleEnv) ->
      sanitizeFileName sampleEnv " .a/b:c "
      = trim (replaceForbidden " .a/b:c ")).
Proof.
  apply (sanitizeFileName_safe sampleEnv " .a/b:c "). vm_compute.
  discriminate.
Defined.

Lemma locked_task_list_is_skipped_but_counted_witness :
  let stored := "---" ++ NL ++ "lock: true" ++ NL ++ "---" ++ NL in
  let w := worldWith [("Listy/Reading/1984.md", stored);
                      ("Listy/Chores.md", stored)] in
  processItem lockingEnv 1 (collection "Reading" "Books" None)
    "Listy/Reading" 0 (book "1984") w
  = (Ok 0, w)
  /\ processList lockingEnv 1 0
       (collection "Chores" "Tasks" (Some [task "milk" false])) w
     = (Ok 1, w).
Proof.
  intros stored w.
  destruct (locked_task_list_is_skipped_but_counted lockingEnv 1 0 w
              ("---" ++ NL) " " (NL ++ "---" ++ NL)) as [Hentry Hlist];
    [reflexivity | reflexivity | reflexivity |].
  split.
  - apply Hentry. reflexivity.
  - apply (Hlist _ (task "milk" false) []); reflexivity.
Defined.


Lemma comments_survive_reimport_witness :
  let list := collection "Reading" "Books" None in
  let body := "# Animal Farm" ++ NL ++ NL
                ++ "[Visit Original Source](http://x)"
                ++ NL ++ NL ++ "## Description" ++ NL ++ NL ++ NL
                ++ NL ++ "![Cover Image]()" ++ NL ++ NL
                ++ "## Notes" in
  generateNoteContent sampleEnv 1 (book "Animal Farm") list
    (Some (skeleton (generateFrontmatter sampleEnv (book "1984") list)
                    "3f2a-01" (NL ++ "first note" ++ NL)
                    (framed "# 1984") (NL ++ "second note" ++ NL) NL))
    (worldWith [])
  = (Ok (skeleton (generateFrontmatter sampleEnv (book "Animal Farm") list)
                  "3f2a-01" (NL ++ "first note" ++ NL) (framed body)
                  (NL ++ "second note" ++ NL) NL,
         book "Animal Farm"), worldWith [])
  /\ (forall t,
        generateFrontmatter sampleEnv (withTitle (book "Animal Farm") t) list
        = generateFrontmatter sampleEnv (book "Animal Farm") list)
  /\ startsWith body ("# Animal Farm" ++ NL) = true.
Proof.
  intros list body.
  destruct (comments_survive_reimport sampleEnv 1 (book "1984")
              (book "Animal Farm") list "3f2a-01"
              (NL ++ "first note" ++ NL) (NL ++ "second note" ++ NL)
              "# 1984" body (book "Animal Farm") (worldWith []))
    as [Hmerge [Hheader Hbody]]; try (vm_compute; reflexivity).
  split; [exact Hmerge|]. split; [exact Hheader|].
  apply Hbody; reflexivity.
Defined.

Lemma missing_content_marker_regenerates_witness :
  let list := collection "Reading" "Books" None in
  let stored := "%%START-3f2a-01%% my notes %%END-3f2a-01%%" in
  exists fuel0,
    forall fuel, (fuel0 <= fuel)%nat ->
      exists body item',
        generateNoteContent sampleEnv fuel (book "1984") list (Some stored)
          (worldWith [])
        = (Ok (skeleton (generateFrontmatter sampleEnv (book "1984") list)
                        "3f2a-01" placeholderZone (framed body)
                        placeholderZone NL, item'),
           afterMint (worldWith [])).
Proof.
  apply (missing_content_marker_regenerates sampleEnv (book "1984")
           (collection "Reading" "Books" None)
           "%%START-3f2a-01%% my notes %%END-3f2a-01%%" "3f2a-01"
           (worldWith [])).
  - vm_compute. reflexivity.
  - left. vm_compute. reflexivity.
  - intros attrs a Hattrs Ha. injection Hattrs as <-.
    destruct Ha as [<- | []]. reflexivity.
Defined.

Lemma consolidated_null_token_witness :
  let list := collection "Chores" "Tasks" (Some [task "milk" false]) in
  let w := worldWith [("Listy/Chores.md", "- [x] milk")] in
  createConsolidatedToDoList sampleEnv list "Listy" w
  = (Ok tt,
     afterWrite w "Listy/Chores.md"
       (consolidatedHeader list
        ++ "%%START-null%%" ++ placeholderZone
        ++ "%%START-EXTRACTED-CONTENT-null%%"
        ++ NL ++ NL ++ ("- [x] milk" ++ NL) ++ NL
        ++ "%%END-EXTRACTED-CONTENT-null%%" ++ placeholderZone
        ++ "%%END-null%%" ++ NL)).
Proof.
  apply (consolidated_null_token sampleEnv
           (collection "Chores" "Tasks" (Some [task "milk" false]))
           "Listy" (worldWith [("Listy/Chores.md", "- [x] milk")])
           "- [x] milk" [task "milk" false]);
    reflexivity.
Defined.

(** * Further properties of the service *)

(** ** Quoted scalars of the front matter *)

Lemma escapeYamlString_cons (c : ascii) (v : string) :
  escapeYamlString (String c v)
  = escapeYamlString (chr c) ++ escapeYamlString v.
Proof.
  change (String c v) with (chr c ++ v). unfold escapeYamlString.
  now rewrite !replaceChar_append.
Qed.

Lemma readScalar_escaped (c : ascii) (X : string) :
  readScalar (escapeYamlString (chr c) ++ X)
  = match readScalar X with
    | Some (v, rest) => Some (String c v, rest)
    | None => None
    end.
Proof.
  destruct c as [[] [] [] [] [] [] [] []]; reflexivity.
Qed.

(** X1.  A value written by [quoted] is read back: a reader of
    double-quoted scalars that undoes the five escapes of [escapeYamlString]
    finds, at the head of [quoted v] followed by any text, the value [v]
    itself and is left with exactly the text that followed.  So no character
    of a value closes the scalar early, and two values are never written the
    same way. *)
Theorem quoted_is_read_back (v rest : string) :
  readQuoted (quoted v ++ rest) = Some (v, rest).
Proof.
  unfold quoted. rewrite !append_assoc.
  change (readScalar (escapeYamlString v ++ DQ ++ rest) = Some (v, rest)).
  induction v as [|c v IH].
  - reflexivity.
  - rewrite escapeYamlString_cons, append_assoc, readScalar_escaped.
    now rewrite IH.
Qed.

(** X2.  An escaped value holds no line feed, no carriage return and no
    tabulation: a quoted scalar of the front matter stays on its line. *)
Theorem escapeYamlString_one_line (str : string) :
  hasChar "010" (escapeYamlString str) = false
  /\ hasChar "013" (escapeYamlString str) = false
  /\ hasChar "009" (escapeYamlString str) = false.
Proof.
  unfold escapeYamlString.
  repeat split;
    repeat (apply hasChar_replaceChar;
            [reflexivity | first [left; reflexivity | right]]).
Qed.

(** ** File names are fixed points of the derivation *)

Section FixedNames.

Variable env : Env.
Hypothesis max_ok : 4 <= maxTitleLength (settings env).

(** X3.  A derived file name is a fixed point of the derivation: deriving
    a name from a name that [sanitizeFileName] produced changes nothing.
    The maximum title length is at least 4. *)
Theorem sanitizeFileName_idempotent (fileName : string) :
  sanitizeFileName env (sanitizeFileName env fileName)
  = sanitizeFileName env fileName.
Proof.
  rewrite (sanitizeFileName_unfold env fileName).
  set (m := maxTitleLength (settings env)) in *.
  set (d := dotGuarded fileName).
  destruct (m <? len d)%Z eqn:Elong.
  - apply Z.ltb_lt in Elong.
    rewrite substring_prefix by lia.
    assert (Hn : exists n, Z.to_nat (m - 3) = S n).
    { exists (Z.to_nat (m - 4)). clearbody m. clear - max_ok. lia. }
    destruct Hn as [n Hn]. rewrite Hn.
    assert (Hd : exists c d', d = String c d').
    { destruct d as [|c d'] eqn:Ed; [|now exists c, d'].
      unfold len in Elong. simpl in Elong. lia. }
    destruct Hd as [c [d' Hd]].
    assert (Hfix : dotGuarded (take (S n) d ++ "...") = take (S n) d ++ "...").
    { apply dotGuarded_fixed.
      - intros x Hx. rewrite hasChar_append.
        rewrite (hasChar_take x _ _ (dotGuarded_clean fileName x Hx)).
        unfold forbiddenChars in Hx. simpl in Hx.
        repeat (destruct Hx as [<-|Hx]); try contradiction; reflexivity.
      - pose proof (dotGuarded_startsClean fileName) as H.
        fold d in H. rewrite Hd in *. exact H.
      - rewrite endsClean_append by discriminate. reflexivity.
      - pose proof (dotGuarded_no_dot fileName) as H.
        fold d in H. rewrite Hd in *. exact H. }
    rewrite sanitizeFileName_unfold, Hfix. fold m.
    assert (Hlen : len (take (S n) d ++ "...") = m).
    { rewrite len_append. unfold len at 1. rewrite length_take.
      unfold len in *. simpl String.length.
      clearbody m d. clear - max_ok Elong Hn. lia. }
    rewrite Hlen, Z.ltb_irrefl. reflexivity.
  - assert (Hfix : dotGuarded d = d).
    { apply dotGuarded_fixed.
      - intros x Hx. now apply dotGuarded_clean.
      - apply dotGuarded_startsClean.
      - apply dotGuarded_endsClean.
      - apply dotGuarded_no_dot. }
    rewrite sanitizeFileName_unfold, Hfix. fold m. now rewrite Elong.
Qed.

End FixedNames.

(** ** Hash signs in descriptions *)

Lemma replaceAll_oneChar (c : ascii) (r s : string) :
  hasChar "$" r = false ->
  forall pre, replaceAll_go (oneChar c) r O pre s = replaceChar c r s.
Proof.
  intros Hr. induction s as [|d s IH]; intros pre; [reflexivity|].
  unfold replaceAll_go; fold replaceAll_go.
  unfold oneChar at 1. simpl replaceChar.
  destruct (Ascii.eqb d c).
  - now rewrite getSubstitution_plain, IH.
  - now rewrite IH.
Qed.

(** X4.  When the configured replacement holds neither a hash sign nor a
    dollar sign (the default, the empty text, is such a replacement), a
    processed description holds no hash sign, and processing it again
    changes nothing. *)
Theorem processDescription_removes_hashes (env : Env)
    (replacement description : string) :
  tagReplacement (settings env) = Some replacement ->
  hasChar "$" replacement = false ->
  hasChar "#" replacement = false ->
  hasChar "#" (processDescription env description) = false
  /\ processDescription env (processDescription env description)
     = processDescription env description.
Proof.
  intros Hset Hdollar Hhash. unfold processDescription. rewrite Hset.
  unfold replaceAll. rewrite !replaceAll_oneChar by exact Hdollar.
  assert (H : hasChar "#" (replaceChar "#" replacement description) = false).
  { apply hasChar_replaceChar; [exact Hhash | now left]. }
  split; [exact H | now apply replaceChar_absent].
Qed.

(** ** Tags of the front matter *)

Lemma split_pieces (sep : ascii) (s : string) :
  Forall (fun p => hasChar sep p = false) (split sep s).
Proof.
  induction s as [|c s IH]; simpl.
  - constructor; [reflexivity | constructor].
  - destruct (Ascii.eqb c sep) eqn:E.
    + constructor; [reflexivity | exact IH].
    + destruct (split sep s) as [|w ws].
      * constructor; [simpl; now rewrite E | constructor].
      * inversion IH as [|? ? Hw Hws]; subst.
        constructor; [simpl; now rewrite E, Hw | exact Hws].
Qed.

Lemma replaceAll_go_lacks (m : matcher) (c : ascii) (r s : string) :
  hasChar "$" r = false -> hasChar c r = false -> hasChar c s = false ->
  forall skip pre, hasChar c (replaceAll_go m r skip pre s) = false.
Proof.
  intros Hd Hr. induction s as [|d s IH]; intros Hs skip pre;
    [reflexivity|].
  simpl in Hs. apply orb_false_iff in Hs. destruct Hs as [Hx Hs].
  unfold replaceAll_go; fold replaceAll_go.
  destruct skip as [|k]; [|now apply IH].
  destruct (m (String d s)) as [[|n]|].
  - simpl. now rewrite Hx, IH.
  - rewrite hasChar_append, getSubstitution_plain, Hr by exact Hd.
    now apply IH.
  - simpl. now rewrite Hx, IH.
Qed.

Lemma replaceAll_go_spaces (s : string) :
  forall skip pre,
    allChars notSpace (replaceAll_go spaces "-" skip pre s) = true.
Proof.
  induction s as [|d s IH]; intros skip pre; [reflexivity|].
  unfold replaceAll_go; fold replaceAll_go.
  destruct skip as [|k]; [|apply IH].
  unfold spaces at 1. simpl run.
  destruct (isSpace d) eqn:Ed.
  - simpl. apply IH.
  - simpl. unfold notSpace at 1. rewrite Ed. simpl. apply IH.
Qed.

(** X5.  Every tag listed under [tags] is a non-empty text without white
    space and without a comma. *)
Theorem tagList_tags_are_words (tagsString : string) :
  Forall (fun tag => truthy tag = true
                     /\ allChars notSpace tag = true
                     /\ hasChar "," tag = false)
         (tagList tagsString).
Proof.
  apply Forall_forall. intros tag Hin. unfold tagList in Hin.
  apply filter_In in Hin. destruct Hin as [Hin Hlen].
  apply in_map_iff in Hin. destruct Hin as [t [<- Hin]].
  apply in_map_iff in Hin. destruct Hin as [p [<- Hin]].
  repeat split.
  - destruct (replaceAll spaces "-" (trim p)); [discriminate Hlen|].
    reflexivity.
  - apply replaceAll_go_spaces.
  - apply replaceAll_go_lacks; try reflexivity.
    apply hasChar_trim.
    pose proof (split_pieces "," tagsString) as H.
    rewrite Forall_forall in H. now apply H.
Qed.

(** ** The token read from a stored document *)

Lemma allChars_take_run (cls : ascii -> bool) (s : string) :
  allChars cls (take (run cls s) s) = true.
Proof.
  induction s as [|c s IH]; [reflexivity|]. simpl.
  destruct (cls c) eqn:E; [simpl; now rewrite E | reflexivity].
Qed.

Lemma includes_at (s p : string) (i : nat) :
  startsWith (drop i s) p = true -> includes s p = true.
Proof.
  intros H. destruct (includes s p) eqn:E; [reflexivity|].
  now rewrite (includes_false_at s p i E) in H.
Qed.

(** X6.  A token that [extractItemId] reads from a document is not empty,
    is made of the characters [0-9a-f-], and its outer-start marker occurs in
    the document: the test for that marker in [updateExistingNote] cannot
    fail for the token it is given. *)
Theorem extractItemId_sound (content token : string) :
  extractItemId content = Some token ->
  tokenOk token = true
  /\ includes content (startBlockMarker token) = true.
Proof.
  unfold extractItemId.
  destruct (findFirst startPattern content) as [[i n]|] eqn:Ef;
    [|discriminate].
  apply findFirst_some in Ef. unfold startPattern, bracketed in Ef.
  destruct (startsWith (drop i content) "%%START-") eqn:Epre;
    [|discriminate].
  change (String.length "%%START-") with 8%nat in Ef.
  rewrite drop_drop in Ef.
  destruct (run isHexDash (drop (i + 8) content)) as [|k] eqn:Erun;
    [discriminate|].
  destruct (startsWith (drop (S k) (drop (i + 8) content)) "%%") eqn:Epost;
    [|discriminate].
  injection Ef as Hn.
  replace (n - 10)%nat with (S k) by (simpl in Hn; lia).
  destruct (truthy (take (S k) (drop (i + 8) content))) eqn:Etr;
    [|discriminate].
  intros H.
  assert (Ht : take (S k) (drop (i + 8) content) = token)
    by (injection H as H; exact H).
  clear H. subst token. split.
  - unfold tokenOk. rewrite Etr, <- Erun, allChars_take_run. reflexivity.
  - apply (includes_at _ _ i). unfold startBlockMarker.
    rewrite (startsWith_inv _ _ Epre), startsWith_cancel.
    change (String.length "%%START-") with 8%nat. rewrite drop_drop.
    now apply startsWith_take_then.
Qed.

(** ** What the lock pattern finds *)

Lemma lockAt_inv (s : string) :
  lockAt s = true ->
  exists ws post,
    s = "lock:" ++ ws ++ "true" ++ post /\ allChars isSpace ws = true.
Proof.
  unfold lockAt. intros H. apply andb_true_iff in H. destruct H as [Hp Ht].
  apply startsWith_inv in Hp.
  change (String.length "lock:") with 5%nat in Hp.
  set (r := drop 5 s) in *.
  exists (take (run isSpace r) r), (drop 4 (drop (run isSpace r) r)).
  split; [|apply allChars_take_run].
  apply startsWith_inv in Ht.
  change (String.length "true") with 4%nat in Ht.
  rewrite <- Ht, take_drop. exact Hp.
Qed.

Lemma lockScan_inv (s : string) :
  forall b, lockScan b s = true ->
  exists pre rest,
    s = pre ++ rest /\ endsLine b pre = true /\ lockAt rest = true.
Proof.
  induction s as [|c s IH]; intros b H.
  - simpl in H. rewrite orb_false_r in H. apply andb_true_iff in H.
    destruct H as [Hb Hat]. exists EmptyString, EmptyString. now repeat split.
  - change ((b && lockAt (String c s)) || lockScan (isLineTerminator c) s
            = true) in H.
    apply orb_true_iff in H. destruct H as [H|H].
    + apply andb_true_iff in H. destruct H as [Hb Hat].
      exists EmptyString, (String c s). now repeat split.
    + destruct (IH _ H) as [pre [rest [-> [Hpre Hat]]]].
      exists (String c pre), rest. now repeat split.
Qed.

(** X7.  The lock pattern finds a document exactly when one of its lines
    starts with [lock:], white space (possibly none) and [true]: the
    document is some text that ends a line (or no text), then [lock:], then
    white space, then [true], then anything. *)
Theorem lockMatch_iff_lock_line (content : string) :
  lockMatch content = true
  <-> exists pre ws post,
        content = pre ++ "lock:" ++ ws ++ "true" ++ post
        /\ endsLine true pre = true /\ allChars isSpace ws = true.
Proof.
  split.
  - intros H. apply lockScan_inv in H.
    destruct H as [pre [rest [-> [Hpre Hat]]]].
    apply lockAt_inv in Hat. destruct Hat as [ws [post [-> Hws]]].
    now exists pre, ws, post.
  - intros [pre [ws [post [-> [Hpre Hws]]]]]. now apply lockMatch_intro.
Qed.

(** ** The merge and the world *)

Lemma generateItemContent_world (env : Env) (fuel : nat) (item : ListyItem)
    (list : ListyList) (w : World) :
  snd (generateItemContent env fuel item list w) = w.
Proof.
  unfold generateItemContent, bind, get_world.
  now destruct (applyTemplateTransformations _ _ _ _).
Qed.

Lemma generateItemContent_pair (env : Env) (fuel : nat) (item : ListyItem)
    (list : ListyList) (w : World) :
  generateItemContent env fuel item list w
  = (fst (generateItemContent env fuel item list w), w).
Proof.
  rewrite <- (generateItemContent_world env fuel item list w) at 3.
  now destruct (generateItemContent env fuel item list w).
Qed.

Lemma generateItemContent_minted (env : Env) (fuel : nat) (item : ListyItem)
    (list : ListyList) (w : World) :
  generateItemContent env fuel item list (afterMint w)
  = (fst (generateItemContent env fuel item list w), afterMint w).
Proof.
  apply (generateItemContent_transfer env fuel item list w (afterMint w));
    [reflexivity | apply generateItemContent_pair].
Qed.

Lemma generateNoteContent_new_world (env : Env) (fuel : nat)
    (item : ListyItem) (list : ListyList) (w : World) :
  snd (generateNoteContent_new env fuel item list w) = afterMint w.
Proof.
  unfold generateNoteContent_new, bind, uuidv4. fold (afterMint w).
  rewrite generateItemContent_minted.
  now destruct (fst (generateItemContent env fuel item list w))
    as [[body item']| |].
Qed.

Lemma includes_found (s p : string) :
  includes s p = true -> exists n, indexOf s p = Z.of_nat n.
Proof.
  unfold includes, indexOf. destruct (indexOf_nat s p) as [n|];
    [now exists n | discriminate].
Qed.

Lemma updateExistingNote_world (env : Env) (fuel : nat) (item : ListyItem)
    (list : ListyList) (existingContent itemId : string) (w : World) :
  snd (updateExistingNote env fuel item list existingContent itemId w) = w
  \/ snd (updateExistingNote env fuel item list existingContent itemId w)
     = afterMint w.
Proof.
  unfold updateExistingNote.
  destruct (negb _ || negb _ || negb _ || negb _);
    [right; apply generateNoteContent_new_world|].
  unfold bind. rewrite generateItemContent_pair.
  destruct (fst (generateItemContent env fuel item list w))
    as [[body item']| |]; try (left; reflexivity).
  destruct ((_ =? -1)%Z || (_ =? -1)%Z);
    [right; apply generateNoteContent_new_world | left; reflexivity].
Qed.

Lemma generateNoteContent_world (env : Env) (fuel : nat)
    (item : ListyItem) (list : ListyList) (prior : option string)
    (w : World) :
  snd (generateNoteContent env fuel item list prior w) = w
  \/ snd (generateNoteContent env fuel item list prior w) = afterMint w.
Proof.
  unfold generateNoteContent.
  destruct prior as [content|];
    [|right; apply generateNoteContent_new_world].
  destruct (truthy content); [|right; apply generateNoteContent_new_world].
  destruct (extractItemId content) as [itemId|];
    [apply updateExistingNote_world
    |right; apply generateNoteContent_new_world].
Qed.

(** X8.  The merge writes nothing: after [generateNoteContent], whatever
    its outcome, the files and the folders of the vault are what they were;
    at most one identifier has been drawn from the source. *)
Theorem generateNoteContent_leaves_vault (env : Env) (fuel : nat)
    (item : ListyItem) (list : ListyList) (prior : option string)
    (w : World) :
  files (snd (generateNoteContent env fuel item list prior w)) = files w
  /\ folders (snd (generateNoteContent env fuel item list prior w))
     = folders w
  /\ entropy (snd (generateNoteContent env fuel item list prior w))
     = entropy w
  /\ (minted w
      <= minted (snd (generateNoteContent env fuel item list prior w))
      <= S (minted w))%nat.
Proof.
  destruct (generateNoteContent_world env fuel item list prior w)
    as [-> | ->]; simpl; repeat split; lia.
Qed.

Lemma Ok_pair_inv {A B : Type} (a a' : A) (b b' : B) (w w' : World) :
  (Ok (a, b), w) = (Ok (a', b'), w') -> a = a' /\ b = b'.
Proof. intros H. injection H as -> -> _. now split. Qed.

Lemma generateNoteContent_new_shape (env : Env) (fuel : nat)
    (item : ListyItem) (list : ListyList) (w w' : World) (doc : string)
    (item' : ListyItem) :
  generateNoteContent_new env fuel item list w = (Ok (doc, item'), w') ->
  exists body,
    generateItemContent env fuel item list w = (Ok (body, item'), w)
    /\ doc = skeleton (generateFrontmatter env item list)
                      (entropy w (minted w)) placeholderZone (framed body)
                      placeholderZone NL.
Proof.
  destruct (fst (generateItemContent env fuel item list w))
    as [[body item0]| |] eqn:E.
  - assert (Hrun : generateItemContent env fuel item list w
                   = (Ok (body, item0), w))
      by (rewrite generateItemContent_pair; now rewrite E).
    rewrite (generateNoteContent_new_run env fuel item list w body item0 Hrun).
    intros H. injection H as <- <- _. now exists body.
  - unfold generateNoteContent_new, bind, uuidv4. fold (afterMint w).
    rewrite generateItemContent_minted, E. discriminate.
  - unfold generateNoteContent_new, bind, uuidv4. fold (afterMint w).
    rewrite generateItemContent_minted, E. discriminate.
Qed.

(** X9.  Whatever the stored document, a document the merge returns is
    made of the header generated for the entry, the four markers of one
    token, two zones, and between the content markers the body rendered for
    the entry within two blank lines; it ends with the outer end marker and
    a line break.  The token is the one read from the stored document or the
    next identifier of the source.  So the document starts with the new
    header, whatever stood before the outer start marker of the stored one,
    and holds the new body between its content markers. *)
Theorem generateNoteContent_shape (env : Env) (fuel : nat)
    (item : ListyItem) (list : ListyList) (prior : option string)
    (w w' : World) (doc : string) (item' : ListyItem) :
  generateNoteContent env fuel item list prior w = (Ok (doc, item'), w') ->
  exists token zoneA zoneB body,
    generateItemContent env fuel item list w = (Ok (body, item'), w)
    /\ doc = skeleton (generateFrontmatter env item list) token zoneA
                      (framed body) zoneB NL
    /\ (token = entropy w (minted w)
        \/ exists content,
             prior = Some content /\ extractItemId content = Some token).
Proof.
  assert (Hnew :
    generateNoteContent_new env fuel item list w = (Ok (doc, item'), w') ->
    exists token zoneA zoneB body,
      generateItemContent env fuel item list w = (Ok (body, item'), w)
      /\ doc = skeleton (generateFrontmatter env item list) token zoneA
                        (framed body) zoneB NL
      /\ (token = entropy w (minted w)
          \/ exists content,
               prior = Some content /\ extractItemId content = Some token)).
  { intros H. apply generateNoteContent_new_shape in H.
    destruct H as [body [Hbody ->]].
    exists (entropy w (minted w)), placeholderZone, placeholderZone, body.
    repeat split; [exact Hbody | now left]. }
  unfold generateNoteContent.
  destruct prior as [content|]; [|exact Hnew].
  destruct (truthy content); [|exact Hnew].
  destruct (extractItemId content) as [itemId|] eqn:Eid; [|exact Hnew].
  unfold updateExistingNote.
  destruct (includes content (startBlockMarker itemId)); [|exact Hnew].
  destruct (includes content (endBlockMarker itemId)); [|exact Hnew].
  destruct (includes content (startContentMarker itemId)) eqn:ESC;
    [|exact Hnew].
  destruct (includes content (endContentMarker itemId)) eqn:EEC;
    [|exact Hnew].
  cbn [negb orb]. unfold bind.
  rewrite generateItemContent_pair.
  destruct (includes_found _ _ ESC) as [n1 ->].
  destruct (includes_found _ _ EEC) as [n2 ->].
  rewrite !of_nat_not_minus_one. cbn [orb]. unfold ret.
  destruct (fst (generateItemContent env fuel item list w))
    as [[body item0]| |] eqn:E;
    [|intros H; discriminate H|intros H; discriminate H].
  intros H. apply Ok_pair_inv in H. destruct H as [Hdoc Hitem].
  subst item0.
  match type of Hdoc with
  | ((_ ++ _ ++ ?zoneA ++ _) ++ _) ++ _ ++ _ ++ _ ++ ?zoneB ++ _ = _ =>
      exists itemId, zoneA, zoneB, body
  end.
  split; [reflexivity|]. split; [|right; now exists content].
  rewrite <- Hdoc.
  unfold skeleton, framed. now rewrite !append_assoc.
Qed.

(** ** What an import leaves of the vault *)

Lemma writable_minted (env : Env) (w w1 : World) (path : string) :
  w1 = w \/ w1 = afterMint w -> writable env w1 path = writable env w path.
Proof. now intros [->| ->]. Qed.

Section Frame.

Variables (env : Env) (fuel : nat).
Variable R : World -> World -> Prop.

Hypothesis R_refl : forall w, R w w.
Hypothesis R_trans : forall w1 w2 w3, R w1 w2 -> R w2 w3 -> R w1 w3.
Hypothesis R_mint : forall w, R w (afterMint w).
Hypothesis R_folder : forall w path, R w (afterFolder w path).
Hypothesis R_write :
  forall w path content,
    writable env w path = true -> R w (afterWrite w path content).

Lemma R_minted (w w1 : World) : w1 = w \/ w1 = afterMint w -> R w w1.
Proof. intros [->| ->]; [apply R_refl | apply R_mint]. Qed.

Lemma respects_ret {A : Type} (a : A) : respects R (ret a).
Proof. intros w. apply R_refl. Qed.

Lemma respects_throw {A : Type} (msg : string) : respects R (@throw A msg).
Proof. intros w. apply R_refl. Qed.

Lemma respects_bind {A B : Type} (c : M A) (k : A -> M B) :
  respects R c -> (forall a, respects R (k a)) -> respects R (bind c k).
Proof.
  intros Hc Hk w. unfold bind. specialize (Hc w).
  destruct (c w) as [[a|msg|] w1]; simpl in *; try exact Hc.
  exact (R_trans _ _ _ Hc (Hk a w1)).
Qed.

Lemma respects_forEach {A B : Type} (f : B -> A -> M B) (l : list A) :
  (forall b x, respects R (f b x)) -> forall b, respects R (forEach f l b).
Proof.
  intros Hf. induction l as [|x l IH]; intros b.
  - apply respects_ret.
  - simpl. apply respects_bind; [apply Hf | exact IH].
Qed.

Lemma respects_ensureFolder (path : string) :
  respects R
    (present <- adapter_exists path ;;
     if negb present then createFolder path else ret tt).
Proof.
  intros w. unfold bind, adapter_exists, createFolder, ret.
  destruct (pathExists w path) eqn:E; simpl; [apply R_refl|].
  rewrite E. apply R_folder.
Qed.

Lemma respects_write_after (w w1 : World) (path content : string) :
  w1 = w \/ w1 = afterMint w -> writable env w path = true ->
  R w (afterWrite w1 path content).
Proof.
  intros Hw Hp. apply (R_trans _ w1); [now apply R_minted|].
  apply R_write. now rewrite (writable_minted env w w1 path Hw).
Qed.

Lemma respects_processItem (list : ListyList) (folder : string)
    (total : Z) (item : ListyItem) :
  respects R (processItem env fuel list folder total item).
Proof.
  intros w. unfold processItem, bind, get_world. cbv zeta.
  set (notePath := normalizePath env _).
  assert (Hgen : forall prior,
            writable env w notePath = true ->
            R w (snd (match generateNoteContent env fuel item list prior w
                      with
                      | (Ok r, w1) =>
                          match adapter_write notePath (fst r) w1 with
                          | (Ok _, w2) => ret (total + 1) w2
                          | (Throw msg, w2) => (Throw msg, w2)
                          | (OutOfFuel, w2) => (OutOfFuel, w2)
                          end
                      | (Throw msg, w1) => (Throw msg, w1)
                      | (OutOfFuel, w1) => (OutOfFuel, w1)
                      end))).
  { intros prior Hp.
    pose proof (generateNoteContent_world env fuel item list prior w) as Hw.
    destruct (generateNoteContent env fuel item list prior w)
      as [[r|msg|] w1]; simpl in Hw; simpl;
      try (now apply R_minted).
    now apply respects_write_after. }
  unfold writable in Hgen.
  destruct (adapter_read w notePath) as [content|].
  - destruct (enableNoteLocking (settings env) && truthy content
              && lockMatch content); [apply R_refl | now apply Hgen].
  - now apply Hgen.
Qed.

Lemma respects_createConsolidatedToDoList (list : ListyList)
    (folderPath : string) :
  respects R (createConsolidatedToDoList env list folderPath).
Proof.
  intros w. unfold createConsolidatedToDoList, bind, get_world. cbv zeta.
  set (listPath := normalizePath env _).
  assert (Hput : forall w1 existingTasks listId,
            w1 = w \/ w1 = afterMint w ->
            writable env w listPath = true ->
            R w (snd (match list_items list with
                      | Some items =>
                          adapter_write listPath
                            (consolidatedContent list items existingTasks
                               listId)
                      | None => throw "TypeError: list.items is not iterable"
                      end w1))).
  { intros w1 existingTasks listId Hw Hp.
    destruct (list_items list) as [items|]; simpl.
    - now apply respects_write_after.
    - now apply R_minted. }
  unfold writable in Hput.
  destruct (adapter_read w listPath) as [content|].
  - destruct (enableNoteLocking (settings env) && truthy content
              && lockMatch content); [apply R_refl|].
    destruct (truthy content); simpl.
    + apply Hput; [now left | reflexivity].
    + apply Hput; [now right | reflexivity].
  - simpl. apply Hput; [now right | reflexivity].
Qed.

Lemma respects_processList (total : Z) (list : ListyList) :
  respects R (processList env fuel total list).
Proof.
  unfold processList.
  destruct (list_items list) as [[|item items]|];
    try apply respects_ret.
  destruct ((list_type list =? "Tasks")%string
            && consolidateToDoLists (settings env)).
  - apply respects_bind;
      [apply respects_createConsolidatedToDoList
      |intros _; apply respects_ret].
  - intros w. unfold bind at 1 2.
    pose proof (respects_ensureFolder
                  (normalizePath env
                     (outputFolder (settings env) ++ "/"
                      ++ sanitizeFileName env (list_title list))) w) as Hf.
    unfold bind in Hf.
    destruct (adapter_exists _ w) as [[present|msg|] w0]; try exact Hf.
    destruct ((if negb present then createFolder _ else ret tt) w0)
      as [[u|msg|] w1]; try exact Hf.
    apply (R_trans _ w1); [exact Hf|].
    apply respects_forEach. intros b x. apply respects_processItem.
Qed.

Lemma respects_processListyData (listyData : ListyData) :
  respects R (processListyData env fuel listyData).
Proof.
  unfold processListyData.
  destruct (lists listyData) as [|isTruthy|ls].
  - apply respects_throw.
  - rewrite orb_true_r. apply respects_throw.
  - cbv iota. apply respects_bind.
    + destruct (truthy (outputFolder (settings env))
                && (0 <? len (outputFolder (settings env)))%Z);
        [apply respects_ensureFolder | apply respects_ret].
    + intros _. apply respects_forEach. intros b x.
      apply respects_processList.
Qed.

End Frame.

Lemma pathExists_written (w : World) (path content p : string) :
  pathExists w p = true -> pathExists (afterWrite w path content) p = true.
Proof.
  unfold pathExists. simpl. intros H. apply orb_true_iff in H.
  apply orb_true_iff. destruct H as [H|H]; [now left | right].
  induction (files w) as [|[k v] m IH]; simpl in *; [discriminate|].
  destruct (k =? path)%string eqn:Ek.
  - apply String.eqb_eq in Ek. subst k. simpl.
    apply orb_true_iff in H. destruct H as [H|H]; [|now rewrite H, orb_true_r].
    now rewrite H.
  - simpl. apply orb_true_iff in H.
    destruct H as [H|H]; [now rewrite H | rewrite (IH H); apply orb_true_r].
Qed.

Lemma keepsPaths_refl (w : World) : keepsPaths w w.
Proof. intros p Hp. exact Hp. Qed.

Lemma keepsPaths_trans (w1 w2 w3 : World) :
  keepsPaths w1 w2 -> keepsPaths w2 w3 -> keepsPaths w1 w3.
Proof. intros H12 H23 p Hp. apply H23, H12, Hp. Qed.

Lemma keepsPaths_mint (w : World) : keepsPaths w (afterMint w).
Proof. intros p Hp. exact Hp. Qed.

Lemma keepsPaths_folder (w : World) (path : string) :
  keepsPaths w (afterFolder w path).
Proof.
  intros p Hp. unfold pathExists in *. simpl.
  apply orb_true_iff in Hp.
  destruct Hp as [Hp|Hp]; rewrite Hp; now rewrite ?orb_true_r.
Qed.

Lemma keepsPaths_write (env : Env) (w : World) (path content : string) :
  writable env w path = true -> keepsPaths w (afterWrite w path content).
Proof. intros _ p Hp. now apply pathExists_written. Qed.

(** X10.  An import removes nothing: a path that exists in the vault, file
    or folder, still exists after [processListyData], whatever the data and
    however the import ends. *)
Theorem import_keeps_paths (env : Env) (fuel : nat) (listyData : ListyData)
    (w : World) (path : string) :
  pathExists w path = true ->
  pathExists (snd (processListyData env fuel listyData w)) path = true.
Proof.
  exact (respects_processListyData env fuel keepsPaths keepsPaths_refl
           keepsPaths_trans keepsPaths_mint keepsPaths_folder
           (keepsPaths_write env) listyData w path).
Qed.

(** X11.  With note locking enabled, an import leaves every locked file
    as it is: a file whose content the lock pattern finds has the same
    content after [processListyData], whatever the data and however the
    import ends. *)
Theorem import_keeps_locked_files (env : Env) (fuel : nat)
    (listyData : ListyData) (w : World) (path content : string) :
  enableNoteLocking (settings env) = true ->
  adapter_read w path = Some content ->
  lockMatch content = true ->
  adapter_read (snd (processListyData env fuel listyData w)) path
  = Some content.
Proof.
  intros Hon.
  assert (H : respects keepsLocked (processListyData env fuel listyData)).
  { apply (respects_processListyData env).
    - intros w0 p c Hp _. exact Hp.
    - intros w1 w2 w3 H12 H23 p c Hp Hc. apply H23; [|exact Hc].
      now apply H12.
    - intros w0 p c Hp _. exact Hp.
    - intros w0 q p c Hp _. exact Hp.
    - intros w0 q c Hq p c0 Hp Hc. unfold adapter_read, afterWrite. simpl.
      rewrite map_get_set. destruct (q =? p)%string eqn:E; [|exact Hp].
      apply String.eqb_eq in E. subst q. unfold writable in Hq.
      rewrite Hp, Hon, Hc, (lockMatch_truthy c0 Hc) in Hq. discriminate. }
  exact (H w path content).
Qed.

(** ** The count an import returns *)

Lemma bind_Ok {A B : Type} (c : M A) (k : A -> M B) (w w' : World) (b : B) :
  bind c k w = (Ok b, w') ->
  exists a w1, c w = (Ok a, w1) /\ k a w1 = (Ok b, w').
Proof.
  unfold bind. destruct (c w) as [[a|msg|] w1]; try discriminate.
  intros H. now exists a, w1.
Qed.

Lemma forEach_count {A : Type} (f : Z -> A -> M Z) (g : A -> Z) :
  (forall b x w b' w', f b x w = (Ok b', w') -> b' = b + g x) ->
  forall l b w n w',
    forEach f l b w = (Ok n, w') ->
    n = b + fold_right (fun x n => g x + n) 0 l.
Proof.
  intros Hf. induction l as [|x l IH]; intros b w n w' H.
  - injection H as <- _. simpl. lia.
  - simpl in H. apply bind_Ok in H. destruct H as [b' [w1 [Hx Hl]]].
    apply Hf in Hx. apply IH in Hl. simpl. lia.
Qed.

Lemma count_ones {A : Type} (l : list A) :
  fold_right (fun _ n => 1 + n) 0 l = Z.of_nat (List.length l).
Proof.
  induction l as [|x l IH]; [reflexivity|].
  change (1 + fold_right (fun _ n => 1 + n) 0 l
          = Z.of_nat (S (List.length l))).
  rewrite IH. lia.
Qed.

Section Count.

Variables (env : Env) (fuel : nat).
Hypothesis locking_off : enableNoteLocking (settings env) = false.

Lemma processItem_count (list : ListyList) (folder : string) (total : Z)
    (item : ListyItem) (w w' : World) (n : Z) :
  processItem env fuel list folder total item w = (Ok n, w') ->
  n = total + 1.
Proof.
  unfold processItem. intros H. apply bind_Ok in H.
  destruct H as [w0 [w1 [Hget H]]]. cbv zeta in H.
  rewrite locking_off in H. cbn [andb] in H.
  assert (Hrun : exists prior,
            (r <- generateNoteContent env fuel item list prior ;;
             adapter_write
               (normalizePath env
                  (folder ++ "/" ++ sanitizeFileName env (item_title item)
                          ++ ".md")) (fst r) ;;;
             ret (total + 1)) w1 = (Ok n, w')).
  { destruct (adapter_read w0 _) as [content|]; eexists; exact H. }
  destruct Hrun as [prior Hrun].
  apply bind_Ok in Hrun. destruct Hrun as [r [w2 [_ Hrun]]].
  apply bind_Ok in Hrun. destruct Hrun as [u [w3 [_ Hrun]]].
  now injection Hrun as <- _.
Qed.

Lemma processList_count (total : Z) (list : ListyList) (w w' : World)
    (n : Z) :
  processList env fuel total list w = (Ok n, w') ->
  n = total + documentsOf env list.
Proof.
  unfold processList, documentsOf.
  destruct (list_items list) as [[|item items]|];
    try (intros H; injection H as <- _; lia).
  destruct ((list_type list =? "Tasks")%string
            && consolidateToDoLists (settings env)).
  - intros H. apply bind_Ok in H. destruct H as [u [w1 [_ H]]].
    now injection H as <- _.
  - intros H. apply bind_Ok in H. destruct H as [present [w1 [_ H]]].
    apply bind_Ok in H. destruct H as [u [w2 [_ H]]].
    apply (forEach_count _ (fun _ => 1)) in H.
    + now rewrite count_ones in H.
    + intros b x w0 b' w0'. apply processItem_count.
Qed.

(** X12.  With note locking disabled, an import that comes to its end
    returns the number of documents the data asks for: one for each entry of
    a collection that is not consolidated, one for each consolidated task
    list that has entries, none for a collection without entries. *)
Theorem import_counts_documents (ls : list ListyList) (w w' : World)
    (n : Z) :
  processListyData env fuel {| lists := ListsArray ls |} w = (Ok n, w') ->
  n = documentsOfAll env ls.
Proof.
  unfold processListyData. cbn [lists]. cbv iota.
  intros H. apply bind_Ok in H. destruct H as [u [w1 [_ H]]].
  apply (forEach_count _ (documentsOf env)) in H; [exact H|].
  intros b x w0 b' w0'. apply processList_count.
Qed.

End Count.

(** ** Reading back the check list of a consolidated document *)

Lemma taskScan_skip (a s : string) :
  taskScan (String.length a) (a ++ s) = taskScan O s.
Proof.
  induction a as [|c a IH]; [reflexivity|]. exact IH.
Qed.

Lemma taskScan_noneBefore (x y : string) :
  noneBefore (x ++ y) "- [" (String.length x) ->
  taskScan O (x ++ y) = taskScan O y.
Proof.
  induction x as [|c x IH]; intros H; [reflexivity|].
  change (String c x ++ y) with (String c (x ++ y)).
  unfold taskScan; fold taskScan. unfold taskAt.
  assert (H0 : startsWith (String c (x ++ y)) "- [" = false)
    by (apply (H O); simpl; lia).
  rewrite H0. apply IH. intros i Hi. apply (H (S i)). simpl. lia.
Qed.

Lemma taskScan_lacking (s : string) :
  hasChar "[" s = false -> forall skip, taskScan skip s = [].
Proof.
  induction s as [|c s IH]; intros H skip; [reflexivity|].
  unfold taskScan; fold taskScan. destruct skip as [|k].
  - unfold taskAt.
    destruct (startsWith (String c s) "- [") eqn:E.
    + pose proof (startsWith_hasChar "[" _ _ E eq_refl). congruence.
    + apply IH. simpl in H. now apply orb_false_iff in H.
  - apply IH. simpl in H. now apply orb_false_iff in H.
Qed.

Lemma taskLine_shape (existingTasks : JsMap bool) (item : ListyItem) :
  taskLine existingTasks item
  = checkBox (isCompleted existingTasks item) ++ item_title item ++ NL.
Proof.
  unfold taskLine, checkBox. now destruct (isCompleted existingTasks item).
Qed.

Lemma taskScan_line (checked : bool) (title rest : string) :
  allChars notLineTerminator title = true ->
  taskScan O (checkBox checked ++ title ++ NL ++ rest)
  = (title, checked) :: taskScan O rest.
Proof.
  intros Ht.
  assert (Hrun : run (fun d => negb (isLineTerminator d))
                     (title ++ NL ++ rest) = String.length title)
    by (apply run_all; [exact Ht | reflexivity]).
  assert (Hat : taskAt (checkBox checked ++ title ++ NL ++ rest)
                = Some (checked, title)).
  { unfold taskAt.
    destruct checked; unfold checkBox;
      cbn [append startsWith Ascii.eqb Bool.eqb andb orb drop];
      rewrite Hrun, take_append; reflexivity. }
  assert (Hshape : checkBox checked ++ title ++ NL ++ rest
                   = String "-" ((String " " (String "["
                       (String (if checked then "x" else " ")
                          (String "]" (String " " title))))) ++ NL ++ rest)).
  { destruct checked; reflexivity. }
  rewrite Hshape in *.
  unfold taskScan at 1; fold taskScan. rewrite Hat.
  f_equal.
  replace (5 + String.length title)%nat
    with (String.length (String " " (String "["
            (String (if checked then "x" else " ")
               (String "]" (String " " title))))))
    by reflexivity.
  rewrite taskScan_skip. reflexivity.
Qed.

Lemma taskScan_lines (existingTasks : JsMap bool)
    (items : list ListyItem) (rest : string) :
  forallb (fun item => allChars notLineTerminator (item_title item)) items
  = true ->
  taskScan O (concatAll (map (taskLine existingTasks) items) ++ rest)
  = (map (checkLine existingTasks) items ++ taskScan O rest)%list.
Proof.
  induction items as [|item items IH]; intros H; [reflexivity|].
  simpl in H. apply andb_true_iff in H. destruct H as [Ht Hrest].
  change (concatAll (map (taskLine existingTasks) (item :: items)))
    with (taskLine existingTasks item
          ++ concatAll (map (taskLine existingTasks) items)).
  rewrite taskLine_shape, !append_assoc, (taskScan_line _ _ _ Ht).
  rewrite (IH Hrest). reflexivity.
Qed.

Lemma hasChar_hexDash (c : ascii) (u : string) :
  isHexDash c = false -> allChars isHexDash u = true -> hasChar c u = false.
Proof.
  intros Hc. induction u as [|d u IH]; [reflexivity|]. simpl.
  intros H. apply andb_true_iff in H. destruct H as [Hd Hu].
  rewrite (IH Hu), orb_false_r.
  destruct (Ascii.eqb d c) eqn:E; [|reflexivity].
  apply ascii_eqb_true in E. subst d. congruence.
Qed.

Lemma taskScan_consolidatedContent (list : ListyList)
    (items : Datatypes.list ListyItem) (existingTasks : JsMap bool)
    (listId : option string) :
  includes (consolidatedHeader list) "- [" = false ->
  hasChar "[" (idText listId) = false ->
  forallb (fun item => allChars notLineTerminator (item_title item)) items
  = true ->
  taskScan O (consolidatedContent list items existingTasks listId)
  = map (checkLine existingTasks) items.
Proof.
  intros Hheader Hid Htitles.
  rewrite consolidatedContent_skeleton. unfold skeleton.
  set (u := idText listId) in *.
  rewrite taskScan_noneBefore.
  2:{ apply (noneBefore_window _ _ "%%" "- [" "- [");
        [reflexivity | reflexivity |].
      now apply (includes_append_last "[" "- "). }
  assert (Hpre : hasChar "[" (startBlockMarker u ++ placeholderZone
                              ++ startContentMarker u ++ NL ++ NL) = false).
  { unfold startBlockMarker, startContentMarker.
    rewrite !hasChar_append, Hid. reflexivity. }
  assert (Hsuf : hasChar "[" (NL ++ endContentMarker u ++ placeholderZone
                              ++ endBlockMarker u ++ NL) = false).
  { unfold endBlockMarker, endContentMarker.
    rewrite !hasChar_append, Hid. reflexivity. }
  replace (startBlockMarker u ++ placeholderZone ++ startContentMarker u
           ++ (NL ++ NL ++ concatAll (map (taskLine existingTasks) items)
               ++ NL)
           ++ endContentMarker u ++ placeholderZone ++ endBlockMarker u
           ++ NL)
    with ((startBlockMarker u ++ placeholderZone ++ startContentMarker u
           ++ NL ++ NL)
          ++ concatAll (map (taskLine existingTasks) items)
          ++ NL ++ endContentMarker u ++ placeholderZone
          ++ endBlockMarker u ++ NL)
    by (now rewrite !append_assoc).
  rewrite taskScan_noneBefore.
  - rewrite (taskScan_lines _ _ _ Htitles), (taskScan_lacking _ Hsuf).
    apply app_nil_r.
  - set (Y := concatAll (map (taskLine existingTasks) items) ++ _).
    apply (noneBefore_window _ Y (take 2 Y) "- [" "- [");
      [reflexivity | reflexivity |].
    apply (includes_lacking "["); [reflexivity|].
    rewrite hasChar_append, Hpre. simpl orb.
    destruct items as [|item items]; [reflexivity|].
    unfold Y.
    change (concatAll (map (taskLine existingTasks) (item :: items)))
      with (taskLine existingTasks item
            ++ concatAll (map (taskLine existingTasks) items)).
    rewrite taskLine_shape.
    now destruct (isCompleted existingTasks item).
Qed.

(** X13.  The check list of a consolidated document is read back as it was
    written: when the header holds no opening of a check-list line, the
    token no opening bracket and each title stands on one line, the lines
    that [parseExistingTasks] scans in the document are those of the
    entries, in their order, each with its title and its check mark. *)
Theorem checklist_is_read_back (list : ListyList)
    (items : Datatypes.list ListyItem) (existingTasks : JsMap bool)
    (listId : option string) :
  includes (consolidatedHeader list) "- [" = false ->
  hasChar "[" (idText listId) = false ->
  forallb (fun item => allChars notLineTerminator (item_title item)) items
  = true ->
  taskScan O (consolidatedContent list items existingTasks listId)
  = map (fun item => (item_title item, isCompleted existingTasks item))
        items.
Proof. exact (taskScan_consolidatedContent list items existingTasks listId). Qed.

(** ** Importing a task list again *)

Lemma extractItemId_head (P u rest : string) :
  tokenOk u = true -> includes P "%%START-" = false ->
  extractItemId (P ++ startBlockMarker u ++ rest) = Some u.
Proof.
  intros Hu HP.
  assert (Hnone : noneBefore (P ++ startBlockMarker u ++ rest) "%%START-"
                    (String.length P)).
  { apply (noneBefore_window P _ "%%START" "%%START-" "%%START-");
      [reflexivity | reflexivity |].
    now apply (includes_append_last "-" "%%START"). }
  unfold extractItemId.
  rewrite (findFirst_first startPattern _ (String.length P)
             (8 + String.length u + 2)).
  - replace (8 + String.length u + 2 - 10)%nat with (String.length u)
      by lia.
    rewrite drop_append_plus, drop_startBlockMarker, take_append.
    unfold tokenOk in Hu. apply andb_true_iff in Hu.
    destruct Hu as [_ Hne]. now rewrite Hne.
  - intros i Hi.
    destruct (startPattern (drop i (P ++ startBlockMarker u ++ rest)))
      as [n|] eqn:En; [|reflexivity].
    apply startPattern_key in En. now rewrite (Hnone i Hi) in En.
  - rewrite drop_append. now apply startPattern_marker.
Qed.

Lemma map_set_same {V : Type} (k : string) (v : V) (m : JsMap V) :
  map_get k m = Some v -> map_set k v m = m.
Proof.
  induction m as [|[k0 v0] m IH]; simpl; [discriminate|].
  destruct (k0 =? k)%string eqn:E.
  - apply String.eqb_eq in E. subst k0. now intros [= ->].
  - intros H. now rewrite (IH H).
Qed.

Lemma afterWrite_same (w : World) (path content : string) :
  adapter_read w path = Some content -> afterWrite w path content = w.
Proof.
  intros H. unfold afterWrite. rewrite (map_set_same _ _ _ H).
  now destruct w.
Qed.

Lemma find_distinct (lines : list (string * bool)) (t : string) (b : bool) :
  distinct (map fst lines) = true -> In (t, b) lines ->
  find (fun l => (fst l =? t)%string) lines = Some (t, b).
Proof.
  induction lines as [|[t0 b0] lines IH]; intros Hd Hin; [contradiction|].
  simpl in Hd. apply andb_true_iff in Hd. destruct Hd as [Hnew Hd].
  apply negb_true_iff in Hnew. simpl.
  destruct Hin as [Heq|Hin].
  - injection Heq as -> ->. now rewrite String.eqb_refl.
  - destruct (t0 =? t)%string eqn:E; [|now apply IH].
    apply String.eqb_eq in E. subst t0.
    assert (Hex : existsb (String.eqb t) (map fst lines) = true).
    { apply existsb_exists. exists t. split; [|apply String.eqb_refl].
      apply in_map_iff. now exists (t, b). }
    congruence.
Qed.

Lemma distinct_app (a : list string) (x : string) :
  distinct (a ++ [x])%list
  = distinct a && negb (existsb (String.eqb x) a).
Proof.
  induction a as [|y a IH]; simpl; [reflexivity|].
  rewrite IH, existsb_app. simpl. rewrite orb_false_r, negb_orb.
  rewrite (String.eqb_sym x y).
  destruct (existsb (String.eqb y) a), (y =? x)%string, (distinct a),
    (existsb (String.eqb x) a); reflexivity.
Qed.

Lemma existsb_rev (f : string -> bool) (l : list string) :
  existsb f (rev l) = existsb f l.
Proof.
  induction l as [|x l IH]; simpl; [reflexivity|].
  rewrite existsb_app, IH. simpl. rewrite orb_false_r. apply orb_comm.
Qed.

Lemma distinct_rev (l : list string) : distinct (rev l) = distinct l.
Proof.
  induction l as [|x l IH]; simpl; [reflexivity|].
  rewrite distinct_app, IH, existsb_rev. apply andb_comm.
Qed.

Lemma lastChecked_written (existingTasks : JsMap bool)
    (items : list ListyItem) (item : ListyItem) :
  distinct (map item_title items) = true -> In item items ->
  lastChecked (map (checkLine existingTasks) items) (item_title item)
  = isCompleted existingTasks item.
Proof.
  intros Hd Hin. unfold lastChecked.
  rewrite (find_distinct _ (item_title item)
             (isCompleted existingTasks item)); [reflexivity| |].
  - rewrite map_rev, distinct_rev, map_map. exact Hd.
  - apply -> in_rev. apply in_map_iff. now exists item.
Qed.

(** X14.  Importing a consolidated task list again changes nothing.  The
    stored document is one the service wrote for the same list under a
    token the marker pattern reads back; the titles of the entries are
    distinct and each stands on one line; the header of the list holds no
    opening of a check-list line and none of an outer-start marker.  Then
    [createConsolidatedToDoList] ends without an error and leaves the world,
    every file included, as it found it. *)
Theorem consolidated_reimport_changes_nothing (env : Env)
    (list : ListyList) (folderPath : string) (w : World)
    (items : Datatypes.list ListyItem) (existingTasks : JsMap bool)
    (token : string) :
  list_items list = Some items ->
  plainTitles items = true ->
  includes (consolidatedHeader list) "- [" = false ->
  includes (consolidatedHeader list) "%%START-" = false ->
  tokenOk token = true ->
  adapter_read w
    (normalizePath env
       (folderPath ++ "/" ++ sanitizeFileName env (list_title list)
                   ++ ".md"))
  = Some (consolidatedContent list items existingTasks (Some token)) ->
  createConsolidatedToDoList env list folderPath w = (Ok tt, w).
Proof.
  intros Hitems Hplain Hline Hstart Htoken Hread.
  apply andb_true_iff in Hplain. destruct Hplain as [Hdistinct Hlines].
  set (doc := consolidatedContent list items existingTasks (Some token))
    in *.
  assert (Hbracket : hasChar "[" (idText (Some token)) = false).
  { apply hasChar_hexDash; [reflexivity|].
    unfold tokenOk in Htoken. apply andb_true_iff in Htoken.
    exact (proj1 Htoken). }
  assert (Htruthy : truthy doc = true).
  { unfold doc. rewrite consolidatedContent_skeleton. reflexivity. }
  assert (Hid : extractItemId doc = Some token).
  { unfold doc. rewrite consolidatedContent_skeleton. unfold skeleton.
    now apply extractItemId_head. }
  assert (Hsame : consolidatedContent list items (parseExistingTasks doc)
                    (Some token) = doc).
  { assert (Hmap : map (taskLine (parseExistingTasks doc)) items
                   = map (taskLine existingTasks) items).
    { apply map_ext_in. intros item Hin. unfold taskLine.
      rewrite isCompleted_lastChecked. unfold doc.
      rewrite (taskScan_consolidatedContent _ _ _ _ Hline Hbracket Hlines).
      rewrite (lastChecked_written _ _ _ Hdistinct Hin).
      unfold isCompleted. now destruct (item_marked item). }
    unfold doc at 2. rewrite !consolidatedContent_skeleton.
    now rewrite Hmap. }
  destruct (enableNoteLocking (settings env) && lockMatch doc) eqn:Elock.
  - unfold createConsolidatedToDoList, bind, get_world. rewrite Hread.
    apply andb_true_iff in Elock. destruct Elock as [-> ->].
    now rewrite Htruthy.
  - rewrite (createConsolidatedToDoList_existing env list folderPath w doc
               items Hread Htruthy Elock Hitems).
    rewrite Hid, Hsame. now rewrite (afterWrite_same _ _ _ Hread).
Qed.

(** ** Templates *)

Lemma litCI_lacking (p t : string) :
  startsWith p "{" = true -> hasChar "{" t = false -> litCI p t = None.
Proof.
  intros Hp Ht. unfold litCI.
  destruct p as [|a p]; [discriminate|].
  change (Ascii.eqb "{" a && true = true) in Hp.
  apply andb_true_iff in Hp. destruct Hp as [Ha _].
  apply ascii_eqb_true in Ha. subst a.
  destruct t as [|b t]; [reflexivity|].
  change (startsWithCI (String b t) (String "{" p))
    with (Ascii.eqb (toUpperChar "{") (toUpperChar b) && startsWithCI t p).
  destruct (Ascii.eqb (toUpperChar "{") (toUpperChar b)) eqn:E;
    [|reflexivity].
  apply sameUpper_brace in E.
  change (Ascii.eqb b "{" || hasChar "{" t = false) in Ht.
  rewrite E in Ht. discriminate.
Qed.

Lemma attrRegex_lacking (t : string) :
  hasChar "{" t = false -> attrRegex t = None.
Proof.
  intros Ht. unfold attrRegex, bracketed.
  pose proof (litCI_lacking "{{ATTR:" t eq_refl Ht) as H.
  unfold litCI in H.
  now destruct (startsWithCI t "{{ATTR:").
Qed.

Lemma replaceAll_lacking (m : matcher) (c : ascii) (r s : string) :
  (forall t, hasChar c t = false -> m t = None) ->
  hasChar c s = false -> replaceAll m r s = s.
Proof.
  intros Hm. unfold replaceAll. generalize EmptyString as pre.
  induction s as [|d s IH]; intros pre Hs; [reflexivity|].
  unfold replaceAll_go; fold replaceAll_go.
  rewrite (Hm _ Hs). simpl in Hs. apply orb_false_iff in Hs.
  now rewrite IH.
Qed.

Lemma findFirst_lacking (m : matcher) (c : ascii) (s : string) :
  (forall t, hasChar c t = false -> m t = None) ->
  hasChar c s = false -> findFirst m s = None.
Proof.
  intros Hm. induction s as [|d s IH]; intros Hs.
  - simpl. now rewrite (Hm EmptyString).
  - simpl. rewrite (Hm _ Hs). simpl in Hs. apply orb_false_iff in Hs.
    now rewrite IH.
Qed.

(** X15.  A template without an opening brace holds no placeholder: the
    body rendered from it is the template itself, trimmed, whatever the
    entry and the collection. *)
Theorem template_without_braces_is_copied (fuel : nat)
    (rawTemplate : string) (item : ListyItem) (list : ListyList) :
  hasChar "{" rawTemplate = false ->
  applyTemplateTransformations (S fuel) rawTemplate item list
  = Some (trim rawTemplate).
Proof.
  intros H. unfold applyTemplateTransformations.
  assert (Hlit : forall p r, startsWith p "{" = true ->
                   replaceAll (litCI p) r rawTemplate = rawTemplate).
  { intros p r Hp. apply (replaceAll_lacking _ "{"); [|exact H].
    intros t Ht. now apply litCI_lacking. }
  rewrite !Hlit by reflexivity.
  destruct (item_attributes item) as [[|a attrs]|].
  - rewrite ?Hlit by reflexivity.
    now rewrite (replaceAll_lacking attrRegex "{" _ _ attrRegex_lacking H).
  - rewrite !Hlit by reflexivity.
    unfold attrLoop, execFrom. simpl drop.
    now rewrite (findFirst_lacking attrRegex "{" _ attrRegex_lacking H).
  - rewrite ?Hlit by reflexivity.
    now rewrite (replaceAll_lacking attrRegex "{" _ _ attrRegex_lacking H).
Qed.

(** X16.  A template path that is empty or made of white space only
    selects the built-in template, whatever the vault holds. *)
Theorem blank_template_path_is_default (env : Env) (templatePath : string)
    (w : World) :
  allChars isSpace templatePath = true ->
  getTemplateContents env templatePath w = DEFAULT_TEMPLATE.
Proof.
  intros H. unfold getTemplateContents.
  rewrite (trim_blank templatePath H). now rewrite orb_true_r.
Qed.

(** X17.  A rendered body neither starts nor ends with white space. *)
Theorem rendered_body_is_trimmed (fuel : nat) (rawTemplate : string)
    (item : ListyItem) (list : ListyList) (body : string) :
  applyTemplateTransformations fuel rawTemplate item list = Some body ->
  startsClean body = true /\ endsClean body = true.
Proof.
  unfold applyTemplateTransformations.
  destruct (item_attributes item) as [[|a attrs]|].
  - intros [= <-]. split; [apply startsClean_trim | apply endsClean_trim].
  - destruct (attrLoop _ _ _ _) as [result|]; [|discriminate].
    intros [= <-]. split; [apply startsClean_trim | apply endsClean_trim].
  - intros [= <-]. split; [apply startsClean_trim | apply endsClean_trim].
Qed.

(** ** The title in the body *)

Lemma take_all (s : string) : take (String.length s) s = s.
Proof.
  rewrite <- (append_empty_r s) at 2.
  rewrite take_append. reflexivity.
Qed.

Lemma substring_whole (s : string) (b : Z) :
  len s <= b -> substring s 0 b = s.
Proof.
  intros Hb. unfold substring, clamp. pose proof (len_nonneg s).
  rewrite Z.max_id, (Z.min_l 0), (Z.max_l b), (Z.min_r b) by lia.
  unfold len. rewrite Nat2Z.id. simpl.
  rewrite Nat.sub_0_r. apply take_all.
Qed.

Lemma take_take (n : nat) (s t : string) :
  (n <= String.length s)%nat -> take n (take n s ++ t) = take n s.
Proof.
  intros Hn.
  assert (H : String.length (take n s) = n)
    by (rewrite length_take; lia).
  rewrite <- H at 1. apply take_append.
Qed.

Section TemplateTitle.

Variable env : Env.
Hypothesis max_ok : 4 <= maxTitleLength (settings env).

(** X18.  The title in the body and the file name are cut at different
    lengths.  [generateItemContent] renders the template for the entry under
    the title [templateTitle]; that title is the guarded name when it is
    shorter than the maximum title length, and otherwise its first
    characters, three fewer than the maximum, followed by an ellipsis.  The
    file name is cut in the same way only when the guarded name is longer
    than the maximum: a guarded name of exactly the maximum length is the
    file name as it stands, and loses its last three characters in the
    body. *)
Theorem body_title_is_cut_earlier (fuel : nat) (item : ListyItem)
    (list : ListyList) (w : World) :
  generateItemContent env fuel item list w
  = (match applyTemplateTransformations fuel
             (getTemplateContents env (templateFile (settings env)) w)
             (withTitle
                (withAttributes item
                   (option_map (rewriteDescriptions env)
                               (item_attributes item)))
                (templateTitle env (item_title item))) list
     with
     | Some content =>
         Ok (content,
             withAttributes item
               (option_map (rewriteDescriptions env) (item_attributes item)))
     | None => OutOfFuel
     end, w)
  /\ templateTitle env (item_title item)
     = (if (maxTitleLength (settings env)
            <=? len (dotGuarded (item_title item)))%Z
        then take (Z.to_nat (maxTitleLength (settings env) - 3))
                  (dotGuarded (item_title item)) ++ "..."
        else dotGuarded (item_title item))
  /\ sanitizeFileName env (item_title item)
     = (if (maxTitleLength (settings env)
            <? len (dotGuarded (item_title item)))%Z
        then take (Z.to_nat (maxTitleLength (settings env) - 3))
                  (dotGuarded (item_title item)) ++ "..."
        else dotGuarded (item_title item)).
Proof.
  split.
  { unfold generateItemContent, bind, get_world, templateTitle.
    now destruct (applyTemplateTransformations _ _ _ _). }
  assert (Hname : sanitizeFileName env (item_title item)
     = (if (maxTitleLength (settings env)
            <? len (dotGuarded (item_title item)))%Z
        then take (Z.to_nat (maxTitleLength (settings env) - 3))
                  (dotGuarded (item_title item)) ++ "..."
        else dotGuarded (item_title item))).
  { rewrite sanitizeFileName_unfold.
    destruct (maxTitleLength (settings env)
              <? len (dotGuarded (item_title item)))%Z eqn:E;
      [|reflexivity].
    apply Z.ltb_lt in E. now rewrite substring_prefix by lia. }
  split; [|exact Hname].
  unfold templateTitle. rewrite Hname.
  set (m := maxTitleLength (settings env)) in *.
  set (d := dotGuarded (item_title item)) in *.
  assert (Hk : (0 <= m - 3)%Z) by (clearbody m; clear - max_ok; lia).
  destruct (m <? len d)%Z eqn:Elong.
  - apply Z.ltb_lt in Elong.
    assert (Hle : (Z.to_nat (m - 3) <= String.length d)%nat)
      by (unfold len in Elong; clearbody m d; clear - Elong Hk; lia).
    assert (Hlen : len (take (Z.to_nat (m - 3)) d ++ "...") = m).
    { rewrite len_append. unfold len at 1.
      rewrite length_take.
      unfold len. simpl String.length.
      clearbody m d. clear - Hk Hle. lia. }
    rewrite substring_whole by (rewrite Hlen; lia).
    rewrite Hlen, Z.eqb_refl.
    rewrite substring_prefix by (rewrite Hlen; clearbody m; clear - Hk; lia).
    rewrite take_take by exact Hle.
    replace (m <=? len d)%Z with true
      by (symmetry; apply Z.leb_le; lia).
    reflexivity.
  - apply Z.ltb_ge in Elong.
    rewrite substring_whole by exact Elong.
    destruct (len d =? m)%Z eqn:Eeq.
    + apply Z.eqb_eq in Eeq.
      rewrite substring_prefix by (clearbody m d; clear - Hk Eeq; lia).
      replace (m <=? len d)%Z with true
        by (symmetry; apply Z.leb_le; lia).
      reflexivity.
    + apply Z.eqb_neq in Eeq.
      replace (m <=? len d)%Z with false
        by (symmetry; apply Z.leb_gt; lia).
      reflexivity.
Qed.

End TemplateTitle.

(** ** The placeholder loop *)

(** X19.  The placeholder loop ends when no attribute value holds an
    opening brace or a dollar sign: from some number of rounds on, the body
    is rendered. *)
Theorem rendering_ends_on_plain_values (rawTemplate : string)
    (item : ListyItem) (list : ListyList) :
  forallb (fun a => plainValue (attr_value a)) (attributesOf item) = true ->
  exists fuel0,
    forall fuel, (fuel0 <= fuel)%nat ->
      exists body,
        applyTemplateTransformations fuel rawTemplate item list = Some body.
Proof.
  intros H. apply applyTemplateTransformations_returns.
  intros attrs a Hattrs Ha. unfold attributesOf in H. rewrite Hattrs in H.
  rewrite forallb_forall in H. now apply H.
Qed.

(** X20.  The placeholder loop need not end.  For the template
    [{{ATTR:a}}] and the entry [selfFeeding], whose attribute [a] holds ten
    characters followed by its own placeholder, no number of rounds renders
    the body, whatever the collection: each round puts the placeholder back
    ten characters further on, where the search resumes. *)
Theorem rendering_may_not_end (fuel : nat) (list : ListyList) :
  applyTemplateTransformations fuel "{{ATTR:a}}" selfFeeding list = None.
Proof.
  change (applyTemplateTransformations fuel "{{ATTR:a}}" selfFeeding list)
    with (match attrLoop fuel
                  [ {| attr_key := "a";
                       attr_value := "xxxxxxxxxx{{ATTR:a}}" |} ]
                  (xs 0 ++ "{{ATTR:a}}") 0
          with
          | Some result => Some (trim result)
          | None => None
          end).
  now rewrite attrLoop_runs_on.
Qed.

(** ** Folders *)




(** ** What a writer touches *)

Lemma adapter_read_written (w : World) (path content p : string) :
  (path =? p)%string = false ->
  adapter_read (afterWrite w path content) p = adapter_read w p.
Proof.
  intros H. unfold adapter_read, afterWrite. simpl.
  now rewrite map_get_set, H.
Qed.

(** X23.  Processing an entry touches no file but the one of the entry:
    every other path reads after [processItem] as it did before, however the
    call ends. *)
Theorem processItem_touches_its_note_only (env : Env) (fuel : nat)
    (list : ListyList) (listFolderPath : string) (total : Z)
    (item : ListyItem) (w : World) (path : string) :
  (normalizePath env
     (listFolderPath ++ "/" ++ sanitizeFileName env (item_title item)
                     ++ ".md") =? path)%string = false ->
  adapter_read (snd (processItem env fuel list listFolderPath total item w))
               path
  = adapter_read w path.
Proof.
  intros Hpath. unfold processItem, bind, get_world. cbv zeta.
  set (notePath := normalizePath env _) in *.
  assert (Hgen : forall prior,
            adapter_read
              (snd (match generateNoteContent env fuel item list prior w
                    with
                    | (Ok r, w1) =>
                        match adapter_write notePath (fst r) w1 with
                        | (Ok _, w2) => ret (total + 1) w2
                        | (Throw msg, w2) => (Throw msg, w2)
                        | (OutOfFuel, w2) => (OutOfFuel, w2)
                        end
                    | (Throw msg, w1) => (Throw msg, w1)
                    | (OutOfFuel, w1) => (OutOfFuel, w1)
                    end)) path
            = adapter_read w path).
  { intros prior.
    pose proof (generateNoteContent_world env fuel item list prior w) as Hw.
    destruct (generateNoteContent env fuel item list prior w)
      as [[r|msg|] w1]; simpl in Hw; simpl;
      try (destruct Hw as [-> | ->]; reflexivity).
    fold (afterWrite w1 notePath (fst r)).
    rewrite (adapter_read_written _ _ _ _ Hpath).
    destruct Hw as [-> | ->]; reflexivity. }
  destruct (adapter_read w notePath) as [content|]; [|apply Hgen].
  destruct (enableNoteLocking (settings env) && truthy content
            && lockMatch content); [reflexivity | apply Hgen].
Qed.

(** ** Importing an entry again *)

(** X24.  When the merge reproduces the stored document of an entry, the
    import of the entry leaves the world, every file included, as it found
    it. *)
Theorem reimport_of_merged_note_changes_nothing (env : Env) (fuel : nat)
    (list : ListyList) (listFolderPath : string) (total : Z)
    (item item' : ListyItem) (doc : string) (w : World) :
  adapter_read w
    (normalizePath env
       (listFolderPath ++ "/" ++ sanitizeFileName env (item_title item)
                       ++ ".md")) = Some doc ->
  generateNoteContent env fuel item list (Some doc) w = (Ok (doc, item'), w)
  ->
  snd (processItem env fuel list listFolderPath total item w) = w.
Proof.
  intros Hread Hgen. unfold processItem, bind, get_world. cbv zeta.
  rewrite Hread.
  destruct (enableNoteLocking (settings env) && truthy doc
            && lockMatch doc); [reflexivity|].
  rewrite Hgen. simpl.
  exact (afterWrite_same _ _ _ Hread).
Qed.

(** ** The lock line of a generated header *)

Lemma endsLine_append_NL (b : bool) (x : string) :
  endsLine b (x ++ NL) = true.
Proof.
  revert b. induction x as [|c x IH]; intros b; [reflexivity|]. apply IH.
Qed.

(** X25.  With note locking enabled the generated header ends with the
    line [lock: false] before its closing line, and the same document with
    [true] in place of [false] on that line is one the lock pattern finds:
    the line the writer offers is the line the reader looks for. *)
Theorem generated_lock_line_locks (env : Env) (item : ListyItem)
    (list : ListyList) :
  enableNoteLocking (settings env) = true ->
  exists pre,
    generateFrontmatter env item list
    = pre ++ "lock: false" ++ NL ++ "---" ++ NL ++ NL
    /\ forall rest,
         lockMatch (pre ++ "lock: true" ++ NL ++ "---" ++ NL ++ NL ++ rest)
         = true.
Proof.
  intros Hon. unfold generateFrontmatter. rewrite Hon. cbv zeta.
  match goal with
  | |- exists pre, ((?X ++ "marked: " ++ ?b ++ NL) ++ _) ++ _ = _ /\ _ =>
      set (fields := X); exists (fields ++ "marked: " ++ b ++ NL)
  end.
  split; [now rewrite !append_assoc|].
  intros rest.
  apply (lockMatch_intro _ " " (NL ++ "---" ++ NL ++ NL ++ rest));
    [|reflexivity].
  rewrite <- !append_assoc. apply endsLine_append_NL.
Qed.

(** ** A stored document without markers *)

Lemma findFirst_none (m : matcher) (s : string) :
  (forall i, m (drop i s) = None) -> findFirst m s = None.
Proof.
  induction s as [|c s IH]; intros H.
  - pose proof (H O) as H0. simpl in *. now rewrite H0.
  - pose proof (H O) as H0. simpl in *. rewrite H0.
    rewrite IH; [reflexivity|]. intros i. exact (H (S i)).
Qed.

(** X26.  A stored document that holds no opening of an outer start
    marker is not merged: the entry is rendered as if there were no stored
    document, under a new token and with the placeholder in both zones. *)
Theorem unmarked_note_is_replaced (env : Env) (fuel : nat)
    (item : ListyItem) (list : ListyList) (content : string) (w : World) :
  includes content "%%START-" = false ->
  generateNoteContent env fuel item list (Some content) w
  = generateNoteContent env fuel item list None w.
Proof.
  intros H. unfold generateNoteContent.
  destruct (truthy content); [|reflexivity].
  assert (Hid : extractItemId content = None).
  { unfold extractItemId. rewrite findFirst_none; [reflexivity|].
    intros i. destruct (startPattern (drop i content)) as [n|] eqn:E;
      [|reflexivity].
    apply startPattern_key in E.
    now rewrite (includes_false_at _ _ i H) in E. }
  now rewrite Hid.
Qed.

(** ** The further statements at concrete inputs *)

Lemma sanitizeFileName_idempotent_witness :
  sanitizeFileName sampleEnv (sanitizeFileName sampleEnv " .a/b:c ")
  = sanitizeFileName sampleEnv " .a/b:c ".
Proof.
  apply (sanitizeFileName_idempotent sampleEnv). vm_compute. discriminate.
Defined.

Lemma processDescription_removes_hashes_witness :
  hasChar "#" (processDescription sampleEnv "read #later") = false
  /\ processDescription sampleEnv (processDescription sampleEnv "read #later")
     = processDescription sampleEnv "read #later".
Proof.
  apply (processDescription_removes_hashes sampleEnv EmptyString
           "read #later"); reflexivity.
Defined.

Lemma extractItemId_sound_witness :
  tokenOk "3f2a-01" = true
  /\ includes "notes %%START-3f2a-01%% more" (startBlockMarker "3f2a-01")
     = true.
Proof.
  apply (extractItemId_sound "notes %%START-3f2a-01%% more" "3f2a-01").
  vm_compute. reflexivity.
Defined.

Lemma generateNoteContent_shape_witness :
  let list := collection "Reading" "Books" None in
  exists token zoneA zoneB body,
    generateItemContent sampleEnv 1 (book "1984") list (worldWith [])
    = (Ok (body, book "1984"), worldWith [])
    /\ sampleNote
       = skeleton (generateFrontmatter sampleEnv (book "1984") list) token
                  zoneA (framed body) zoneB NL
    /\ (token = entropy (worldWith []) (minted (worldWith []))
        \/ exists content,
             None = Some content /\ extractItemId content = Some token).
Proof.
  apply (generateNoteContent_shape sampleEnv 1 (book "1984")
           (collection "Reading" "Books" None) None (worldWith [])
           (afterMint (worldWith []))).
  vm_compute. reflexivity.
Defined.

Lemma import_keeps_paths_witness :
  pathExists
    (snd (processListyData sampleEnv 1 reading
            (worldWith [("Listy/keep.md", "kept")])))
    "Listy/keep.md" = true.
Proof.
  apply (import_keeps_paths sampleEnv 1 reading
           (worldWith [("Listy/keep.md", "kept")]) "Listy/keep.md").
  reflexivity.
Defined.

Lemma import_keeps_locked_files_witness :
  adapter_read
    (snd (processListyData lockingEnv 1 reading
            (worldWith [("Listy/Reading/1984.md", "lock: true")])))
    "Listy/Reading/1984.md" = Some "lock: true".
Proof.
  apply (import_keeps_locked_files lockingEnv 1 reading
           (worldWith [("Listy/Reading/1984.md", "lock: true")])
           "Listy/Reading/1984.md" "lock: true"); reflexivity.
Defined.

Lemma import_counts_documents_witness :
  1 = documentsOfAll sampleEnv
        [collection "Reading" "Books" (Some [book "1984"])].
Proof.
  apply (import_counts_documents sampleEnv 1 eq_refl
           [collection "Reading" "Books" (Some [book "1984"])]
           (worldWith [])
           (snd (processListyData sampleEnv 1 reading (worldWith [])))).
  vm_compute. reflexivity.
Defined.

Lemma checklist_is_read_back_witness :
  let list := collection "Chores" "Tasks" None in
  let items := [task "milk" true; task "eggs" false] in
  taskScan O (consolidatedContent list items [] (Some "3f2a-01"))
  = map (fun item => (item_title item, isCompleted [] item)) items.
Proof.
  apply (checklist_is_read_back (collection "Chores" "Tasks" None)
           [task "milk" true; task "eggs" false] [] (Some "3f2a-01"));
    vm_compute; reflexivity.
Defined.

Lemma consolidated_reimport_changes_nothing_witness :
  let items := [task "milk" true; task "eggs" false] in
  let list := collection "Chores" "Tasks" (Some items) in
  let w := worldWith [("Listy/Chores.md",
                       consolidatedContent list items [] (Some "3f2a-01"))] in
  createConsolidatedToDoList sampleEnv list "Listy" w = (Ok tt, w).
Proof.
  apply (consolidated_reimport_changes_nothing sampleEnv
           (collection "Chores" "Tasks"
              (Some [task "milk" true; task "eggs" false]))
           "Listy" _ [task "milk" true; task "eggs" false] [] "3f2a-01");
    vm_compute; reflexivity.
Defined.

Lemma template_without_braces_is_copied_witness :
  applyTemplateTransformations 1 " my notes " (book "1984")
    (collection "Reading" "Books" None)
  = Some (trim " my notes ").
Proof.
  apply (template_without_braces_is_copied 0 " my notes " (book "1984")
           (collection "Reading" "Books" None)).
  reflexivity.
Defined.

Lemma blank_template_path_is_default_witness :
  getTemplateContents sampleEnv "  " (worldWith []) = DEFAULT_TEMPLATE.
Proof.
  apply (blank_template_path_is_default sampleEnv "  " (worldWith [])).
  reflexivity.
Defined.

Lemma rendered_body_is_trimmed_witness :
  startsClean "# 1984" = true /\ endsClean "# 1984" = true.
Proof.
  apply (rendered_body_is_trimmed 1 (NL ++ "# {{Title}}  ") (book "1984")
           (collection "Reading" "Books" None) "# 1984").
  vm_compute. reflexivity.
Defined.

Lemma body_title_is_cut_earlier_witness :
  templateTitle sampleEnv (xs 105) = xs 102 ++ "..."
  /\ sanitizeFileName sampleEnv (xs 105) = xs 105.
Proof.
  apply (body_title_is_cut_earlier sampleEnv
           ltac:(vm_compute; discriminate) 1 (task (xs 105) false)
           (collection "Chores" "Tasks" None) (worldWith [])).
Defined.

Lemma rendering_ends_on_plain_values_witness :
  exists fuel0,
    forall fuel, (fuel0 <= fuel)%nat ->
      exists body,
        applyTemplateTransformations fuel DEFAULT_TEMPLATE (book "1984")
          (collection "Reading" "Books" None) = Some body.
Proof.
  apply (rendering_ends_on_plain_values DEFAULT_TEMPLATE (book "1984")
           (collection "Reading" "Books" None)).
  reflexivity.
Defined.



Lemma processItem_touches_its_note_only_witness :
  adapter_read
    (snd (processItem sampleEnv 1 (collection "Reading" "Books" None)
            "Listy/Reading" 0 (book "1984")
            (worldWith [("Listy/Reading/Emma.md", "kept")])))
    "Listy/Reading/Emma.md"
  = adapter_read (worldWith [("Listy/Reading/Emma.md", "kept")])
                 "Listy/Reading/Emma.md".
Proof.
  apply (processItem_touches_its_note_only sampleEnv 1
           (collection "Reading" "Books" None) "Listy/Reading" 0
           (book "1984") (worldWith [("Listy/Reading/Emma.md", "kept")])
           "Listy/Reading/Emma.md").
  vm_compute. reflexivity.
Defined.

Lemma reimport_of_merged_note_changes_nothing_witness :
  snd (processItem sampleEnv 1 (collection "Reading" "Books" None)
         "Listy/Reading" 0 (book "1984")
         (worldWith [("Listy/Reading/1984.md", sampleNote)]))
  = worldWith [("Listy/Reading/1984.md", sampleNote)].
Proof.
  apply (reimport_of_merged_note_changes_nothing sampleEnv 1
           (collection "Reading" "Books" None) "Listy/Reading" 0
           (book "1984") (book "1984") sampleNote
           (worldWith [("Listy/Reading/1984.md", sampleNote)]));
    vm_compute; reflexivity.
Defined.

Lemma generated_lock_line_locks_witness :
  let list := collection "Reading" "Books" None in
  exists pre,
    generateFrontmatter lockingEnv (book "1984") list
    = pre ++ "lock: false" ++ NL ++ "---" ++ NL ++ NL
    /\ forall rest,
         lockMatch (pre ++ "lock: true" ++ NL ++ "---" ++ NL ++ NL ++ rest)
         = true.
Proof.
  apply (generated_lock_line_locks lockingEnv (book "1984")
           (collection "Reading" "Books" None)).
  reflexivity.
Defined.

Lemma unmarked_note_is_replaced_witness :
  generateNoteContent sampleEnv 1 (book "1984")
    (collection "Reading" "Books" None) (Some "my own notes") (worldWith [])
  = generateNoteContent sampleEnv 1 (book "1984")
      (collection "Reading" "Books" None) None (worldWith []).
Proof.
  apply (unmarked_note_is_replaced sampleEnv 1 (book "1984")
           (collection "Reading" "Books" None) "my own notes"
           (worldWith [])).
  reflexivity.
Defined.
